(** * Chunk & versioning core: a shallow embedding of [backend/chunk_manager.py]

  The development follows the Python module top to bottom:
  - Python values, insertion-ordered dictionaries and the few string
    primitives the module relies on ([str], [f"{n:04d}"], [startswith]);
  - [ModelFingerprint]: the streamed and the partial file checksum;
  - the records kept in the three registries and the on-disk layout;
  - [ChunkManager]: every method as a computation over the manager's
    attributes and its data directory, exceptions included;
  - the properties of the model-switch protocol, of the chunk life cycle
    and of document preservation. *)

From Stdlib Require Import ZArith String Ascii List Lia Bool.
From Stdlib Require Import Decimal DecimalString DecimalN Sorted.
From Stdlib Require OrderedTypeEx.
From Stdlib.Strings Require Byte.
From stdpp Require Import base option list strings gmap.
From Equations Require Import Equations.

Set Warnings "-register-all,-clear-no-such-hyp".

Open Scope string_scope.
Open Scope list_scope.
Open Scope Z_scope.

(** ** Python values *)

Module Py.

(** The values a boolean expression of the module can evaluate to:
    [x and y] returns [x] itself when [x] is falsy. *)
Inductive value :=
| None_
| Str (s : string)
| Bool (b : bool).

Definition of_opt (o : option string) : value :=
  match o with
  | Some s => Str s
  | None => None_
  end.

(** Truth value testing: [None], [False] and the empty string are falsy. *)
Definition truthy (v : value) : bool :=
  match v with
  | None_ => false
  | Str s => negb (String.eqb s "")
  | Bool b => b
  end.

(** [x and y] *)
Definition and_ (x y : value) : value := if truthy x then y else x.

(** [x or y] on optional strings *)
Definition or_ (x y : option string) : option string :=
  if truthy (of_opt x) then x else y.

(** [str(n)] for an integer. *)
Definition digits (n : N) : string := NilEmpty.string_of_uint (N.to_uint n).

Definition str (n : Z) : string :=
  if n <? 0 then "-" +:+ digits (Z.abs_N n) else digits (Z.abs_N n).

(** [s.zfill]-like padding used by the format specification [0wd]. *)
Fixpoint zeros (k : nat) : string :=
  match k with
  | O => ""
  | S k' => String "0" (zeros k')
  end.

Definition pad (w : nat) (s : string) : string :=
  zeros (w - String.length s) +:+ s.

(** [f"{n:04d}"]: the sign counts in the width. *)
Definition format_04d (n : Z) : string :=
  if n <? 0 then "-" +:+ pad 3 (digits (Z.abs_N n)) else pad 4 (digits (Z.abs_N n)).

(** [s.startswith('_')] *)
Definition startswith_underscore (s : string) : bool :=
  match s with
  | String c _ => Ascii.eqb c "_"
  | EmptyString => false
  end.

(** [str(x)] for an optional string inside an f-string. *)
Definition str_opt (o : option string) : string :=
  match o with
  | Some s => s
  | None => "None"
  end.

(** [l[k:]]: a negative [k] counts from the end of the list, and a start
    before the first element is the first element. *)
Definition slice_from {A} (k : Z) (l : list A) : list A :=
  if k <? 0 then drop (Z.to_nat (Z.max 0 (Z.of_nat (length l) + k))) l
  else drop (Z.to_nat k) l.

(** [sorted(l, key=..., reverse=True)]: stable, so elements with equal keys
    keep their relative order. *)
Section Sorted.
Context {A : Type} (key : A -> string).

Fixpoint insert_desc (x : A) (l : list A) : list A :=
  match l with
  | [] => [x]
  | y :: l' =>
      if String.ltb (key y) (key x) then x :: y :: l'
      else y :: insert_desc x l'
  end.

Definition sorted_reverse (l : list A) : list A :=
  fold_left (fun acc x => insert_desc x acc) l [].
End Sorted.

End Py.


(** ** [ModelFingerprint]: file checksums *)


Module ModelFingerprint.

Abbreviation bytes := (list Byte.byte).

(** A binary file opened for reading: its bytes and the stream position. *)
Record fileobj := { content : bytes; position : nat }.

Definition open (b : bytes) : fileobj := {| content := b; position := 0 |}.

(** [os.path.getsize] *)
Definition getsize (b : bytes) : Z := Z.of_nat (length b).

(** [f.read(n)]: at most [n] bytes from the current position, everything
    that is left when [n] is negative; the position moves past them. *)
Definition read (n : Z) (f : fileobj) : bytes * fileobj :=
  let rest := drop (position f) (content f) in
  let data := if n <? 0 then rest else take (Z.to_nat n) rest in
  (data, {| content := content f; position := position f + length data |}).

(** [f.seek(p)] for an offset [p >= 0] from the start of the file. *)
Definition seek (p : Z) (f : fileobj) : fileobj :=
  {| content := content f; position := Z.to_nat p |}.

(** A [hashlib] object: the algorithm and the blocks passed to [update],
    oldest first. *)
Record hash := { name : string; updates : list bytes }.

Definition new (algorithm : string) : hash := {| name := algorithm; updates := [] |}.

Definition update (h : hash) (data : bytes) : hash :=
  {| name := name h; updates := updates h ++ [data] |}.

(** Bytes left between the stream position and the end of the file. *)
Definition remaining (f : fileobj) : nat := length (content f) - position f.

Definition inspect {A} (a : A) : { b | a = b } := exist _ a eq_refl.

(** The loop of [compute_file_checksum]:
    [while True: data = f.read(chunk_size); if not data: break; h.update(data)].
    Every round that does not leave the loop consumes at least one byte. *)
Equations? read_loop (chunk_size : Z) (f : fileobj) (h : hash)
  : hash by wf (remaining f) lt :=
  read_loop chunk_size f h with inspect (read chunk_size f) := {
    | exist _ ([], _) _ => h
    | exist _ (b :: data, f') E =>
        read_loop chunk_size f' (update h (b :: data)) }.
Proof.
  unfold remaining; simpl.
  match goal with H : _ = b :: data |- _ =>
    assert (Hle : (length (b :: data) <= length (content f) - position f)%nat)
      by (rewrite <- H; destruct (chunk_size <? 0);
          rewrite ?length_take, ?length_drop; lia);
    rewrite H end.
  simpl in *. lia.
Qed.

Section Digest.

(** [hexdigest algorithm message]: the digest, in hexadecimal, that
      [hashlib] computes for [message] with the named algorithm. *)
Variable digest : string -> bytes -> string.

Definition hexdigest (h : hash) : string := digest (name h) (concat (updates h)).

(** [_compute_partial_checksum]: start, middle and end samples of 64 MB,
      then the file size. *)
Definition _compute_partial_checksum (file : bytes) (algorithm : string) (file_size : Z)
  : string :=
  let h := new algorithm in
  let sample_size := 64 * 1024 * 1024 in
  let f := open file in
  let '(data, f) := read sample_size f in
  let h := update h data in
  let f := seek (file_size / 2) f in
  let '(data, f) := read sample_size f in
  let h := update h data in
  let f := seek (Z.max 0 (file_size - sample_size)) f in
  let '(data, f) := read sample_size f in
  let h := update h data in
  let h := update h (list_byte_of_string (Py.str file_size)) in
  "partial_" +:+ hexdigest h.

(** The hash object after the streaming loop. *)
Definition streamed (file : bytes) (algorithm : string) (chunk_size : Z) : hash :=
  read_loop chunk_size (open file) (new algorithm).

Definition compute_file_checksum (file : bytes) (algorithm : string) (chunk_size : Z)
  : string :=
  let file_size := getsize file in
  if file_size >? 10 * 1024 * 1024 * 1024 then
    _compute_partial_checksum file algorithm file_size
  else
    hexdigest (streamed file algorithm chunk_size).

End Digest.

(** Default arguments of [compute_file_checksum]. *)
Definition default_algorithm : string := "sha256".
Definition default_chunk_size : Z := 8192 * 1024.

End ModelFingerprint.

(** ** Dictionaries

    A Python [dict] keeps its keys in insertion order and the order shows in
    every loop over [items()], so a dictionary is an association list:
    assigning to a key that is present keeps its place, a new key goes to
    the end. *)

Abbreviation dict V := (list (string * V)).

Module Dict.
Section Ops.
Context {V : Type}.

(** [d.get(k)] *)
Fixpoint get (k : string) (d : dict V) : option V :=
  match d with
  | [] => None
  | (k', v) :: d' => if decide (k = k') then Some v else get k d'
  end.

(** [k in d] *)
Definition mem (k : string) (d : dict V) : bool :=
  match get k d with
  | Some _ => true
  | None => false
  end.

(** [d[k] = v] *)
Fixpoint set (k : string) (v : V) (d : dict V) : dict V :=
  match d with
  | [] => [(k, v)]
  | (k', v') :: d' => if decide (k = k') then (k, v) :: d' else (k', v') :: set k v d'
  end.

Definition keys (d : dict V) : list string := d.*1.

(** No key occurs twice: true of every Python dictionary. *)
Definition wf (d : dict V) : Prop := NoDup (keys d).

End Ops.
End Dict.

(** ** JSON data *)

Module Json.

Inductive t :=
| Null
| Bool (b : bool)
| Num (n : Z)
| Str (s : string)
| Arr (l : list t)
| Obj (kv : list (string * t)).

End Json.

(** A JSON object, such as a document handed to [create_chunk]. *)
Abbreviation document := (dict Json.t).

(** What a registry maps a key to: a record (a Python [dict]), or something
    else such as the integer kept under [_counter]. *)
Inductive entry (R : Type) :=
| Mapping (r : R)
| Scalar (n : Z).
Arguments Mapping {R} r.
Arguments Scalar {R} n.

(** The content of a JSON file of the data directory. *)
Inductive file (A : Type) :=
| Absent
| Unparseable (raw : string)
| Parsed (v : A).
Arguments Absent {A}.
Arguments Unparseable {A} raw.
Arguments Parsed {A} v.

(** ** [ChunkStatus] *)

Module ChunkStatus.
Definition PENDING : string := "pending".
Definition TRAINING : string := "training".
Definition TRAINED : string := "trained".
Definition FAILED : string := "failed".
Definition RESTORED : string := "restored".
Definition ARCHIVED : string := "archived".
End ChunkStatus.

(** ** [DataChunk] and the chunk records of the registry *)

Module Chunk.

Record history_entry := {
  timestamp : string;
  action : string;
  details : string
}.

(** The keys written by [DataChunk.to_dict], and [restore_reason], which
    [get_restorable_chunks] adds; [None] stands for the Python [None] and for
    a missing key alike. *)
Record t := {
  chunk_id : string;
  created_at : string;
  status : string;
  model_identity_hash : option string;
  lora_id : option string;
  document_ids : list Json.t;
  document_count : Z;
  character : option string;
  metadata : document;
  history : list history_entry;
  restore_reason : option string
}.

Definition set_chunk_id (v : string) (c : t) : t :=
  {| chunk_id := v; created_at := created_at c; status := status c;
     model_identity_hash := model_identity_hash c; lora_id := lora_id c;
     document_ids := document_ids c; document_count := document_count c;
     character := character c; metadata := metadata c; history := history c;
     restore_reason := restore_reason c |}.

Definition set_status (v : string) (c : t) : t :=
  {| chunk_id := chunk_id c; created_at := created_at c; status := v;
     model_identity_hash := model_identity_hash c; lora_id := lora_id c;
     document_ids := document_ids c; document_count := document_count c;
     character := character c; metadata := metadata c; history := history c;
     restore_reason := restore_reason c |}.

Definition set_lora_id (v : option string) (c : t) : t :=
  {| chunk_id := chunk_id c; created_at := created_at c; status := status c;
     model_identity_hash := model_identity_hash c; lora_id := v;
     document_ids := document_ids c; document_count := document_count c;
     character := character c; metadata := metadata c; history := history c;
     restore_reason := restore_reason c |}.

Definition set_history (v : list history_entry) (c : t) : t :=
  {| chunk_id := chunk_id c; created_at := created_at c; status := status c;
     model_identity_hash := model_identity_hash c; lora_id := lora_id c;
     document_ids := document_ids c; document_count := document_count c;
     character := character c; metadata := metadata c; history := v;
     restore_reason := restore_reason c |}.

Definition set_restore_reason (v : option string) (c : t) : t :=
  {| chunk_id := chunk_id c; created_at := created_at c; status := status c;
     model_identity_hash := model_identity_hash c; lora_id := lora_id c;
     document_ids := document_ids c; document_count := document_count c;
     character := character c; metadata := metadata c; history := history c;
     restore_reason := v |}.

(** [DataChunk.__init__], with the clock reading taken by the caller. *)
Definition DataChunk (chunk_id : string) (now : string) : t :=
  {| chunk_id := chunk_id; created_at := now; status := ChunkStatus.PENDING;
     model_identity_hash := None; lora_id := None; document_ids := [];
     document_count := 0; character := None; metadata := []; history := [];
     restore_reason := None |}.

(** [DataChunk.add_history] *)
Definition add_history (action details now : string) (c : t) : t :=
  set_history (history c ++ [{| timestamp := now; action := action; details := details |}]) c.

End Chunk.

(** ** [LoRARecord] and the adapter records of the registry *)

Module LoRA.

(** The keys written by [LoRARecord.to_dict], and the three keys that
    [mark_lora_unusable] and [delete_lora] add. *)
Record t := {
  lora_id : string;
  created_at : string;
  model_identity_hash : option string;
  model_name : option string;
  model_type : option string;
  chunk_ids : list string;
  path : option string;
  status : string;
  training_config : document;
  metrics : document;
  notes : string;
  unusable_reason : option string;
  marked_unusable_at : option string;
  deleted_at : option string
}.

Definition set_lora_id (v : string) (r : t) : t :=
  {| lora_id := v; created_at := created_at r;
     model_identity_hash := model_identity_hash r; model_name := model_name r;
     model_type := model_type r; chunk_ids := chunk_ids r; path := path r;
     status := status r; training_config := training_config r;
     metrics := metrics r; notes := notes r; unusable_reason := unusable_reason r;
     marked_unusable_at := marked_unusable_at r; deleted_at := deleted_at r |}.

Definition set_status (v : string) (r : t) : t :=
  {| lora_id := lora_id r; created_at := created_at r;
     model_identity_hash := model_identity_hash r; model_name := model_name r;
     model_type := model_type r; chunk_ids := chunk_ids r; path := path r;
     status := v; training_config := training_config r;
     metrics := metrics r; notes := notes r; unusable_reason := unusable_reason r;
     marked_unusable_at := marked_unusable_at r; deleted_at := deleted_at r |}.

Definition set_unusable_reason (v : option string) (r : t) : t :=
  {| lora_id := lora_id r; created_at := created_at r;
     model_identity_hash := model_identity_hash r; model_name := model_name r;
     model_type := model_type r; chunk_ids := chunk_ids r; path := path r;
     status := status r; training_config := training_config r;
     metrics := metrics r; notes := notes r; unusable_reason := v;
     marked_unusable_at := marked_unusable_at r; deleted_at := deleted_at r |}.

Definition set_marked_unusable_at (v : option string) (r : t) : t :=
  {| lora_id := lora_id r; created_at := created_at r;
     model_identity_hash := model_identity_hash r; model_name := model_name r;
     model_type := model_type r; chunk_ids := chunk_ids r; path := path r;
     status := status r; training_config := training_config r;
     metrics := metrics r; notes := notes r; unusable_reason := unusable_reason r;
     marked_unusable_at := v; deleted_at := deleted_at r |}.

Definition set_deleted_at (v : option string) (r : t) : t :=
  {| lora_id := lora_id r; created_at := created_at r;
     model_identity_hash := model_identity_hash r; model_name := model_name r;
     model_type := model_type r; chunk_ids := chunk_ids r; path := path r;
     status := status r; training_config := training_config r;
     metrics := metrics r; notes := notes r; unusable_reason := unusable_reason r;
     marked_unusable_at := marked_unusable_at r; deleted_at := v |}.

(** [LoRARecord.__init__] followed by the assignments of [register_lora]. *)
Definition LoRARecord (lora_id : string) (now : string) : t :=
  {| lora_id := lora_id; created_at := now; model_identity_hash := None;
     model_name := None; model_type := None; chunk_ids := []; path := None;
     status := "active"; training_config := []; metrics := []; notes := "";
     unusable_reason := None; marked_unusable_at := None; deleted_at := None |}.

End LoRA.

(** ** Model identities and the model registry *)

Module Model.

(** The dictionary built by [ModelFingerprint.identify_model];
    [friendly_name] is the key that [register_model] may add. *)
Record identity := {
  path : string;
  name : string;
  detected_at : string;
  file_checksum : option string;
  config_fingerprint : option string;
  file_size : option Z;
  model_type : option string;
  architecture : option string;
  identity_hash : string;
  friendly_name : option string
}.

Definition set_friendly_name (v : option string) (i : identity) : identity :=
  {| path := path i; name := name i; detected_at := detected_at i;
     file_checksum := file_checksum i; config_fingerprint := config_fingerprint i;
     file_size := file_size i; model_type := model_type i;
     architecture := architecture i; identity_hash := identity_hash i;
     friendly_name := v |}.

(** A value of [known_models]. *)
Record known := {
  k_identity : identity;
  first_seen : string;
  last_seen : string;
  k_friendly_name : string;
  times_used : Z;
  lora_ids : list string;
  compatible_lora_ids : list string
}.

Definition set_last_seen (v : string) (k : known) : known :=
  {| k_identity := k_identity k; first_seen := first_seen k; last_seen := v;
     k_friendly_name := k_friendly_name k; times_used := times_used k;
     lora_ids := lora_ids k; compatible_lora_ids := compatible_lora_ids k |}.

Definition set_times_used (v : Z) (k : known) : known :=
  {| k_identity := k_identity k; first_seen := first_seen k; last_seen := last_seen k;
     k_friendly_name := k_friendly_name k; times_used := v;
     lora_ids := lora_ids k; compatible_lora_ids := compatible_lora_ids k |}.

Definition set_lora_ids (v : list string) (k : known) : known :=
  {| k_identity := k_identity k; first_seen := first_seen k; last_seen := last_seen k;
     k_friendly_name := k_friendly_name k; times_used := times_used k;
     lora_ids := v; compatible_lora_ids := compatible_lora_ids k |}.

(** [model_registry]: the keys [known_models] and [current_model]; a missing
    [known_models] reads as the empty dictionary. *)
Record registry := {
  known_models : dict known;
  current_model : option string
}.

Definition empty : registry := {| known_models := []; current_model := None |}.

End Model.

(** ** Results and operation log *)

(** The dictionary returned by [register_model]. *)
Record register_result := {
  rr_identity_hash : string;
  rr_identity : Model.identity;
  rr_is_new : bool;
  rr_model_changed : Py.value;
  rr_previous_model : option string;
  rr_friendly_name : string
}.

(** The dictionary returned by [detect_model_change]. *)
Record detect_result := {
  dr_changed : bool;
  dr_known : bool;
  dr_current_hash : option string;
  dr_new_hash : string;
  dr_new_name : string
}.

(** The summary returned by [handle_model_switch] when the model changed. *)
Record switch_summary := {
  previous_model : option string;
  new_model : string;
  model_info : register_result;
  unusable_loras : list string;
  unusable_lora_count : nat;
  restorable_chunks : list string;
  restorable_chunk_count : nat;
  restorable_document_count : Z;
  compatible_loras : list string;
  compatible_lora_count : nat;
  action_needed : bool
}.

(** The two shapes of the result of [handle_model_switch]. *)
Inductive switch_result :=
| Same (message : string) (model : register_result)
| Switched (summary : switch_summary).

(** The dictionary returned by [restore_chunks_to_rag]. *)
Record restore_result := {
  restored_chunks : list string;
  failed_chunks : list string;
  total_documents : nat;
  documents : list document
}.

(** The dictionary returned by [select_lora]. *)
Inductive select_result :=
| Incompatible (lora : LoRA.t) (reason : string)
| Compatible (lora : LoRA.t) (path : option string).

Module Log.

(** The [details] of a line of [operations.jsonl], one shape per operation. *)
Inductive details :=
| model_registered (identity_hash name : string) (is_new : bool)
    (model_changed : Py.value) (previous_model : option string)
| model_switch (result : switch_summary)
| chunk_created (chunk_id : string) (document_count : Z)
    (character model : option string)
| chunk_status_changed (chunk_id new_status details : string)
| lora_registered (lora_id : string) (model : option string)
    (chunk_ids : list string) (path : string)
| lora_marked_unusable (lora_id reason : string)
| lora_deleted (lora_id : string) (files_deleted : bool)
| chunks_restored (restored failed : list string) (document_count : nat).

Definition operation (d : details) : string :=
  match d with
  | model_registered _ _ _ _ _ => "model_registered"
  | model_switch _ => "model_switch"
  | chunk_created _ _ _ _ => "chunk_created"
  | chunk_status_changed _ _ _ => "chunk_status_changed"
  | lora_registered _ _ _ _ => "lora_registered"
  | lora_marked_unusable _ _ => "lora_marked_unusable"
  | lora_deleted _ _ => "lora_deleted"
  | chunks_restored _ _ _ => "chunks_restored"
  end.

Record entry := { timestamp : string; entry_details : details }.

End Log.

(** ** The data directory and the manager's attributes *)

(** The files under [data_dir] that the manager reads or writes.  The
    per-chunk files are keyed by the name of the chunk directory.  A file
    written by [json.dump] holds the value that [json.load] reads back. *)
Record Disk := {
  chunk_registry_json : file (dict (entry Chunk.t));
  lora_registry_json : file (dict (entry LoRA.t));
  model_registry_json : file Model.registry;
  manifest_json : gmap string (entry Chunk.t);
  documents_json : gmap string (list document);
  adapter_dirs : gset string;
  operations_jsonl : list Log.entry
}.

Definition empty_disk : Disk :=
  {| chunk_registry_json := Absent; lora_registry_json := Absent;
     model_registry_json := Absent; manifest_json := ∅; documents_json := ∅;
     adapter_dirs := ∅; operations_jsonl := [] |}.

(** The attributes of a [ChunkManager], the data directory it owns, and the
    number of times the wall clock has been read. *)
Record State := {
  chunk_registry : dict (entry Chunk.t);
  lora_registry : dict (entry LoRA.t);
  model_registry : Model.registry;
  current_model : option string;
  _chunk_counter : Z;
  _lora_counter : Z;
  disk : Disk;
  clock : nat
}.

Definition set_chunk_registry (v : dict (entry Chunk.t)) (st : State) : State :=
  {| chunk_registry := v; lora_registry := lora_registry st;
     model_registry := model_registry st; current_model := current_model st;
     _chunk_counter := _chunk_counter st; _lora_counter := _lora_counter st;
     disk := disk st; clock := clock st |}.

Definition set_lora_registry (v : dict (entry LoRA.t)) (st : State) : State :=
  {| chunk_registry := chunk_registry st; lora_registry := v;
     model_registry := model_registry st; current_model := current_model st;
     _chunk_counter := _chunk_counter st; _lora_counter := _lora_counter st;
     disk := disk st; clock := clock st |}.

Definition set_model_registry (v : Model.registry) (st : State) : State :=
  {| chunk_registry := chunk_registry st; lora_registry := lora_registry st;
     model_registry := v; current_model := current_model st;
     _chunk_counter := _chunk_counter st; _lora_counter := _lora_counter st;
     disk := disk st; clock := clock st |}.

Definition set_current_model (v : option string) (st : State) : State :=
  {| chunk_registry := chunk_registry st; lora_registry := lora_registry st;
     model_registry := model_registry st; current_model := v;
     _chunk_counter := _chunk_counter st; _lora_counter := _lora_counter st;
     disk := disk st; clock := clock st |}.

Definition set_chunk_counter (v : Z) (st : State) : State :=
  {| chunk_registry := chunk_registry st; lora_registry := lora_registry st;
     model_registry := model_registry st; current_model := current_model st;
     _chunk_counter := v; _lora_counter := _lora_counter st;
     disk := disk st; clock := clock st |}.

Definition set_lora_counter (v : Z) (st : State) : State :=
  {| chunk_registry := chunk_registry st; lora_registry := lora_registry st;
     model_registry := model_registry st; current_model := current_model st;
     _chunk_counter := _chunk_counter st; _lora_counter := v;
     disk := disk st; clock := clock st |}.

Definition set_disk (v : Disk) (st : State) : State :=
  {| chunk_registry := chunk_registry st; lora_registry := lora_registry st;
     model_registry := model_registry st; current_model := current_model st;
     _chunk_counter := _chunk_counter st; _lora_counter := _lora_counter st;
     disk := v; clock := clock st |}.

Definition set_clock (v : nat) (st : State) : State :=
  {| chunk_registry := chunk_registry st; lora_registry := lora_registry st;
     model_registry := model_registry st; current_model := current_model st;
     _chunk_counter := _chunk_counter st; _lora_counter := _lora_counter st;
     disk := disk st; clock := v |}.

Definition write_chunk_registry_json (v : dict (entry Chunk.t)) (d : Disk) : Disk :=
  {| chunk_registry_json := Parsed v; lora_registry_json := lora_registry_json d;
     model_registry_json := model_registry_json d; manifest_json := manifest_json d;
     documents_json := documents_json d; adapter_dirs := adapter_dirs d;
     operations_jsonl := operations_jsonl d |}.

Definition write_lora_registry_json (v : dict (entry LoRA.t)) (d : Disk) : Disk :=
  {| chunk_registry_json := chunk_registry_json d; lora_registry_json := Parsed v;
     model_registry_json := model_registry_json d; manifest_json := manifest_json d;
     documents_json := documents_json d; adapter_dirs := adapter_dirs d;
     operations_jsonl := operations_jsonl d |}.

Definition write_model_registry_json (v : Model.registry) (d : Disk) : Disk :=
  {| chunk_registry_json := chunk_registry_json d;
     lora_registry_json := lora_registry_json d;
     model_registry_json := Parsed v; manifest_json := manifest_json d;
     documents_json := documents_json d; adapter_dirs := adapter_dirs d;
     operations_jsonl := operations_jsonl d |}.

Definition write_manifest_json (chunk_id : string) (v : entry Chunk.t) (d : Disk)
  : Disk :=
  {| chunk_registry_json := chunk_registry_json d;
     lora_registry_json := lora_registry_json d;
     model_registry_json := model_registry_json d;
     manifest_json := <[chunk_id := v]> (manifest_json d);
     documents_json := documents_json d; adapter_dirs := adapter_dirs d;
     operations_jsonl := operations_jsonl d |}.

Definition write_documents_json (chunk_id : string) (v : list document) (d : Disk) : Disk :=
  {| chunk_registry_json := chunk_registry_json d;
     lora_registry_json := lora_registry_json d;
     model_registry_json := model_registry_json d;
     manifest_json := manifest_json d;
     documents_json := <[chunk_id := v]> (documents_json d);
     adapter_dirs := adapter_dirs d; operations_jsonl := operations_jsonl d |}.

Definition set_adapter_dirs (v : gset string) (d : Disk) : Disk :=
  {| chunk_registry_json := chunk_registry_json d;
     lora_registry_json := lora_registry_json d;
     model_registry_json := model_registry_json d;
     manifest_json := manifest_json d; documents_json := documents_json d;
     adapter_dirs := v; operations_jsonl := operations_jsonl d |}.

Definition append_operations_jsonl (e : Log.entry) (d : Disk) : Disk :=
  {| chunk_registry_json := chunk_registry_json d;
     lora_registry_json := lora_registry_json d;
     model_registry_json := model_registry_json d;
     manifest_json := manifest_json d; documents_json := documents_json d;
     adapter_dirs := adapter_dirs d;
     operations_jsonl := operations_jsonl d ++ [e] |}.

(** ** Computations: state and exceptions *)

Inductive exn :=
| TypeError (msg : string)
| AttributeError (msg : string)
| RuntimeError (msg : string).

(** A call either returns a value or raises; both leave a state behind, the
    one reached when the exception was raised in the second case. *)
Inductive outcome (A : Type) :=
| Ok (a : A) (st : State)
| Raise (e : exn) (st : State).
Arguments Ok {A} a st.
Arguments Raise {A} e st.

Definition final {A} (o : outcome A) : State :=
  match o with
  | Ok _ st => st
  | Raise _ st => st
  end.

Definition M (A : Type) : Type := State -> outcome A.

#[global] Instance M_ret : MRet M := fun A a st => Ok a st.

#[global] Instance M_bind : MBind M := fun A B f m st =>
  match m st with
  | Ok a st' => f a st'
  | Raise e st' => Raise e st'
  end.

Definition get_state : M State := fun st => Ok st st.

Definition modify (f : State -> State) : M unit := fun st => Ok tt (f st).

Definition raise {A} (e : exn) : M A := fun st => Raise e st.

(** [for x in l: body(x)] *)
Fixpoint for_each {A} (l : list A) (body : A -> M unit) : M unit :=
  match l with
  | [] => mret tt
  | x :: l' => body x ;; for_each l' body
  end.

(** [registry.get('_counter', 0)]; the value under [_counter] is an integer. *)
Definition counter_of {R} (registry : dict (entry R)) : Z :=
  match Dict.get "_counter" registry with
  | Some (Scalar n) => n
  | Some (Mapping _) => 0
  | None => 0
  end.

(** [_load_registry]: the parsed file, or the empty dictionary when the file
    is missing or [json.load] fails. *)
Definition _load_registry {A} (empty : A) (f : file A) : A :=
  match f with
  | Parsed v => v
  | Unparseable _ => empty
  | Absent => empty
  end.

(** [ChunkManager.__init__] on a data directory. *)
Definition __init__ (d : Disk) (clock0 : nat) : State :=
  let chunk_registry := _load_registry [] (chunk_registry_json d) in
  let lora_registry := _load_registry [] (lora_registry_json d) in
  let model_registry := _load_registry Model.empty (model_registry_json d) in
  {| chunk_registry := chunk_registry;
     lora_registry := lora_registry;
     model_registry := model_registry;
     current_model := Model.current_model model_registry;
     _chunk_counter := counter_of chunk_registry;
     _lora_counter := counter_of lora_registry;
     disk := d;
     clock := clock0 |}.

(** ** A sample environment

    A clock, a fingerprinter and documents to run the manager on. *)

Module Sample.

(** The n-th reading of the clock. *)
Definition isoformat_at (n : nat) : string := "t" +:+ Py.digits (N.of_nat n).

(** A fingerprinter that tells models apart by their path. *)
Definition identify_model (model_path detected : string) : Model.identity :=
  {| Model.path := model_path;
     Model.name := model_path;
     Model.detected_at := detected;
     Model.file_checksum := None;
     Model.config_fingerprint := None;
     Model.file_size := None;
     Model.model_type := None;
     Model.architecture := None;
     Model.identity_hash := "hash:" +:+ model_path;
     Model.friendly_name := None |}.

Definition documents : list document :=
  [[("id", Json.Str "d1"); ("text", Json.Str "x")]].

(** A digest that keeps the length of the message. *)
Definition digest (algorithm : string) (message : list Byte.byte) : string :=
  algorithm +:+ ":" +:+ Py.digits (N.of_nat (length message)).

End Sample.

(** ** [ChunkManager] *)

Section ChunkManager.

(** [datetime.now().isoformat()] at the n-th reading of the clock. *)
Variable isoformat_at : nat -> string.

(** [ModelFingerprint.identify_model(model_path)] for the model directory as
    it stands, given the time of detection.  The model files live outside the
    data directory. *)
Variable identify_model : string -> string -> Model.identity.

(** An identity hash is the first 16 hexadecimal digits of a SHA-256 digest:
    it is never the empty string. *)
Hypothesis identity_hash_nonempty :
  forall model_path detected,
    Model.identity_hash (identify_model model_path detected) <> "".

Definition now : M string :=
  fun st => Ok (isoformat_at (clock st)) (set_clock (S (clock st)) st).

Definition _save_chunk_registry : M unit :=
  modify (fun st =>
    let registry := Dict.set "_counter" (Scalar (_chunk_counter st)) (chunk_registry st) in
    set_disk (write_chunk_registry_json registry (disk st))
      (set_chunk_registry registry st)).

Definition _save_lora_registry : M unit :=
  modify (fun st =>
    let registry := Dict.set "_counter" (Scalar (_lora_counter st)) (lora_registry st) in
    set_disk (write_lora_registry_json registry (disk st))
      (set_lora_registry registry st)).

Definition _save_model_registry : M unit :=
  modify (fun st =>
    set_disk (write_model_registry_json (model_registry st) (disk st)) st).

Definition _log_operation (details : Log.details) : M unit :=
  t ← now;
  modify (fun st =>
    set_disk (append_operations_jsonl
                {| Log.timestamp := t; Log.entry_details := details |} (disk st)) st).

(** *** Model management *)

(** [friendly_name or name] *)
Definition or_name (friendly_name : option string) (name : string) : string :=
  match Py.or_ friendly_name (Some name) with
  | Some s => s
  | None => name
  end.

Definition register_model (model_path : string) (friendly_name : option string)
  : M register_result :=
  detected ← now;
  let identity := identify_model model_path detected in
  let identity_hash := Model.identity_hash identity in
  let identity :=
    if Py.truthy (Py.of_opt friendly_name)
    then Model.set_friendly_name friendly_name identity
    else identity in
  st ← get_state;
  let known_models := Model.known_models (model_registry st) in
  let is_new := negb (Dict.mem identity_hash known_models) in
  let previous_model := current_model st in
  let model_changed :=
    Py.and_ (Py.of_opt previous_model)
            (Py.Bool (negb (bool_decide (previous_model = Some identity_hash)))) in
  known_models ←
    match Dict.get identity_hash known_models with
    | None =>
        first_seen ← now;
        last_seen ← now;
        mret (Dict.set identity_hash
                {| Model.k_identity := identity;
                   Model.first_seen := first_seen;
                   Model.last_seen := last_seen;
                   Model.k_friendly_name := or_name friendly_name (Model.name identity);
                   Model.times_used := 1;
                   Model.lora_ids := [];
                   Model.compatible_lora_ids := [] |} known_models)
    | Some info =>
        last_seen ← now;
        mret (Dict.set identity_hash
                (Model.set_times_used (Model.times_used info + 1)
                   (Model.set_last_seen last_seen info)) known_models)
    end;
  modify (fun st =>
    set_current_model (Some identity_hash)
      (set_model_registry
         {| Model.known_models := known_models;
            Model.current_model := Some identity_hash |} st));;
  _save_model_registry;;
  let result :=
    {| rr_identity_hash := identity_hash;
       rr_identity := identity;
       rr_is_new := is_new;
       rr_model_changed := model_changed;
       rr_previous_model := previous_model;
       rr_friendly_name :=
         match Dict.get identity_hash known_models with
         | Some info => Model.k_friendly_name info
         | None => Model.name identity
         end |} in
  _log_operation
    (Log.model_registered identity_hash (Model.name identity) is_new
       model_changed previous_model);;
  mret result.

Definition detect_model_change (model_path : string) : M detect_result :=
  detected ← now;
  let identity := identify_model model_path detected in
  let identity_hash := Model.identity_hash identity in
  st ← get_state;
  let changed :=
    match current_model st with
    | None => false
    | Some h => negb (bool_decide (h = identity_hash))
    end in
  let known := Dict.mem identity_hash (Model.known_models (model_registry st)) in
  mret {| dr_changed := changed; dr_known := known;
          dr_current_hash := current_model st;
          dr_new_hash := identity_hash;
          dr_new_name := Model.name identity |}.

(** The loop of [get_compatible_loras]. *)
Fixpoint compatible_scan (target_hash : string) (items : dict (entry LoRA.t))
  : list LoRA.t :=
  match items with
  | [] => []
  | (lora_id, lora_data) :: rest =>
      let loras := compatible_scan target_hash rest in
      if Py.startswith_underscore lora_id then loras
      else
        match lora_data with
        | Mapping r =>
            if bool_decide (LoRA.model_identity_hash r = Some target_hash)
            then if bool_decide (LoRA.status r = "deleted") then loras else r :: loras
            else loras
        | Scalar _ => loras
        end
  end.

Definition get_compatible_loras (model_identity_hash : option string) (st : State)
  : list LoRA.t :=
  match Py.or_ model_identity_hash (current_model st) with
  | Some target_hash =>
      if Py.truthy (Py.Str target_hash)
      then Py.sorted_reverse LoRA.created_at
             (compatible_scan target_hash (lora_registry st))
      else []
  | None => []
  end.

(** *** Chunk management *)

(** [[doc.get('id', str(i)) for i, doc in enumerate(documents)]] *)
Definition document_ids_of (documents : list document) : list Json.t :=
  imap (fun i doc =>
          match Dict.get "id" doc with
          | Some v => v
          | None => Json.Str (Py.str (Z.of_nat i))
          end) documents.

Definition create_chunk (documents : list document) (character : option string)
    (metadata : option document) : M Chunk.t :=
  modify (fun st => set_chunk_counter (_chunk_counter st + 1) st);;
  st ← get_state;
  let chunk_id := "chunk_" +:+ Py.format_04d (_chunk_counter st) in
  created ← now;
  let chunk := Chunk.DataChunk chunk_id created in
  let chunk :=
    {| Chunk.chunk_id := Chunk.chunk_id chunk;
       Chunk.created_at := Chunk.created_at chunk;
       Chunk.status := Chunk.status chunk;
       Chunk.model_identity_hash := current_model st;
       Chunk.lora_id := Chunk.lora_id chunk;
       Chunk.document_ids := document_ids_of documents;
       Chunk.document_count := Z.of_nat (length documents);
       Chunk.character := character;
       Chunk.metadata := default [] metadata;
       Chunk.history := Chunk.history chunk;
       Chunk.restore_reason := Chunk.restore_reason chunk |} in
  t ← now;
  let chunk :=
    Chunk.add_history "created"
      (Py.str (Z.of_nat (length documents)) +:+ " documents") t chunk in
  modify (fun st => set_disk (write_manifest_json chunk_id (Mapping chunk) (disk st)) st);;
  modify (fun st => set_disk (write_documents_json chunk_id documents (disk st)) st);;
  modify (fun st =>
    set_chunk_registry (Dict.set chunk_id (Mapping chunk) (chunk_registry st)) st);;
  _save_chunk_registry;;
  _log_operation
    (Log.chunk_created chunk_id (Z.of_nat (length documents)) character
       (current_model st));;
  mret chunk.

Definition _update_chunk_status (chunk_id status details : string) : M unit :=
  st ← get_state;
  match Dict.get chunk_id (chunk_registry st) with
  | None => mret tt
  | Some (Scalar _) =>
      raise (TypeError "'int' object does not support item assignment")
  | Some (Mapping chunk_data) =>
      let chunk_data := Chunk.set_status status chunk_data in
      t ← now;
      let history :=
        Chunk.history chunk_data ++
        [{| Chunk.timestamp := t; Chunk.action := status; Chunk.details := details |}] in
      let chunk_data := Chunk.set_history history chunk_data in
      modify (fun st =>
        set_chunk_registry (Dict.set chunk_id (Mapping chunk_data) (chunk_registry st)) st);;
      _save_chunk_registry;;
      st ← get_state;
      match manifest_json (disk st) !! chunk_id, Dict.get chunk_id (chunk_registry st) with
      | Some _, Some current =>
          modify (fun st => set_disk (write_manifest_json chunk_id current (disk st)) st)
      | _, _ => mret tt
      end;;
      _log_operation (Log.chunk_status_changed chunk_id status details)
  end.

Definition mark_chunk_training (chunk_id : string) : M unit :=
  _update_chunk_status chunk_id ChunkStatus.TRAINING "Training started".

Definition mark_chunk_trained (chunk_id lora_id : string) : M unit :=
  st ← get_state;
  match Dict.get chunk_id (chunk_registry st) with
  | None => mret tt
  | Some (Scalar _) =>
      raise (TypeError "'int' object does not support item assignment")
  | Some (Mapping chunk_data) =>
      modify (set_chunk_registry
                (Dict.set chunk_id (Mapping (Chunk.set_lora_id (Some lora_id) chunk_data))
                   (chunk_registry st)))
  end;;
  _update_chunk_status chunk_id ChunkStatus.TRAINED ("Trained into LoRA " +:+ lora_id).

Definition mark_chunk_failed (chunk_id error : string) : M unit :=
  _update_chunk_status chunk_id ChunkStatus.FAILED ("Training failed: " +:+ error).

Definition mark_chunk_restored (chunk_id : string) : M unit :=
  _update_chunk_status chunk_id ChunkStatus.RESTORED "Data restored to RAG".

(** [get_chunk] *)
Definition get_chunk (chunk_id : string) (st : State) : option (entry Chunk.t) :=
  Dict.get chunk_id (chunk_registry st).

(** [get_chunk_documents]: [None] when [documents.json] does not exist. *)
Definition get_chunk_documents (chunk_id : string) (st : State)
  : option (list document) :=
  documents_json (disk st) !! chunk_id.

(** The loop of [get_chunks_by_status]: a selected record gets its
    [chunk_id] key set, in the registry itself. *)
Fixpoint by_status_scan (status model_hash : option string)
    (items : dict (entry Chunk.t)) : dict (entry Chunk.t) * list Chunk.t :=
  match items with
  | [] => ([], [])
  | (chunk_id, e) :: rest =>
      let '(rest', chunks) := by_status_scan status model_hash rest in
      if Py.startswith_underscore chunk_id then ((chunk_id, e) :: rest', chunks)
      else
        match e with
        | Scalar _ => ((chunk_id, e) :: rest', chunks)
        | Mapping chunk_data =>
            if Py.truthy (Py.of_opt status)
               && negb (bool_decide (Some (Chunk.status chunk_data) = status))
            then ((chunk_id, e) :: rest', chunks)
            else if Py.truthy (Py.of_opt model_hash)
                    && negb (bool_decide (Chunk.model_identity_hash chunk_data = model_hash))
            then ((chunk_id, e) :: rest', chunks)
            else
              let chunk_data := Chunk.set_chunk_id chunk_id chunk_data in
              ((chunk_id, Mapping chunk_data) :: rest', chunk_data :: chunks)
        end
  end.

Definition get_chunks_by_status (status model_hash : option string)
  : M (list Chunk.t) :=
  st ← get_state;
  let '(registry, chunks) := by_status_scan status model_hash (chunk_registry st) in
  modify (set_chunk_registry registry);;
  mret (Py.sorted_reverse Chunk.created_at chunks).

(** The loop of [get_untrained_chunks]. *)
Fixpoint untrained_scan (items : dict (entry Chunk.t))
  : dict (entry Chunk.t) * list Chunk.t :=
  match items with
  | [] => ([], [])
  | (chunk_id, e) :: rest =>
      let '(rest', result) := untrained_scan rest in
      if Py.startswith_underscore chunk_id then ((chunk_id, e) :: rest', result)
      else
        match e with
        | Scalar _ => ((chunk_id, e) :: rest', result)
        | Mapping chunk_data =>
            let status := Chunk.status chunk_data in
            if bool_decide (status = ChunkStatus.PENDING)
               || bool_decide (status = ChunkStatus.FAILED)
               || bool_decide (status = ChunkStatus.RESTORED)
            then
              let chunk_data := Chunk.set_chunk_id chunk_id chunk_data in
              ((chunk_id, Mapping chunk_data) :: rest', chunk_data :: result)
            else ((chunk_id, e) :: rest', result)
        end
  end.

Definition get_untrained_chunks : M (list Chunk.t) :=
  st ← get_state;
  let '(registry, result) := untrained_scan (chunk_registry st) in
  modify (set_chunk_registry registry);;
  mret result.

(** The three cases in which [get_restorable_chunks] sets [can_restore]. *)
Definition can_restore (target : option string) (chunk_data : Chunk.t) : bool :=
  let status := Chunk.status chunk_data in
  let chunk_model := Chunk.model_identity_hash chunk_data in
  if bool_decide (status = ChunkStatus.TRAINED)
     && negb (bool_decide (chunk_model = target)) then true
  else if bool_decide (status = ChunkStatus.FAILED) then true
  else if bool_decide (status = ChunkStatus.RESTORED) then true
  else false.

(** The loop of [get_restorable_chunks]: a restorable record gets the keys
    [chunk_id] and [restore_reason] set, in the registry itself. *)
Fixpoint restorable_scan (target : option string)
    (documents_json : gmap string (list document))
    (items : dict (entry Chunk.t)) : dict (entry Chunk.t) * list Chunk.t :=
  match items with
  | [] => ([], [])
  | (chunk_id, e) :: rest =>
      let '(rest', result) := restorable_scan target documents_json rest in
      if Py.startswith_underscore chunk_id then ((chunk_id, e) :: rest', result)
      else
        match e with
        | Scalar _ => ((chunk_id, e) :: rest', result)
        | Mapping chunk_data =>
            let status := Chunk.status chunk_data in
            if can_restore target chunk_data then
              match documents_json !! chunk_id with
              | Some _ =>
                  let chunk_data := Chunk.set_chunk_id chunk_id chunk_data in
                  let chunk_data :=
                    Chunk.set_restore_reason
                      (Some (if bool_decide (status = ChunkStatus.TRAINED)
                             then "model_mismatch" else status)) chunk_data in
                  ((chunk_id, Mapping chunk_data) :: rest', chunk_data :: result)
              | None => ((chunk_id, e) :: rest', result)
              end
            else ((chunk_id, e) :: rest', result)
        end
  end.

Definition get_restorable_chunks (model_identity_hash : option string)
  : M (list Chunk.t) :=
  st ← get_state;
  let target := Py.or_ model_identity_hash (current_model st) in
  let '(registry, result) :=
    restorable_scan target (documents_json (disk st)) (chunk_registry st) in
  modify (set_chunk_registry registry);;
  mret result.

(** *** LoRA management *)

(** [register_lora].  The adapter files copied below the new directory are
    opaque to the manager; of the copy only the directory made by [mkdir] is
    kept, under its path relative to the data directory. *)
Definition register_lora (chunk_ids : list string) (lora_path : string)
    (training_config metrics : option document) : M LoRA.t :=
  modify (fun st => set_lora_counter (_lora_counter st + 1) st);;
  st ← get_state;
  let lora_id := "lora_" +:+ Py.format_04d (_lora_counter st) in
  created ← now;
  let record := LoRA.LoRARecord lora_id created in
  let known_models := Model.known_models (model_registry st) in
  let model_info := current_model st ≫= fun h => Dict.get h known_models in
  let model_lora_dir :=
    "loras/model_" +:+ Py.str_opt (current_model st) +:+ "/" +:+ lora_id in
  modify (fun st =>
    set_disk (set_adapter_dirs ({[model_lora_dir]} ∪ adapter_dirs (disk st)) (disk st)) st);;
  let record :=
    {| LoRA.lora_id := LoRA.lora_id record;
       LoRA.created_at := LoRA.created_at record;
       LoRA.model_identity_hash := current_model st;
       LoRA.model_name :=
         match model_info with
         | Some info => Some (Model.k_friendly_name info)
         | None => LoRA.model_name record
         end;
       LoRA.model_type :=
         match model_info with
         | Some info => Model.model_type (Model.k_identity info)
         | None => LoRA.model_type record
         end;
       LoRA.chunk_ids := chunk_ids;
       LoRA.path := Some model_lora_dir;
       LoRA.status := LoRA.status record;
       LoRA.training_config := default [] training_config;
       LoRA.metrics := default [] metrics;
       LoRA.notes := LoRA.notes record;
       LoRA.unusable_reason := LoRA.unusable_reason record;
       LoRA.marked_unusable_at := LoRA.marked_unusable_at record;
       LoRA.deleted_at := LoRA.deleted_at record |} in
  modify (fun st =>
    set_lora_registry (Dict.set lora_id (Mapping record) (lora_registry st)) st);;
  _save_lora_registry;;
  match current_model st, model_info with
  | Some current, Some info =>
      let lora_ids := Model.lora_ids info in
      let lora_ids :=
        if bool_decide (lora_id ∈ lora_ids) then lora_ids else lora_ids ++ [lora_id] in
      let known_models := Dict.set current (Model.set_lora_ids lora_ids info) known_models in
      modify (fun st =>
        set_model_registry
          {| Model.known_models := known_models;
             Model.current_model := Model.current_model (model_registry st) |} st);;
      _save_model_registry
  | _, _ => mret tt
  end;;
  for_each chunk_ids (fun chunk_id => mark_chunk_trained chunk_id lora_id);;
  _log_operation
    (Log.lora_registered lora_id (current_model st) chunk_ids model_lora_dir);;
  mret record.

(** [get_lora] *)
Definition get_lora (lora_id : string) (st : State) : option LoRA.t :=
  match Dict.get lora_id (lora_registry st) with
  | Some (Mapping data) =>
      if Py.startswith_underscore lora_id then None else Some data
  | _ => None
  end.

(** The loop of [get_all_loras]: every record listed gets its [lora_id] key
    set, in the registry itself. *)
Fixpoint all_loras_scan (include_deleted : bool) (items : dict (entry LoRA.t))
  : dict (entry LoRA.t) * list LoRA.t :=
  match items with
  | [] => ([], [])
  | (lora_id, e) :: rest =>
      let '(rest', loras) := all_loras_scan include_deleted rest in
      if Py.startswith_underscore lora_id then ((lora_id, e) :: rest', loras)
      else
        match e with
        | Scalar _ => ((lora_id, e) :: rest', loras)
        | Mapping data =>
            if negb include_deleted && bool_decide (LoRA.status data = "deleted")
            then ((lora_id, e) :: rest', loras)
            else
              let data := LoRA.set_lora_id lora_id data in
              ((lora_id, Mapping data) :: rest', data :: loras)
        end
  end.

Definition get_all_loras (include_deleted : bool) : M (list LoRA.t) :=
  st ← get_state;
  let '(registry, loras) := all_loras_scan include_deleted (lora_registry st) in
  modify (set_lora_registry registry);;
  mret (Py.sorted_reverse LoRA.created_at loras).

Definition mark_lora_unusable (lora_id reason : string) : M unit :=
  st ← get_state;
  match Dict.get lora_id (lora_registry st) with
  | None => mret tt
  | Some (Scalar _) =>
      raise (TypeError "'int' object does not support item assignment")
  | Some (Mapping data) =>
      let data := LoRA.set_status "unusable" data in
      let data := LoRA.set_unusable_reason (Some reason) data in
      t ← now;
      let data := LoRA.set_marked_unusable_at (Some t) data in
      modify (fun st =>
        set_lora_registry (Dict.set lora_id (Mapping data) (lora_registry st)) st);;
      _save_lora_registry;;
      _log_operation (Log.lora_marked_unusable lora_id reason)
  end.

Definition delete_lora (lora_id : string) (delete_files : bool) : M bool :=
  st ← get_state;
  match Dict.get lora_id (lora_registry st) with
  | None => mret false
  | Some (Scalar _) =>
      if delete_files
      then raise (AttributeError "'int' object has no attribute 'get'")
      else raise (TypeError "'int' object does not support item assignment")
  | Some (Mapping lora_data) =>
      match LoRA.path lora_data with
      | Some lora_path =>
          if delete_files && Py.truthy (Py.Str lora_path)
                          && bool_decide (lora_path ∈ adapter_dirs (disk st))
          then modify (fun st =>
                 set_disk (set_adapter_dirs (adapter_dirs (disk st) ∖ {[lora_path]})
                             (disk st)) st)
          else mret tt
      | None => mret tt
      end;;
      let lora_data := LoRA.set_status "deleted" lora_data in
      t ← now;
      let lora_data := LoRA.set_deleted_at (Some t) lora_data in
      modify (fun st =>
        set_lora_registry (Dict.set lora_id (Mapping lora_data) (lora_registry st)) st);;
      _save_lora_registry;;
      _log_operation (Log.lora_deleted lora_id delete_files);;
      mret true
  end.

Definition select_lora (lora_id : string) (st : State) : option select_result :=
  match get_lora lora_id st with
  | None => None
  | Some lora_data =>
      if bool_decide (LoRA.status lora_data = "deleted") then None
      else
        let lora_model := LoRA.model_identity_hash lora_data in
        if Py.truthy (Py.of_opt lora_model)
           && negb (bool_decide (lora_model = current_model st))
        then Some (Incompatible lora_data
                     ("LoRA trained for different model (trained: "
                      +:+ Py.str_opt (LoRA.model_name lora_data)
                      +:+ ", current: " +:+ Py.str_opt (current_model st) +:+ ")"))
        else Some (Compatible lora_data (LoRA.path lora_data))
  end.

(** *** Model switch handling *)

(** The loop of [handle_model_switch] over [self.lora_registry.items()].
    [items] holds the keys still to visit and [size] the length the
    dictionary had when the loop started: the iterator raises as soon as it
    is advanced on a dictionary of another length.  The records the loop
    collects are the registry's own objects, so [unusable_loras] keeps their
    keys and they are read through the registry when the ids are taken. *)
Fixpoint invalidate_loop (size : nat) (items : list string)
    (previous_model new_model_hash : string) (unusable_loras : list string)
  : M (list string) :=
  st ← get_state;
  if negb (Nat.eqb (length (lora_registry st)) size)
  then raise (RuntimeError "dictionary changed size during iteration")
  else
    match items with
    | [] => mret unusable_loras
    | lora_id :: rest =>
        match Dict.get lora_id (lora_registry st) with
        | Some (Mapping lora_data) =>
            if Py.startswith_underscore lora_id
            then invalidate_loop size rest previous_model new_model_hash unusable_loras
            else if bool_decide (LoRA.model_identity_hash lora_data = Some previous_model)
                    && bool_decide (LoRA.status lora_data = "active")
            then
              mark_lora_unusable lora_id
                ("Model changed from " +:+ previous_model +:+ " to " +:+ new_model_hash);;
              invalidate_loop size rest previous_model new_model_hash
                (unusable_loras ++ [lora_id])
            else invalidate_loop size rest previous_model new_model_hash unusable_loras
        | _ => invalidate_loop size rest previous_model new_model_hash unusable_loras
        end
    end.

(** [[l.get('lora_id', '') for l in unusable_loras]] *)
Definition lora_ids_of (keys : list string) (registry : dict (entry LoRA.t))
  : list string :=
  map (fun k =>
         match Dict.get k registry with
         | Some (Mapping l) => LoRA.lora_id l
         | _ => ""
         end) keys.

Definition handle_model_switch (new_model_path : string) (friendly_name : option string)
  : M switch_result :=
  st ← get_state;
  let previous_model := current_model st in
  reg_result ← register_model new_model_path friendly_name;
  if negb (Py.truthy (rr_model_changed reg_result)) then
    mret (Same "Same model detected, no changes needed" reg_result)
  else
    let new_model_hash := rr_identity_hash reg_result in
    unusable_loras ←
      match previous_model with
      | Some previous =>
          if Py.truthy (Py.Str previous) then
            st ← get_state;
            invalidate_loop (length (lora_registry st)) (Dict.keys (lora_registry st))
              previous new_model_hash []
          else mret []
      | None => mret []
      end;
    restorable_chunks ← get_restorable_chunks (Some new_model_hash);
    st ← get_state;
    let compatible_loras := get_compatible_loras (Some new_model_hash) st in
    let result :=
      {| previous_model := previous_model;
         new_model := new_model_hash;
         model_info := reg_result;
         unusable_loras := lora_ids_of unusable_loras (lora_registry st);
         unusable_lora_count := length unusable_loras;
         restorable_chunks := map Chunk.chunk_id restorable_chunks;
         restorable_chunk_count := length restorable_chunks;
         restorable_document_count :=
           foldr Z.add 0 (map Chunk.document_count restorable_chunks);
         compatible_loras := map LoRA.lora_id compatible_loras;
         compatible_lora_count := length compatible_loras;
         action_needed := bool_decide (0 < length restorable_chunks)%nat |} in
    _log_operation (Log.model_switch result);;
    mret (Switched result).

(** The loop of [restore_chunks_to_rag]; [if documents:] fails for a missing
    file and for an empty list alike. *)
Fixpoint restore_loop (chunk_ids : list string)
    (all_documents : list document) (restored_chunks failed_chunks : list string)
  : M (list document * list string * list string) :=
  match chunk_ids with
  | [] => mret (all_documents, restored_chunks, failed_chunks)
  | chunk_id :: rest =>
      st ← get_state;
      match get_chunk_documents chunk_id st with
      | Some (doc :: more) =>
          mark_chunk_restored chunk_id;;
          restore_loop rest (all_documents ++ doc :: more)
            (restored_chunks ++ [chunk_id]) failed_chunks
      | _ =>
          restore_loop rest all_documents restored_chunks (failed_chunks ++ [chunk_id])
      end
  end.

Definition restore_chunks_to_rag (chunk_ids : option (list string))
  : M restore_result :=
  chunk_ids ←
    match chunk_ids with
    | None =>
        restorable ← get_restorable_chunks None;
        mret (map Chunk.chunk_id restorable)
    | Some l => mret l
    end;
  '(all_documents, restored_chunks, failed_chunks) ← restore_loop chunk_ids [] [] [];
  let result :=
    {| restored_chunks := restored_chunks;
       failed_chunks := failed_chunks;
       total_documents := length all_documents;
       documents := all_documents |} in
  _log_operation
    (Log.chunks_restored restored_chunks failed_chunks (length all_documents));;
  mret result.

(** *** The operations of the core, as a caller issues them *)

Inductive op :=
| RegisterModel (model_path : string) (friendly_name : option string)
| DetectModelChange (model_path : string)
| HandleModelSwitch (new_model_path : string) (friendly_name : option string)
| CreateChunk (documents : list document) (character : option string)
    (metadata : option document)
| MarkChunkTraining (chunk_id : string)
| MarkChunkTrained (chunk_id lora_id : string)
| MarkChunkFailed (chunk_id error : string)
| MarkChunkRestored (chunk_id : string)
| GetChunksByStatus (status model_hash : option string)
| GetUntrainedChunks
| GetRestorableChunks (model_identity_hash : option string)
| RegisterLora (chunk_ids : list string) (lora_path : string)
    (training_config metrics : option document)
| GetAllLoras (include_deleted : bool)
| MarkLoraUnusable (lora_id reason : string)
| DeleteLora (lora_id : string) (delete_files : bool)
| RestoreChunksToRag (chunk_ids : option (list string)).

(** Running an operation, its result dropped. *)
Definition exec (o : op) : M unit :=
  match o with
  | RegisterModel p n => register_model p n;; mret tt
  | DetectModelChange p => detect_model_change p;; mret tt
  | HandleModelSwitch p n => handle_model_switch p n;; mret tt
  | CreateChunk d c m => create_chunk d c m;; mret tt
  | MarkChunkTraining c => mark_chunk_training c
  | MarkChunkTrained c l => mark_chunk_trained c l
  | MarkChunkFailed c e => mark_chunk_failed c e
  | MarkChunkRestored c => mark_chunk_restored c
  | GetChunksByStatus s m => get_chunks_by_status s m;; mret tt
  | GetUntrainedChunks => get_untrained_chunks;; mret tt
  | GetRestorableChunks m => get_restorable_chunks m;; mret tt
  | RegisterLora c p t m => register_lora c p t m;; mret tt
  | GetAllLoras b => get_all_loras b;; mret tt
  | MarkLoraUnusable l r => mark_lora_unusable l r
  | DeleteLora l b => delete_lora l b;; mret tt
  | RestoreChunksToRag c => restore_chunks_to_rag c;; mret tt
  end.

(** The states a manager started on an empty data directory reaches through
    operations that return normally, the operations drawn from [allowed]. *)
Inductive reachable (allowed : op -> bool) : State -> Prop :=
| reachable_init clock0 : reachable allowed (__init__ empty_disk clock0)
| reachable_step o st st' :
    reachable allowed st -> allowed o = true -> exec o st = Ok tt st' ->
    reachable allowed st'.

(** A request that raises is answered with an error and the manager lives
    on: the state after a list of operations, whatever each one did. *)
Fixpoint run (ops : list op) (st : State) : State :=
  match ops with
  | [] => st
  | o :: ops' => run ops' (final (exec o st))
  end.

(** Every operation of the list returns normally. *)
Fixpoint crash_free (ops : list op) (st : State) : bool :=
  match ops with
  | [] => true
  | o :: ops' =>
      match exec o st with
      | Ok _ st' => crash_free ops' st'
      | Raise _ _ => false
      end
  end.

Definition any_op (o : op) : bool := true.

(** Every operation but a bare [register_model]: the model changes through
    [handle_model_switch] only. *)
Definition through_switch (o : op) : bool :=
  match o with
  | RegisterModel _ _ => false
  | _ => true
  end.

(** *** Predicates used in the statements *)

(** The adapter records of the registry: the mappings under the keys that
    the loops do not skip. *)
Definition adapter_record (st : State) (lora_id : string) (r : LoRA.t) : Prop :=
  (lora_id, Mapping r) ∈ lora_registry st /\ Py.startswith_underscore lora_id = false.

(** The chunk records of the registry. *)
Definition chunk_record (st : State) (chunk_id : string) (c : Chunk.t) : Prop :=
  (chunk_id, Mapping c) ∈ chunk_registry st /\ Py.startswith_underscore chunk_id = false.

(** A registry is empty or carries the [_counter] key, as every registry
    that was saved does. *)
Definition persisted {R} (registry : dict (entry R)) : Prop :=
  registry = [] \/ Dict.mem "_counter" registry = true.

(** An adapter that the switch from [previous] invalidates. *)
Definition bound_active (previous : string) (r : LoRA.t) : bool :=
  bool_decide (LoRA.model_identity_hash r = Some previous)
  && bool_decide (LoRA.status r = "active").

(** The records of the adapters bound to [previous] and active, in registry
    order. *)
Fixpoint invalidated (previous : string) (items : dict (entry LoRA.t)) : list LoRA.t :=
  match items with
  | [] => []
  | (lora_id, Mapping r) :: rest =>
      if negb (Py.startswith_underscore lora_id) && bound_active previous r
      then r :: invalidated previous rest
      else invalidated previous rest
  | (_, Scalar _) :: rest => invalidated previous rest
  end.

(** Adapter-model coupling: an adapter that is not deleted is bound to the
    current model or unusable. *)
Definition adapter_model_coupling (st : State) : Prop :=
  forall lora_id r, adapter_record st lora_id r ->
    LoRA.status r <> "deleted" ->
    LoRA.model_identity_hash r = current_model st \/ LoRA.status r = "unusable".

(** The same for the adapters that are bound to a model at all. *)
Definition bound_adapter_coupling (st : State) : Prop :=
  forall lora_id r, adapter_record st lora_id r ->
    LoRA.status r <> "deleted" ->
    LoRA.model_identity_hash r <> None ->
    LoRA.model_identity_hash r = current_model st \/ LoRA.status r = "unusable".

(** The chunk is restorable for [target]: the condition under which
    [get_restorable_chunks] is said to list it. *)
Definition restorable (st : State) (target : option string) (chunk_id : string)
    (c : Chunk.t) : Prop :=
  is_Some (documents_json (disk st) !! chunk_id) /\
  (Chunk.status c = ChunkStatus.FAILED \/
   Chunk.status c = ChunkStatus.RESTORED \/
   (Chunk.status c = ChunkStatus.TRAINED /\ Chunk.model_identity_hash c <> target)).

(** The transitions drawn in the life-cycle diagram of the specification.
    The module itself has no such table. *)
Definition permitted (from to : string) : bool :=
  bool_decide (from = ChunkStatus.PENDING /\ to = ChunkStatus.TRAINING)
  || bool_decide (from = ChunkStatus.TRAINING /\ to = ChunkStatus.TRAINED)
  || bool_decide (from = ChunkStatus.TRAINED /\ to = ChunkStatus.RESTORED)
  || bool_decide (from = ChunkStatus.TRAINING /\ to = ChunkStatus.FAILED)
  || bool_decide (from = ChunkStatus.RESTORED /\ to = ChunkStatus.FAILED)
  || bool_decide (from = ChunkStatus.PENDING /\ to = ChunkStatus.ARCHIVED).

(** The four status-marking entry points. *)
Inductive mark :=
| Training
| Trained (lora_id : string)
| Failed (error : string)
| Restored.

Definition mark_chunk (m : mark) (chunk_id : string) : M unit :=
  match m with
  | Training => mark_chunk_training chunk_id
  | Trained lora_id => mark_chunk_trained chunk_id lora_id
  | Failed error => mark_chunk_failed chunk_id error
  | Restored => mark_chunk_restored chunk_id
  end.

Definition mark_status (m : mark) : string :=
  match m with
  | Training => ChunkStatus.TRAINING
  | Trained _ => ChunkStatus.TRAINED
  | Failed _ => ChunkStatus.FAILED
  | Restored => ChunkStatus.RESTORED
  end.

Definition mark_details (m : mark) : string :=
  match m with
  | Training => "Training started"
  | Trained lora_id => "Trained into LoRA " +:+ lora_id
  | Failed error => "Training failed: " +:+ error
  | Restored => "Data restored to RAG"
  end.

(** *** Reasoning about computations *)

(** [wp m Q E st]: from [st], the computation [m] either returns a value and
    a state that satisfy [Q], or raises an exception in a state that
    satisfies [E]. *)
Definition wp {A} (m : M A) (Q : A -> State -> Prop) (E : exn -> State -> Prop)
    (st : State) : Prop :=
  match m st with
  | Ok a st' => Q a st'
  | Raise e st' => E e st'
  end.

(** No exception is raised. *)
Definition never : exn -> State -> Prop := fun _ _ => False.

(** What a status change leaves alone: everything but the chunk registry,
    its file, the manifests, the operation log and the clock. *)
Record chunk_frame (st st' : State) : Prop := {
  cf_lora_registry : lora_registry st' = lora_registry st;
  cf_model_registry : model_registry st' = model_registry st;
  cf_current_model : current_model st' = current_model st;
  cf_chunk_counter : _chunk_counter st' = _chunk_counter st;
  cf_lora_counter : _lora_counter st' = _lora_counter st;
  cf_lora_registry_json : lora_registry_json (disk st') = lora_registry_json (disk st);
  cf_model_registry_json : model_registry_json (disk st') = model_registry_json (disk st);
  cf_documents_json : documents_json (disk st') = documents_json (disk st);
  cf_adapter_dirs : adapter_dirs (disk st') = adapter_dirs (disk st)
}.

(** The record of a chunk after a status change at clock reading [t]. *)
Definition status_changed (status details t : string) (chunk_data : Chunk.t) : Chunk.t :=
  Chunk.set_history
    (Chunk.history chunk_data ++
     [{| Chunk.timestamp := t; Chunk.action := status; Chunk.details := details |}])
    (Chunk.set_status status chunk_data).

(** What [mark_chunk_trained] writes before the status changes. *)
Definition bind_adapter (m : mark) (chunk_data : Chunk.t) : Chunk.t :=
  match m with
  | Trained lora_id => Chunk.set_lora_id (Some lora_id) chunk_data
  | _ => chunk_data
  end.

(** Two chunk records that differ at most in [status], [history] and
    [lora_id]. *)
Record same_payload (c c' : Chunk.t) : Prop := {
  sp_chunk_id : Chunk.chunk_id c' = Chunk.chunk_id c;
  sp_created_at : Chunk.created_at c' = Chunk.created_at c;
  sp_model_identity_hash : Chunk.model_identity_hash c' = Chunk.model_identity_hash c;
  sp_document_ids : Chunk.document_ids c' = Chunk.document_ids c;
  sp_document_count : Chunk.document_count c' = Chunk.document_count c;
  sp_character : Chunk.character c' = Chunk.character c;
  sp_metadata : Chunk.metadata c' = Chunk.metadata c;
  sp_restore_reason : Chunk.restore_reason c' = Chunk.restore_reason c
}.



(** What a model registration leaves alone: everything but the model
    registry, its file, the current model, the operation log and the clock. *)
Record model_frame (st st' : State) : Prop := {
  mf_chunk_registry : chunk_registry st' = chunk_registry st;
  mf_lora_registry : lora_registry st' = lora_registry st;
  mf_chunk_counter : _chunk_counter st' = _chunk_counter st;
  mf_lora_counter : _lora_counter st' = _lora_counter st;
  mf_chunk_registry_json : chunk_registry_json (disk st') = chunk_registry_json (disk st);
  mf_lora_registry_json : lora_registry_json (disk st') = lora_registry_json (disk st);
  mf_manifest_json : manifest_json (disk st') = manifest_json (disk st);
  mf_documents_json : documents_json (disk st') = documents_json (disk st);
  mf_adapter_dirs : adapter_dirs (disk st') = adapter_dirs (disk st)
}.

(** What marking or deleting an adapter leaves alone: everything but the
    adapter registry, its file, the adapter directories, the operation log
    and the clock. *)
Record lora_frame (st st' : State) : Prop := {
  lf_chunk_registry : chunk_registry st' = chunk_registry st;
  lf_model_registry : model_registry st' = model_registry st;
  lf_current_model : current_model st' = current_model st;
  lf_chunk_counter : _chunk_counter st' = _chunk_counter st;
  lf_lora_counter : _lora_counter st' = _lora_counter st;
  lf_chunk_registry_json : chunk_registry_json (disk st') = chunk_registry_json (disk st);
  lf_model_registry_json : model_registry_json (disk st') = model_registry_json (disk st);
  lf_manifest_json : manifest_json (disk st') = manifest_json (disk st);
  lf_documents_json : documents_json (disk st') = documents_json (disk st)
}.

(** The identity hash that [register_model] computes for a path in a state. *)
Definition hash_of (model_path : string) (st : State) : string :=
  Model.identity_hash (identify_model model_path (isoformat_at (clock st))).

(** The value of [previous_model and previous_model != identity_hash]. *)
Definition model_changed_value (previous_model : option string) (identity_hash : string)
  : Py.value :=
  Py.and_ (Py.of_opt previous_model)
          (Py.Bool (negb (bool_decide (previous_model = Some identity_hash)))).

(** The record of an adapter after [mark_lora_unusable] at clock reading [t]. *)
Definition marked_unusable (reason t : string) (data : LoRA.t) : LoRA.t :=
  LoRA.set_marked_unusable_at (Some t)
    (LoRA.set_unusable_reason (Some reason) (LoRA.set_status "unusable" data)).

(** The reason that [handle_model_switch] gives. *)
Definition switch_reason (previous_model new_model_hash : string) : string :=
  "Model changed from " +:+ previous_model +:+ " to " +:+ new_model_hash.

(** The test of the loop of [handle_model_switch] on the entry under a key. *)
Definition to_invalidate (previous : string) (registry : dict (entry LoRA.t))
    (lora_id : string) : bool :=
  match Dict.get lora_id registry with
  | Some (Mapping r) => negb (Py.startswith_underscore lora_id) && bound_active previous r
  | _ => false
  end.

(** [keeps view m]: whatever [m] does, returning or raising, it leaves the
    part of the state that [view] selects as it was. *)
Definition keeps {V A} (view : State -> V) (m : M A) : Prop :=
  forall st, view (final (m st)) = view st.

(** The preserved documents and the chunk counter. *)
Definition documents_view (st : State) : gmap string (list document) * Z :=
  (documents_json (disk st), _chunk_counter st).

(** The adapter registry and the current model. *)
Definition adapters_view (st : State) : dict (entry LoRA.t) * option string :=
  (lora_registry st, current_model st).

(** Reading back a string of decimal digits, leading zeros allowed. *)
Definition read_digits (s : string) : option N :=
  N.of_uint <$> NilEmpty.uint_of_string s.

(** What holds of the adapter registry in every state that the manager
    reaches when the model changes through [handle_model_switch]: keys are
    unique, the registry was saved, the current model is not the empty
    string, a record has one of the three statuses, and an active record is
    bound to the current model or to no model. *)
Record adapters_inv (st : State) : Prop := {
  ai_wf : Dict.wf (lora_registry st);
  ai_persisted : persisted (lora_registry st);
  ai_current : current_model st <> Some "";
  ai_status : forall k r,
    Dict.get k (lora_registry st) = Some (Mapping r) ->
    Py.startswith_underscore k = false ->
    LoRA.status r = "active" \/ LoRA.status r = "unusable" \/ LoRA.status r = "deleted";
  ai_bound : forall k r,
    Dict.get k (lora_registry st) = Some (Mapping r) ->
    Py.startswith_underscore k = false ->
    LoRA.status r = "active" ->
    LoRA.model_identity_hash r = current_model st \/ LoRA.model_identity_hash r = None
}.

(** A registry is empty or holds its counter under [_counter]: the state in
    which [__init__] and every save leave it. *)
Definition saved {R} (registry : dict (entry R)) (counter : Z) : Prop :=
  registry = [] \/ Dict.get "_counter" registry = Some (Scalar counter).

(** What holds of the two registries between any two operations. *)
Record registries_inv (st : State) : Prop := {
  ri_chunk_wf : Dict.wf (chunk_registry st);
  ri_chunk_saved : saved (chunk_registry st) (_chunk_counter st);
  ri_lora_wf : Dict.wf (lora_registry st);
  ri_lora_saved : saved (lora_registry st) (_lora_counter st)
}.

(** The registries and their counters. *)
Definition registries_view (st : State)
  : dict (entry Chunk.t) * Z * dict (entry LoRA.t) * Z :=
  (chunk_registry st, _chunk_counter st, lora_registry st, _lora_counter st).

(** [stable m]: [m] takes a state with well-formed registries to such a
    state, whether it returns or raises. *)
Definition stable {A} (m : M A) : Prop :=
  forall st, registries_inv st -> registries_inv (final (m st)).

(** A listing writes the listed key into the records it returns and leaves
    the keys of the registry, and its entries under a [_] key, as they are. *)
Definition listing {R} (scan : dict (entry R) -> dict (entry R) * list R) : Prop :=
  forall items,
    Dict.keys (scan items).1 = Dict.keys items /\
    forall k, Py.startswith_underscore k = true ->
      Dict.get k (scan items).1 = Dict.get k items.

(** *** Operation history *)

(** [get_operation_history]: the lines of [operations.jsonl] that parse,
    [entries[-limit:]] of them; no file reads as no line. *)
Definition get_operation_history (limit : Z) (st : State) : list Log.entry :=
  Py.slice_from (- limit) (operations_jsonl (disk st)).

(** *** How the state evolves *)

(** [evolves R m]: whatever [m] does, returning or raising, the state it
    leaves is related by [R] to the state it started in. *)
Definition evolves {A} (R : relation State) (m : M A) : Prop :=
  forall st, R st (final (m st)).

(** The methods that the others are made of. *)
Record primitives (R : relation State) : Prop := {
  prim_log_operation : forall details, evolves R (_log_operation details);
  prim_register_model : forall model_path friendly_name,
    evolves R (register_model model_path friendly_name);
  prim_detect_model_change : forall model_path, evolves R (detect_model_change model_path);
  prim_create_chunk : forall documents character metadata,
    evolves R (create_chunk documents character metadata);
  prim_mark_chunk : forall m chunk_id, evolves R (mark_chunk m chunk_id);
  prim_get_chunks_by_status : forall status model_hash,
    evolves R (get_chunks_by_status status model_hash);
  prim_get_untrained_chunks : evolves R get_untrained_chunks;
  prim_get_restorable_chunks : forall model_identity_hash,
    evolves R (get_restorable_chunks model_identity_hash);
  prim_register_lora : forall chunk_ids lora_path training_config metrics,
    evolves R (register_lora chunk_ids lora_path training_config metrics);
  prim_get_all_loras : forall include_deleted, evolves R (get_all_loras include_deleted);
  prim_mark_lora_unusable : forall lora_id reason,
    evolves R (mark_lora_unusable lora_id reason);
  prim_delete_lora : forall lora_id delete_files,
    evolves R (delete_lora lora_id delete_files)
}.

(** The operation log only grows. *)
Definition log_extends (st st' : State) : Prop :=
  operations_jsonl (disk st) `prefix_of` operations_jsonl (disk st').

(** [preserved I]: the relation of a state in which [I] holds, if it does,
    to a state in which it holds too. *)
Definition preserved (I : State -> Prop) : relation State :=
  fun st st' => I st -> I st'.

(** *** Ids *)

(** [f"chunk_{n:04d}"] and [f"lora_{n:04d}"] *)
Definition chunk_id_of (n : Z) : string := "chunk_" +:+ Py.format_04d n.
Definition lora_id_of (n : Z) : string := "lora_" +:+ Py.format_04d n.

(** A registry whose keys are [_counter], holding the counter, and ids
    numbered from 1 to the counter, each holding a record that carries the
    id it is stored under. *)
Definition numbered {R} (id_of : Z -> string) (id : R -> string)
    (registry : dict (entry R)) (counter : Z) : Prop :=
  0 <= counter /\
  forall k e, Dict.get k registry = Some e ->
    (k = "_counter" /\ e = Scalar counter) \/
    exists n r, 1 <= n <= counter /\ k = id_of n /\ e = Mapping r /\ id r = k.

Record ids_inv (st : State) : Prop := {
  ii_chunks : numbered chunk_id_of Chunk.chunk_id (chunk_registry st) (_chunk_counter st);
  ii_loras : numbered lora_id_of LoRA.lora_id (lora_registry st) (_lora_counter st)
}.

(** What a listing does to a registry: the keys stay, and an entry is left
    as it is or its record is updated by [upd]. *)
Definition relabelled {R} (upd : string -> R -> R -> Prop)
    (items items' : dict (entry R)) : Prop :=
  Forall2 (fun x y =>
             y.1 = x.1 /\
             (y.2 = x.2 \/
              exists r r', x.2 = Mapping r /\ y.2 = Mapping r' /\ upd x.1 r r'))
          items items'.

(** The state reached by the head of [register_lora], before the chunks are
    marked: [record] is stored under the next id, the adapter registry is
    saved, and the id is listed under the current model if the model
    registry knows it. *)
Record lora_registered (st st1 : State) (record : LoRA.t) : Prop := {
  lr_lora_id : LoRA.lora_id record = lora_id_of (_lora_counter st + 1);
  lr_created_at : LoRA.created_at record = isoformat_at (clock st);
  lr_status : LoRA.status record = "active";
  lr_model_identity_hash : LoRA.model_identity_hash record = current_model st;
  lr_path :
    LoRA.path record =
      Some ("loras/model_" +:+ Py.str_opt (current_model st) +:+ "/"
            +:+ lora_id_of (_lora_counter st + 1));
  lr_lora_counter : _lora_counter st1 = _lora_counter st + 1;
  lr_lora_registry :
    lora_registry st1 =
      Dict.set "_counter" (Scalar (_lora_counter st + 1))
        (Dict.set (lora_id_of (_lora_counter st + 1)) (Mapping record) (lora_registry st));
  lr_lora_registry_json : lora_registry_json (disk st1) = Parsed (lora_registry st1);
  lr_model_registry :
    model_registry st1 = model_registry st /\
    model_registry_json (disk st1) = model_registry_json (disk st) /\
    (forall current, current_model st = Some current ->
       Dict.get current (Model.known_models (model_registry st)) = None) \/
    model_registry_json (disk st1) = Parsed (model_registry st1) /\
    Model.current_model (model_registry st1) = Model.current_model (model_registry st) /\
    exists current info,
      current_model st = Some current /\
      Dict.get current (Model.known_models (model_registry st)) = Some info /\
      Model.known_models (model_registry st1) =
        Dict.set current
          (Model.set_lora_ids
             (if bool_decide (lora_id_of (_lora_counter st + 1) ∈ Model.lora_ids info)
              then Model.lora_ids info
              else Model.lora_ids info ++ [lora_id_of (_lora_counter st + 1)]) info)
          (Model.known_models (model_registry st));
  lr_chunk_registry : chunk_registry st1 = chunk_registry st;
  lr_chunk_counter : _chunk_counter st1 = _chunk_counter st;
  lr_current_model : current_model st1 = current_model st;
  lr_chunk_registry_json : chunk_registry_json (disk st1) = chunk_registry_json (disk st);
  lr_manifest_json : manifest_json (disk st1) = manifest_json (disk st);
  lr_documents_json : documents_json (disk st1) = documents_json (disk st);
  lr_operations_jsonl : operations_jsonl (disk st1) = operations_jsonl (disk st);
  lr_clock : clock st1 = S (clock st)
}.

(** *** What the data directory holds *)

(** A registry entry without the [restore_reason] that
    [get_restorable_chunks] leaves in the records it lists, in memory. *)
Definition unannotated (e : entry Chunk.t) : entry Chunk.t :=
  match e with
  | Mapping c => Mapping (Chunk.set_restore_reason None c)
  | Scalar n => Scalar n
  end.

Definition unannotated_registry (registry : dict (entry Chunk.t)) : dict (entry Chunk.t) :=
  prod_map id unannotated <$> registry.

(** The registries of a manager started on an empty data directory are
    well formed: no key twice, the counter under [_counter], the records
    under numbered ids. *)
Definition well_formed (st : State) : Prop := registries_inv st /\ ids_inv st.

(** The data directory holds what the manager holds: the adapter and the
    model registry as they are in memory, the chunk registry up to
    [restore_reason], and for every chunk of the registry its manifest, up
    to [restore_reason] again, and its documents. *)
Record synced (st : State) : Prop := {
  sy_lora_registry : _load_registry [] (lora_registry_json (disk st)) = lora_registry st;
  sy_lora_counter : counter_of (lora_registry st) = _lora_counter st;
  sy_model_registry :
    _load_registry Model.empty (model_registry_json (disk st)) = model_registry st;
  sy_current_model : Model.current_model (model_registry st) = current_model st;
  sy_chunk_registry :
    unannotated_registry (_load_registry [] (chunk_registry_json (disk st))) =
    unannotated_registry (chunk_registry st);
  sy_chunk_counter : counter_of (chunk_registry st) = _chunk_counter st;
  sy_manifest : forall k c,
    Dict.get k (chunk_registry st) = Some (Mapping c) ->
    exists c', manifest_json (disk st) !! k = Some (Mapping c') /\
      Chunk.set_restore_reason None c' = Chunk.set_restore_reason None c;
  sy_documents : forall k c,
    Dict.get k (chunk_registry st) = Some (Mapping c) ->
    is_Some (documents_json (disk st) !! k)
}.

(** The part of the state that [synced] is about. *)
Definition synced_view (st : State) :=
  (registries_view st, model_registry st, current_model st,
   chunk_registry_json (disk st), lora_registry_json (disk st),
   model_registry_json (disk st), manifest_json (disk st), documents_json (disk st)).

(** The adapter and model side of the state. *)
Definition adapter_side (st : State) :=
  (lora_registry st, _lora_counter st, model_registry st, current_model st,
   lora_registry_json (disk st), model_registry_json (disk st)).

(** The chunk side of the state. *)
Definition chunk_side (st : State) :=
  (chunk_registry st, _chunk_counter st, chunk_registry_json (disk st),
   manifest_json (disk st), documents_json (disk st)).

(** *** What becomes of a record *)

(** [guarded I P]: from a state in which [I] holds, [I] holds afterwards
    and the two states are related by [P]. *)
Definition guarded (I : State -> Prop) (P : relation State) : relation State :=
  fun st st' => I st -> I st' /\ P st st'.

(** An adapter record later on: everything but the status and the three
    keys that go with it is as it was, and the status is as it was or has
    become [unusable] or [deleted]. *)
Record adapter_kept (r r' : LoRA.t) : Prop := {
  ak_lora_id : LoRA.lora_id r' = LoRA.lora_id r;
  ak_created_at : LoRA.created_at r' = LoRA.created_at r;
  ak_model_identity_hash : LoRA.model_identity_hash r' = LoRA.model_identity_hash r;
  ak_model_name : LoRA.model_name r' = LoRA.model_name r;
  ak_model_type : LoRA.model_type r' = LoRA.model_type r;
  ak_chunk_ids : LoRA.chunk_ids r' = LoRA.chunk_ids r;
  ak_path : LoRA.path r' = LoRA.path r;
  ak_training_config : LoRA.training_config r' = LoRA.training_config r;
  ak_metrics : LoRA.metrics r' = LoRA.metrics r;
  ak_notes : LoRA.notes r' = LoRA.notes r;
  ak_status :
    LoRA.status r' = LoRA.status r \/ LoRA.status r' = "unusable" \/
    LoRA.status r' = "deleted"
}.

Definition adapters_kept : relation State := fun st st' =>
  forall k r, Dict.get k (lora_registry st) = Some (Mapping r) ->
    exists r', Dict.get k (lora_registry st') = Some (Mapping r') /\ adapter_kept r r'.

(** A chunk record later on: what [create_chunk] wrote is as it was and
    the history has only grown. *)
Record chunk_kept (c c' : Chunk.t) : Prop := {
  ck_chunk_id : Chunk.chunk_id c' = Chunk.chunk_id c;
  ck_created_at : Chunk.created_at c' = Chunk.created_at c;
  ck_model_identity_hash : Chunk.model_identity_hash c' = Chunk.model_identity_hash c;
  ck_document_ids : Chunk.document_ids c' = Chunk.document_ids c;
  ck_document_count : Chunk.document_count c' = Chunk.document_count c;
  ck_character : Chunk.character c' = Chunk.character c;
  ck_metadata : Chunk.metadata c' = Chunk.metadata c;
  ck_history : Chunk.history c `prefix_of` Chunk.history c'
}.

Definition chunks_kept : relation State := fun st st' =>
  forall k c, Dict.get k (chunk_registry st) = Some (Mapping c) ->
    exists c', Dict.get k (chunk_registry st') = Some (Mapping c') /\ chunk_kept c c'.

(** A known model later on. *)
Record model_kept (i i' : Model.known) : Prop := {
  mk_identity : Model.k_identity i' = Model.k_identity i;
  mk_first_seen : Model.first_seen i' = Model.first_seen i;
  mk_friendly_name : Model.k_friendly_name i' = Model.k_friendly_name i;
  mk_times_used : Model.times_used i <= Model.times_used i';
  mk_lora_ids : Model.lora_ids i `prefix_of` Model.lora_ids i';
  mk_compatible_lora_ids : Model.compatible_lora_ids i' = Model.compatible_lora_ids i
}.

Definition models_kept : relation State := fun st st' =>
  forall h i, Dict.get h (Model.known_models (model_registry st)) = Some i ->
    exists i', Dict.get h (Model.known_models (model_registry st')) = Some i' /\
      model_kept i i'.

(** *** Listings *)

(** A list in the order of [sorted(..., reverse=True)]: no element has a
    key smaller than the key of an element after it. *)
Definition latest_first {A} (key : A -> string) (l : list A) : Prop :=
  StronglySorted (fun a b => String.ltb (key a) (key b) = false) l.

(** The filter of [get_chunks_by_status]: an argument that is [None] or
    the empty string filters nothing. *)
Definition status_selected (status model_hash : option string) (c : Chunk.t) : Prop :=
  (Py.truthy (Py.of_opt status) = true -> Some (Chunk.status c) = status) /\
  (Py.truthy (Py.of_opt model_hash) = true -> Chunk.model_identity_hash c = model_hash).

(** The statuses that [get_untrained_chunks] lists. *)
Definition untrained (c : Chunk.t) : Prop :=
  Chunk.status c = ChunkStatus.PENDING \/ Chunk.status c = ChunkStatus.FAILED \/
  Chunk.status c = ChunkStatus.RESTORED.

(** *** Models and their adapters *)

(** The adapter stored under [lora_id] is bound to the model [h]. *)
Definition bound_to (st : State) (lora_id h : string) : Prop :=
  exists r, Dict.get lora_id (lora_registry st) = Some (Mapping r) /\
    LoRA.model_identity_hash r = Some h.

(** How the model registry, the current model and the adapter registry of
    a manager started on an empty data directory hang together: the current
    model is a known one, under a hash that is not empty, and the adapters
    listed under a known model are the adapters bound to it. *)
Record models_inv (st : State) : Prop := {
  mi_current : current_model st <> Some "";
  mi_registry_current : Model.current_model (model_registry st) = current_model st;
  mi_known : forall h, current_model st = Some h ->
    Dict.mem h (Model.known_models (model_registry st)) = true;
  mi_wf : Dict.wf (Model.known_models (model_registry st));
  mi_listed : forall h info lora_id,
    Dict.get h (Model.known_models (model_registry st)) = Some info ->
    (lora_id ∈ Model.lora_ids info <-> bound_to st lora_id h);
  mi_nodup : forall h info,
    Dict.get h (Model.known_models (model_registry st)) = Some info ->
    NoDup (Model.lora_ids info);
  mi_bound : forall lora_id h, bound_to st lora_id h ->
    Dict.mem h (Model.known_models (model_registry st)) = true
}.

Definition models_view (st : State) :=
  (model_registry st, current_model st, lora_registry st).

(** *** Known models *)

(** An entry of the list returned by [get_known_models]. *)
Record known_model := {
  km_identity_hash : string;
  km_name : string;
  km_model_type : option string;
  km_first_seen : string;
  km_last_seen : string;
  km_times_used : Z;
  km_lora_count : nat;
  km_is_current : bool
}.

(** [get_known_models]; the defaults of the [get] calls are not needed, an
    entry of [known_models] having every key that [register_model] writes. *)
Definition get_known_models (st : State) : list known_model :=
  let known := Model.known_models (model_registry st) in
  let models :=
    map (fun '(hash_id, info) =>
           {| km_identity_hash := hash_id;
              km_name := Model.k_friendly_name info;
              km_model_type := Model.model_type (Model.k_identity info);
              km_first_seen := Model.first_seen info;
              km_last_seen := Model.last_seen info;
              km_times_used := Model.times_used info;
              km_lora_count := length (Model.lora_ids info);
              km_is_current := bool_decide (Some hash_id = current_model st) |})
        known in
  Py.sorted_reverse km_last_seen models.

(** *** Overview *)

(** [_get_model_name]: the friendly name of a known model, the first eight
    characters of a hash that the registry does not know. *)
Definition _get_model_name (model_hash : option string) (st : State) : string :=
  if negb (Py.truthy (Py.of_opt model_hash)) then "None"
  else
    match model_hash with
    | Some h =>
        match Dict.get h (Model.known_models (model_registry st)) with
        | Some info => Model.k_friendly_name info
        | None => String.substring 0 8 h
        end
    | None => "None"
    end.

(** The counting loops of [get_overview]: the records of a registry are
    counted, all together and by status. *)
Fixpoint overview_scan {R} (status : R -> string) (items : dict (entry R))
    (by_status : dict Z) (total : Z) : dict Z * Z :=
  match items with
  | [] => (by_status, total)
  | (id, e) :: rest =>
      if Py.startswith_underscore id then overview_scan status rest by_status total
      else
        match e with
        | Scalar _ => overview_scan status rest by_status total
        | Mapping data =>
            let total := total + 1 in
            let s := status data in
            let by_status := Dict.set s (default 0 (Dict.get s by_status) + 1) by_status in
            overview_scan status rest by_status total
        end
  end.

(** The dictionary returned by [get_overview]. *)
Record overview := {
  ov_current_model : option string;
  ov_current_model_name : string;
  ov_known_models : nat;
  ov_total_chunks : Z;
  ov_chunks_by_status : dict Z;
  ov_total_loras : Z;
  ov_loras_by_status : dict Z;
  ov_compatible_loras : nat;
  ov_restorable_chunks : nat;
  ov_untrained_chunks : nat
}.

Definition get_overview : M overview :=
  st ← get_state;
  let '(chunks_by_status, total_chunks) :=
    overview_scan Chunk.status (chunk_registry st) [] 0 in
  let '(loras_by_status, total_loras) :=
    overview_scan LoRA.status (lora_registry st) [] 0 in
  let current_model_name := _get_model_name (current_model st) st in
  let compatible_loras := get_compatible_loras None st in
  restorable_chunks ← get_restorable_chunks None;
  untrained_chunks ← get_untrained_chunks;
  mret {| ov_current_model := current_model st;
          ov_current_model_name := current_model_name;
          ov_known_models := length (Model.known_models (model_registry st));
          ov_total_chunks := total_chunks;
          ov_chunks_by_status := chunks_by_status;
          ov_total_loras := total_loras;
          ov_loras_by_status := loras_by_status;
          ov_compatible_loras := length compatible_loras;
          ov_restorable_chunks := length restorable_chunks;
          ov_untrained_chunks := length untrained_chunks |}.

(** The records of a registry, in its order. *)
Fixpoint records {R} (items : dict (entry R)) : list R :=
  match items with
  | [] => []
  | (id, e) :: rest =>
      if Py.startswith_underscore id then records rest
      else
        match e with
        | Mapping r => r :: records rest
        | Scalar _ => records rest
        end
  end.

(** The sum of the values of a dictionary of counts. *)
Definition sum_values (d : dict Z) : Z := foldr Z.add 0 d.*2.

(** [d.get(k, 0)] *)
Definition get_count (k : string) (d : dict Z) : Z := default 0 (Dict.get k d).

(** The statuses that [get_untrained_chunks] lists. *)
Definition untrained_status (s : string) : Prop :=
  s = ChunkStatus.PENDING \/ s = ChunkStatus.FAILED \/ s = ChunkStatus.RESTORED.

(** ** The routes of [chunk_routes.py]

    The routes whose arguments are path parameters or a field of the
    request body, over a manager that [init_chunk_routes] has set. *)

(** The [content] of a [JSONResponse], one shape per dictionary that the
    routes below build. *)
Inductive content :=
| error_content (error : string)
| chunk_content (chunk : entry Chunk.t)
| documents_content (chunk_id : string) (documents : list document) (count : nat)
| deleted_content (message : string) (files_deleted : bool)
| message_content (message : string)
| select_content (result : select_result).

Record JSONResponse := {
  status_code : Z;
  response_content : content
}.

(** [str(e)] *)
Definition str_exn (e : exn) : string :=
  match e with
  | TypeError msg => msg
  | AttributeError msg => msg
  | RuntimeError msg => msg
  end.

(** [try: ... except Exception as e: return JSONResponse(status_code=500, ...)] *)
Definition or_500 (m : M JSONResponse) : M JSONResponse :=
  fun st =>
    match m st with
    | Ok response st' => Ok response st'
    | Raise e st' =>
        Ok {| status_code := 500; response_content := error_content (str_exn e) |} st'
    end.

(** [GET /chunks/{chunk_id}]; [not chunk] holds of [None] and of the integer 0. *)
Definition route_get_chunk (chunk_id : string) : M JSONResponse :=
  or_500 (
    st ← get_state;
    match get_chunk chunk_id st with
    | None | Some (Scalar 0) =>
        mret {| status_code := 404; response_content := error_content "Chunk not found" |}
    | Some chunk =>
        mret {| status_code := 200; response_content := chunk_content chunk |}
    end).

(** [GET /chunks/{chunk_id}/documents] *)
Definition route_get_chunk_documents (chunk_id : string) : M JSONResponse :=
  or_500 (
    st ← get_state;
    match get_chunk_documents chunk_id st with
    | None =>
        mret {| status_code := 404;
                response_content := error_content "Documents not found" |}
    | Some documents =>
        mret {| status_code := 200;
                response_content :=
                  documents_content chunk_id documents (length documents) |}
    end).

(** [POST /chunks/lora/select] with the [lora_id] of the body, the empty
    string when the body has none. *)
Definition route_select_lora (lora_id : string) : M JSONResponse :=
  if negb (Py.truthy (Py.Str lora_id)) then
    mret {| status_code := 400; response_content := error_content "lora_id required" |}
  else
    or_500 (
      st ← get_state;
      match select_lora lora_id st with
      | None =>
          mret {| status_code := 404; response_content := error_content "LoRA not found" |}
      | Some result =>
          mret {| status_code := 200; response_content := select_content result |}
      end).

(** [POST /chunks/lora/{lora_id}/delete] with the [delete_files] of the
    body, [False] when there is no body or no such field. *)
Definition route_delete_lora (lora_id : string) (delete_files : bool) : M JSONResponse :=
  or_500 (
    success ← delete_lora lora_id delete_files;
    if (success : bool) then
      mret {| status_code := 200;
              response_content :=
                deleted_content ("LoRA " +:+ lora_id +:+ " deleted") delete_files |}
    else
      mret {| status_code := 404; response_content := error_content "LoRA not found" |}).

(** [POST /chunks/lora/{lora_id}/unusable] with the [reason] of the body. *)
Definition route_mark_unusable (lora_id : string) (reason : option string)
  : M JSONResponse :=
  let reason := default "Marked by user" reason in
  or_500 (
    mark_lora_unusable lora_id reason;;
    mret {| status_code := 200;
            response_content :=
              message_content ("LoRA " +:+ lora_id +:+ " marked as unusable") |}).

(** * Properties *)

(** ** Dictionaries *)

Lemma dict_get_set_eq {V} k (v : V) d : Dict.get k (Dict.set k v d) = Some v.
Proof.
  induction d as [|[k' v'] d IH]; simpl.
  - by rewrite decide_True.
  - destruct (decide (k = k')); simpl.
    + by rewrite decide_True.
    + by rewrite decide_False.
Qed.

Lemma dict_get_set_ne {V} k k' (v : V) d :
  k <> k' -> Dict.get k' (Dict.set k v d) = Dict.get k' d.
Proof.
  intros Hne. induction d as [|[k0 v0] d IH]; simpl.
  - by rewrite decide_False.
  - destruct (decide (k = k0)) as [->|]; simpl.
    + by rewrite !decide_False.
    + by rewrite IH.
Qed.

Lemma dict_mem_get {V} k (d : dict V) : Dict.mem k d = true <-> is_Some (Dict.get k d).
Proof.
  unfold Dict.mem. destruct (Dict.get k d); split; intros H; done.
Qed.

Lemma dict_get_None_keys {V} k (d : dict V) : Dict.get k d = None <-> k ∉ Dict.keys d.
Proof.
  unfold Dict.keys. induction d as [|[k' v'] d IH]; simpl.
  - split; [intros _; apply not_elem_of_nil | done].
  - rewrite not_elem_of_cons. destruct (decide (k = k')); split; try done.
    + intros [? _]. done.
    + intros H. split; [done | by apply IH].
    + intros [_ H]. by apply IH.
Qed.

Lemma dict_keys_set_present {V} k (v : V) d :
  is_Some (Dict.get k d) -> Dict.keys (Dict.set k v d) = Dict.keys d.
Proof.
  unfold Dict.keys. induction d as [|[k' v'] d IH]; simpl.
  - by intros [? ?].
  - destruct (decide (k = k')) as [->|]; simpl; [done|].
    intros H. f_equal. by apply IH.
Qed.

Lemma dict_keys_set_absent {V} k (v : V) d :
  Dict.get k d = None -> Dict.keys (Dict.set k v d) = Dict.keys d ++ [k].
Proof.
  unfold Dict.keys. induction d as [|[k' v'] d IH]; simpl; [done|].
  destruct (decide (k = k')); [done|]. simpl. intros H. f_equal. by apply IH.
Qed.

Lemma dict_length_set_present {V} k (v : V) d :
  is_Some (Dict.get k d) -> length (Dict.set k v d) = length d.
Proof.
  intros H. apply (dict_keys_set_present k v) in H.
  unfold Dict.keys in H. by rewrite <- (length_fmap fst), H, length_fmap.
Qed.

Lemma dict_wf_set {V} k (v : V) d : Dict.wf d -> Dict.wf (Dict.set k v d).
Proof.
  unfold Dict.wf. intros Hwf.
  destruct (Dict.get k d) eqn:Hget.
  - rewrite dict_keys_set_present; [done | by eexists].
  - rewrite dict_keys_set_absent by done.
    apply NoDup_app. split_and!; [done | | apply NoDup_singleton].
    intros x Hx ->%list_elem_of_singleton. by apply dict_get_None_keys in Hget.
Qed.

Lemma dict_get_elem_of {V} k (v : V) d : Dict.get k d = Some v -> (k, v) ∈ d.
Proof.
  induction d as [|[k' v'] d IH]; simpl; [done|].
  destruct (decide (k = k')) as [->|].
  - intros [= ->]. apply list_elem_of_here.
  - intros H. apply list_elem_of_further. by apply IH.
Qed.

Lemma dict_elem_of_get {V} k (v : V) d : Dict.wf d -> (k, v) ∈ d -> Dict.get k d = Some v.
Proof.
  unfold Dict.wf, Dict.keys. induction d as [|[k' v'] d IH]; simpl.
  - by intros _ ?%not_elem_of_nil.
  - rewrite NoDup_cons. intros [Hk' Hwf] [[= -> ->]|Hin]%elem_of_cons.
    + by rewrite decide_True.
    + rewrite decide_False; [by apply IH|].
      intros ->. apply Hk'. apply list_elem_of_fmap. by exists (k', v).
Qed.

Lemma dict_mem_set {V} k k' (v : V) d :
  Dict.mem k' d = true -> Dict.mem k' (Dict.set k v d) = true.
Proof.
  rewrite !dict_mem_get. destruct (decide (k = k')) as [->|].
  - rewrite dict_get_set_eq. by eexists.
  - by rewrite dict_get_set_ne.
Qed.

Lemma dict_mem_set_eq {V} k (v : V) d : Dict.mem k (Dict.set k v d) = true.
Proof. rewrite dict_mem_get, dict_get_set_eq. by eexists. Qed.

Lemma persisted_set_counter {R} n k (e : entry R) d :
  persisted (Dict.set "_counter" (Scalar n) (Dict.set k e d)).
Proof. right. apply dict_mem_set_eq. Qed.

(** ** Rules for computations *)

Lemma wp_ret {A} (a : A) Q E st : Q a st -> wp (mret a) Q E st.
Proof. done. Qed.

Lemma wp_bind {A B} (m : M A) (f : A -> M B) Q E st :
  wp m (fun a => wp (f a) Q E) E st -> wp (m ≫= f) Q E st.
Proof. unfold wp, mbind, M_bind. by destruct (m st). Qed.

Lemma wp_get Q E st : Q st st -> wp get_state Q E st.
Proof. done. Qed.

Lemma wp_modify f Q E st : Q tt (f st) -> wp (modify f) Q E st.
Proof. done. Qed.

Lemma wp_raise {A} e (Q : A -> State -> Prop) E st : E e st -> wp (raise e) Q E st.
Proof. done. Qed.

Lemma wp_now Q E st :
  Q (isoformat_at (clock st)) (set_clock (S (clock st)) st) -> wp now Q E st.
Proof. done. Qed.

Lemma wp_mono {A} (m : M A) (Q Q' : A -> State -> Prop) (E E' : exn -> State -> Prop) st :
  wp m Q E st ->
  (forall a st', Q a st' -> Q' a st') ->
  (forall e st', E e st' -> E' e st') ->
  wp m Q' E' st.
Proof. unfold wp. destruct (m st); eauto. Qed.

Lemma wp_ok {A} (m : M A) Q st :
  wp m Q never st <-> exists a st', m st = Ok a st' /\ Q a st'.
Proof.
  unfold wp, never. destruct (m st) as [a st'|e st']; split.
  - intros H. by exists a, st'.
  - by intros (? & ? & [= <- <-] & ?).
  - done.
  - by intros (? & ? & [=] & ?).
Qed.

Lemma wp_final {A} (m : M A) (R : State -> Prop) st :
  wp m (fun _ => R) (fun _ => R) st <-> R (final (m st)).
Proof. unfold wp. by destruct (m st). Qed.

(** ** Status changes *)

Lemma update_chunk_status_absent chunk_id status details st :
  Dict.get chunk_id (chunk_registry st) = None ->
  _update_chunk_status chunk_id status details st = Ok tt st.
Proof.
  intros Hget. unfold _update_chunk_status, mbind, M_bind, get_state.
  by rewrite Hget.
Qed.

Lemma update_chunk_status_scalar chunk_id status details st n :
  Dict.get chunk_id (chunk_registry st) = Some (Scalar n) ->
  exists e, _update_chunk_status chunk_id status details st = Raise e st.
Proof.
  intros Hget. unfold _update_chunk_status, mbind, M_bind, get_state.
  rewrite Hget. by eexists.
Qed.

Lemma update_chunk_status_mapping chunk_id status details st r :
  Dict.get chunk_id (chunk_registry st) = Some (Mapping r) ->
  exists st',
    _update_chunk_status chunk_id status details st = Ok tt st' /\
    let registry :=
      Dict.set "_counter" (Scalar (_chunk_counter st))
        (Dict.set chunk_id
           (Mapping (status_changed status details (isoformat_at (clock st)) r))
           (chunk_registry st)) in
    chunk_registry st' = registry /\
    chunk_registry_json (disk st') = Parsed registry /\
    manifest_json (disk st') =
      match manifest_json (disk st) !! chunk_id, Dict.get chunk_id registry with
      | Some _, Some current => <[chunk_id := current]> (manifest_json (disk st))
      | _, _ => manifest_json (disk st)
      end /\
    operations_jsonl (disk st') =
      operations_jsonl (disk st) ++
      [{| Log.timestamp := isoformat_at (S (clock st));
          Log.entry_details := Log.chunk_status_changed chunk_id status details |}] /\
    clock st' = S (S (clock st)) /\
    chunk_frame st st'.
Proof.
  intros Hget. unfold _update_chunk_status, mbind, M_bind, get_state.
  rewrite Hget. cbn.
  destruct (manifest_json (disk st) !! chunk_id) eqn:Hm; cbn;
    [destruct (Dict.get chunk_id (Dict.set _ _ _)) eqn:Hc; cbn|];
    (eexists; split; [reflexivity|]); cbn; rewrite ?Hc; by split_and!.
Qed.

Lemma dict_set_set {V} k (v v' : V) d : Dict.set k v' (Dict.set k v d) = Dict.set k v' d.
Proof.
  induction d as [|[k0 v0] d IH]; simpl.
  - by rewrite decide_True.
  - destruct (decide (k = k0)) as [->|]; simpl.
    + by rewrite decide_True.
    + rewrite decide_False by done. by rewrite IH.
Qed.

(** The record that a status mark starts from: [mark_chunk_trained] binds the
    adapter first. *)
Lemma mark_chunk_absent m chunk_id st :
  Dict.get chunk_id (chunk_registry st) = None ->
  mark_chunk m chunk_id st = Ok tt st.
Proof.
  intros Hget. destruct m; simpl;
    unfold mark_chunk_training, mark_chunk_trained, mark_chunk_failed,
      mark_chunk_restored;
    try by apply update_chunk_status_absent.
  unfold mbind, M_bind, get_state. rewrite Hget. simpl.
  by apply update_chunk_status_absent.
Qed.

Lemma mark_chunk_scalar m chunk_id st n :
  Dict.get chunk_id (chunk_registry st) = Some (Scalar n) ->
  exists e, mark_chunk m chunk_id st = Raise e st.
Proof.
  intros Hget. destruct m; simpl;
    unfold mark_chunk_training, mark_chunk_trained, mark_chunk_failed,
      mark_chunk_restored;
    try by eapply update_chunk_status_scalar.
  unfold mbind, M_bind, get_state. rewrite Hget. simpl. by eexists.
Qed.

Lemma mark_chunk_mapping m chunk_id st r :
  Dict.get chunk_id (chunk_registry st) = Some (Mapping r) ->
  exists st',
    mark_chunk m chunk_id st = Ok tt st' /\
    let registry :=
      Dict.set "_counter" (Scalar (_chunk_counter st))
        (Dict.set chunk_id
           (Mapping (status_changed (mark_status m) (mark_details m)
                       (isoformat_at (clock st)) (bind_adapter m r)))
           (chunk_registry st)) in
    chunk_registry st' = registry /\
    chunk_registry_json (disk st') = Parsed registry /\
    manifest_json (disk st') =
      match manifest_json (disk st) !! chunk_id, Dict.get chunk_id registry with
      | Some _, Some current => <[chunk_id := current]> (manifest_json (disk st))
      | _, _ => manifest_json (disk st)
      end /\
    operations_jsonl (disk st') =
      operations_jsonl (disk st) ++
      [{| Log.timestamp := isoformat_at (S (clock st));
          Log.entry_details :=
            Log.chunk_status_changed chunk_id (mark_status m) (mark_details m) |}] /\
    clock st' = S (S (clock st)) /\
    chunk_frame st st'.
Proof.
  intros Hget. destruct m; simpl;
    unfold mark_chunk_training, mark_chunk_trained, mark_chunk_failed,
      mark_chunk_restored;
    try by apply update_chunk_status_mapping.
  unfold mbind at 1. unfold M_bind. unfold mbind at 1. unfold M_bind, get_state.
  rewrite Hget. simpl.
  edestruct (update_chunk_status_mapping chunk_id ChunkStatus.TRAINED
               ("Trained into LoRA " +:+ lora_id)
               (set_chunk_registry
                  (Dict.set chunk_id (Mapping (Chunk.set_lora_id (Some lora_id) r))
                     (chunk_registry st)) st)) as (st' & -> & H).
  { simpl. apply dict_get_set_eq. }
  exists st'. split; [done|]. simpl in H. rewrite dict_set_set in H.
  destruct H as (? & ? & ? & ? & ? & []). split_and!; try done.
Qed.

(** C10.  Frame of the status-marking entry points, for a mark [m] applied to
    [chunk_id]: the chunk counter and every registry entry other than that of
    [chunk_id] are unchanged (the bookkeeping key [_counter] is rewritten with
    the value of the counter, so it is unchanged as soon as it held that
    value); the record of [chunk_id] changes in [status] and [history] only,
    and in [lora_id] for [mark_chunk_trained]; for an id that is not in the
    registry the call returns and the state, hence the whole registry, every
    manifest and the operation log, is the one before the call. *)
Theorem mark_chunk_frame (m : mark) (chunk_id : string) (st : State) :
  let st' := final (mark_chunk m chunk_id st) in
  _chunk_counter st' = _chunk_counter st /\
  (forall k, k <> chunk_id -> k <> "_counter" ->
     Dict.get k (chunk_registry st') = Dict.get k (chunk_registry st)) /\
  (Dict.get "_counter" (chunk_registry st) = Some (Scalar (_chunk_counter st)) ->
   forall k, k <> chunk_id ->
     Dict.get k (chunk_registry st') = Dict.get k (chunk_registry st)) /\
  (forall r, Dict.get chunk_id (chunk_registry st) = Some (Mapping r) ->
     chunk_id <> "_counter" ->
     exists r', Dict.get chunk_id (chunk_registry st') = Some (Mapping r') /\
       same_payload r r' /\
       Chunk.status r' = mark_status m /\
       Chunk.history r' =
         Chunk.history r ++
         [{| Chunk.timestamp := isoformat_at (clock st);
             Chunk.action := mark_status m;
             Chunk.details := mark_details m |}] /\
       Chunk.lora_id r' =
         match m with
         | Trained lora_id => Some lora_id
         | _ => Chunk.lora_id r
         end) /\
  (Dict.get chunk_id (chunk_registry st) = None ->
   mark_chunk m chunk_id st = Ok tt st).
Proof.
  destruct (Dict.get chunk_id (chunk_registry st)) as [[r|n]|] eqn:Hget.
  - destruct (mark_chunk_mapping m chunk_id st r Hget)
      as (st' & Hrun & Hreg & _ & _ & _ & _ & Hframe).
    rewrite Hrun. simpl in *. rewrite Hreg. split_and!.
    + apply Hframe.
    + intros k Hk Hc. by rewrite !dict_get_set_ne.
    + intros Hsaved k Hk. destruct (decide (k = "_counter")) as [->|Hc].
      * by rewrite dict_get_set_eq.
      * by rewrite !dict_get_set_ne.
    + intros r0 [= <-] Hc. eexists. split.
      { rewrite dict_get_set_ne by done. apply dict_get_set_eq. }
      destruct m; by split_and!.
    + done.
  - destruct (mark_chunk_scalar m chunk_id st n Hget) as (e & ->). simpl.
    by split_and!.
  - rewrite (mark_chunk_absent m chunk_id st Hget). simpl. by split_and!.
Qed.

(** C5, as the module behaves.  [_update_chunk_status] consults no transition
    table: for a chunk record of the registry, whatever its status and
    whatever the status asked for, the call returns, the record takes the new
    status and one more history entry, the registry file holds the new
    registry, the manifest, when there is one, holds the new record, and one
    line is logged; an id that is not in the registry leaves the state as it
    was. *)
Theorem update_chunk_status_unconditional (chunk_id status details : string) (st : State) :
  (forall r, Dict.get chunk_id (chunk_registry st) = Some (Mapping r) ->
     chunk_id <> "_counter" ->
     exists st' r',
       _update_chunk_status chunk_id status details st = Ok tt st' /\
       Dict.get chunk_id (chunk_registry st') = Some (Mapping r') /\
       Chunk.status r' = status /\
       Chunk.history r' =
         Chunk.history r ++
         [{| Chunk.timestamp := isoformat_at (clock st);
             Chunk.action := status;
             Chunk.details := details |}] /\
       chunk_registry_json (disk st') = Parsed (chunk_registry st') /\
       (is_Some (manifest_json (disk st) !! chunk_id) ->
        manifest_json (disk st') !! chunk_id = Some (Mapping r')) /\
       operations_jsonl (disk st') =
         operations_jsonl (disk st) ++
         [{| Log.timestamp := isoformat_at (S (clock st));
             Log.entry_details := Log.chunk_status_changed chunk_id status details |}]) /\
  (Dict.get chunk_id (chunk_registry st) = None ->
   _update_chunk_status chunk_id status details st = Ok tt st).
Proof.
  split; [|apply update_chunk_status_absent].
  intros r Hget Hc.
  destruct (update_chunk_status_mapping chunk_id status details st r Hget)
    as (st' & Hrun & Hreg & Hfile & Hman & Hlog & _ & _).
  simpl in *.
  assert (Hnew : Dict.get chunk_id (chunk_registry st') =
                 Some (Mapping (status_changed status details (isoformat_at (clock st)) r))).
  { rewrite Hreg, dict_get_set_ne by done. apply dict_get_set_eq. }
  exists st', (status_changed status details (isoformat_at (clock st)) r).
  split_and!; try done.
  - by rewrite Hfile, Hreg.
  - intros [e He]. rewrite Hman, He. rewrite <- Hreg, Hnew.
    apply lookup_insert_eq.
Qed.

(** ** Restorable chunks *)

Lemma can_restore_iff target c :
  can_restore target c = true <->
  Chunk.status c = ChunkStatus.FAILED \/
  Chunk.status c = ChunkStatus.RESTORED \/
  (Chunk.status c = ChunkStatus.TRAINED /\ Chunk.model_identity_hash c <> target).
Proof.
  unfold can_restore.
  repeat case_bool_decide; simpl; split; intros Hc; try done; try tauto.
  all: destruct Hc as [?|[?|[? ?]]]; congruence.
Qed.

Lemma restorable_scan_spec target docs items :
  (restorable_scan target docs items).1.*1 = items.*1 /\
  forall k, k ∈ map Chunk.chunk_id (restorable_scan target docs items).2 <->
    exists c, (k, Mapping c) ∈ items /\ Py.startswith_underscore k = false /\
      can_restore target c = true /\ is_Some (docs !! k).
Proof.
  induction items as [|[k0 e] items [IHk IH]]; simpl.
  - split; [done|]. intros k. split.
    + by intros ?%elem_of_nil.
    + by intros (? & ?%elem_of_nil & _).
  - destruct (restorable_scan target docs items) as [rest' result] eqn:Hscan.
    simpl in IHk, IH.
    assert (Hskip : forall k,
      ~ (exists c, e = Mapping c /\ k = k0 /\ Py.startswith_underscore k0 = false /\
           can_restore target c = true /\ is_Some (docs !! k0)) ->
      (k ∈ map Chunk.chunk_id result <->
       exists c, (k, Mapping c) ∈ (k0, e) :: items /\ Py.startswith_underscore k = false /\
         can_restore target c = true /\ is_Some (docs !! k))).
    { intros k Hno. rewrite IH. split.
      - intros (c & Hin & H). exists c. split; [by apply list_elem_of_further | done].
      - intros (c & [[= -> <-]|Hin]%elem_of_cons & Hu' & Hc & Hd).
        + exfalso. apply Hno. by exists c.
        + by exists c. }
    destruct (Py.startswith_underscore k0) eqn:Hu; simpl.
    { split; [by f_equal|]. intros k. apply Hskip. by intros (? & _ & _ & ? & _). }
    destruct e as [c|n]; simpl.
    2:{ split; [by f_equal|]. intros k. apply Hskip. by intros (? & ? & _). }
    destruct (can_restore target c) eqn:Hc; simpl.
    2:{ split; [by f_equal|]. intros k. apply Hskip.
        intros (? & [= <-] & _ & _ & ? & _). congruence. }
    destruct (docs !! k0) eqn:Hd; simpl.
    2:{ split; [by f_equal|]. intros k. apply Hskip.
        by intros (? & _ & _ & _ & _ & [? ?]). }
    split; [by f_equal|]. intros k. rewrite elem_of_cons. simpl. rewrite IH. split.
    + intros [->|(c' & Hin & H)].
      * exists c. rewrite Hd. split_and!; try done. apply list_elem_of_here.
      * exists c'. split; [by apply list_elem_of_further | done].
    + intros (c' & [[= -> _]|Hin]%elem_of_cons & H); [by left|].
      right. by exists c'.
Qed.

Lemma get_restorable_chunks_run model_identity_hash st :
  get_restorable_chunks model_identity_hash st =
  let scan :=
    restorable_scan (Py.or_ model_identity_hash (current_model st))
      (documents_json (disk st)) (chunk_registry st) in
  Ok scan.2 (set_chunk_registry scan.1 st).
Proof.
  unfold get_restorable_chunks, mbind, M_bind, get_state. simpl.
  by destruct (restorable_scan _ _ _).
Qed.

(** C2.  [get_restorable_chunks] lists a chunk record of the registry exactly
    when its [documents.json] exists and its status is FAILED, or RESTORED,
    or TRAINED for a model other than the target; the target is the hash
    passed, and the current model when none is passed. *)
Theorem get_restorable_chunks_iff (model_identity_hash target : option string)
    (st : State) :
  Dict.wf (chunk_registry st) ->
  match model_identity_hash with
  | None => target = current_model st
  | Some h => h <> "" /\ target = Some h
  end ->
  exists result st',
    get_restorable_chunks model_identity_hash st = Ok result st' /\
    forall chunk_id c, chunk_record st chunk_id c ->
      (chunk_id ∈ map Chunk.chunk_id result <-> restorable st target chunk_id c).
Proof.
  intros Hwf Htarget. rewrite get_restorable_chunks_run. simpl.
  eexists _, _. split; [reflexivity|].
  assert (Py.or_ model_identity_hash (current_model st) = target) as ->.
  { unfold Py.or_. destruct model_identity_hash as [h|]; simpl.
    - destruct Htarget as [Hh ->]. by destruct (String.eqb_spec h "").
    - done. }
  intros chunk_id c [Hin Hu].
  destruct (restorable_scan_spec target (documents_json (disk st)) (chunk_registry st))
    as [_ ->].
  unfold restorable. rewrite <- can_restore_iff. split.
  - intros (c' & Hin' & _ & Hc & Hd).
    apply dict_elem_of_get in Hin, Hin'; try done.
    rewrite Hin in Hin'. by injection Hin' as <-.
  - intros [Hd Hc]. by exists c.
Qed.

(** ** Restoration *)



(** ** Model registration *)

Lemma register_model_run model_path friendly_name st :
  exists r st',
    register_model model_path friendly_name st = Ok r st' /\
    rr_identity_hash r = hash_of model_path st /\
    rr_previous_model r = current_model st /\
    rr_model_changed r = model_changed_value (current_model st) (hash_of model_path st) /\
    rr_is_new r =
      negb (Dict.mem (hash_of model_path st) (Model.known_models (model_registry st))) /\
    current_model st' = Some (hash_of model_path st) /\
    Model.current_model (model_registry st') = Some (hash_of model_path st) /\
    model_registry_json (disk st') = Parsed (model_registry st') /\
    model_frame st st'.
Proof.
  unfold register_model, mbind, M_bind, get_state, hash_of, model_changed_value. cbn.
  destruct (Dict.get _ (Model.known_models (model_registry st))); cbn;
    (eexists _, _; split; [reflexivity|]); cbn; by split_and!.
Qed.

(** ** Adapter invalidation *)

Lemma lora_frame_refl st : lora_frame st st.
Proof. by split. Qed.

Lemma lora_frame_trans st1 st2 st3 :
  lora_frame st1 st2 -> lora_frame st2 st3 -> lora_frame st1 st3.
Proof. intros [] []. split; congruence. Qed.

Lemma mark_lora_unusable_absent lora_id reason st :
  Dict.get lora_id (lora_registry st) = None ->
  mark_lora_unusable lora_id reason st = Ok tt st.
Proof.
  intros Hget. unfold mark_lora_unusable, mbind, M_bind, get_state. by rewrite Hget.
Qed.

Lemma mark_lora_unusable_mapping lora_id reason st data :
  Dict.get lora_id (lora_registry st) = Some (Mapping data) ->
  exists st',
    mark_lora_unusable lora_id reason st = Ok tt st' /\
    lora_registry st' =
      Dict.set "_counter" (Scalar (_lora_counter st))
        (Dict.set lora_id
           (Mapping (marked_unusable reason (isoformat_at (clock st)) data))
           (lora_registry st)) /\
    lora_registry_json (disk st') = Parsed (lora_registry st') /\
    adapter_dirs (disk st') = adapter_dirs (disk st) /\
    operations_jsonl (disk st') =
      operations_jsonl (disk st) ++
      [{| Log.timestamp := isoformat_at (S (clock st));
          Log.entry_details := Log.lora_marked_unusable lora_id reason |}] /\
    clock st' = S (S (clock st)) /\
    lora_frame st st'.
Proof.
  intros Hget. unfold mark_lora_unusable, mbind, M_bind, get_state.
  rewrite Hget. cbn. eexists; split; [reflexivity|]. cbn. by split_and!.
Qed.

Lemma startswith_underscore_counter : Py.startswith_underscore "_counter" = true.
Proof. reflexivity. Qed.

Lemma to_invalidate_true previous registry k :
  to_invalidate previous registry k = true ->
  k <> "_counter" /\ Py.startswith_underscore k = false /\
  exists r, Dict.get k registry = Some (Mapping r) /\ bound_active previous r = true.
Proof.
  unfold to_invalidate. destruct (Dict.get k registry) as [[r|]|]; try done.
  intros [Hu Hb]%andb_true_iff. apply negb_true_iff in Hu. split_and!; [|done|by exists r].
  intros ->. by rewrite startswith_underscore_counter in Hu.
Qed.

Lemma to_invalidate_agree previous registry registry' k :
  (k <> "_counter" -> Dict.get k registry' = Dict.get k registry) ->
  (Dict.get "_counter" registry' = None \/
   exists n, Dict.get "_counter" registry' = Some (Scalar n)) ->
  to_invalidate previous registry' k = to_invalidate previous registry k.
Proof.
  intros Hsame Hc. destruct (decide (k = "_counter")) as [->|Hk].
  - unfold to_invalidate.
    destruct Hc as [->|[n ->]];
      destruct (Dict.get "_counter" registry) as [[r|]|]; done.
  - unfold to_invalidate. by rewrite Hsame.
Qed.

Lemma filter_ext_elem {A} (P Q : A -> Prop)
    `{!forall x, Decision (P x)} `{!forall x, Decision (Q x)} (l : list A) :
  (forall x, x ∈ l -> (P x <-> Q x)) -> filter P l = filter Q l.
Proof.
  induction l as [|x l IH]; intros Hext; [done|].
  rewrite !filter_cons.
  rewrite IH by (intros y Hy; apply Hext; by apply list_elem_of_further).
  destruct (decide (P x)) as [HP|HP], (decide (Q x)) as [HQ|HQ]; try done;
    exfalso; apply (Hext x (list_elem_of_here _ _)) in HP || apply HP, (Hext x (list_elem_of_here _ _)); done.
Qed.

Lemma invalidate_loop_spec previous new_model_hash items :
  forall st unusable_loras,
  NoDup items ->
  Dict.mem "_counter" (lora_registry st) = true ->
  exists st',
    invalidate_loop (length (lora_registry st)) items previous new_model_hash
      unusable_loras st =
      Ok (unusable_loras ++
          filter (fun k => to_invalidate previous (lora_registry st) k = true) items) st' /\
    Dict.keys (lora_registry st') = Dict.keys (lora_registry st) /\
    (forall k r, k ∈ items -> to_invalidate previous (lora_registry st) k = true ->
       Dict.get k (lora_registry st) = Some (Mapping r) ->
       exists t, Dict.get k (lora_registry st') =
         Some (Mapping (marked_unusable (switch_reason previous new_model_hash) t r))) /\
    (forall k, k <> "_counter" ->
       ~ (k ∈ items /\ to_invalidate previous (lora_registry st) k = true) ->
       Dict.get k (lora_registry st') = Dict.get k (lora_registry st)) /\
    lora_frame st st'.
Proof.
  induction items as [|k rest IH]; intros st acc Hnd Hcounter.
  - exists st. simpl. unfold mbind, M_bind, get_state. rewrite Nat.eqb_refl. simpl.
    rewrite app_nil_r. split_and!; try done; try apply lora_frame_refl.
    by intros k r ?%elem_of_nil.
  - apply NoDup_cons in Hnd as [Hk Hnd].
    assert (Hskip : to_invalidate previous (lora_registry st) k = false ->
      exists st',
        invalidate_loop (length (lora_registry st)) rest previous new_model_hash acc st =
          Ok (acc ++ filter (fun k => to_invalidate previous (lora_registry st) k = true)
                       (k :: rest)) st' /\
        Dict.keys (lora_registry st') = Dict.keys (lora_registry st) /\
        (forall k0 r, k0 ∈ k :: rest ->
           to_invalidate previous (lora_registry st) k0 = true ->
           Dict.get k0 (lora_registry st) = Some (Mapping r) ->
           exists t, Dict.get k0 (lora_registry st') =
             Some (Mapping (marked_unusable (switch_reason previous new_model_hash) t r))) /\
        (forall k0, k0 <> "_counter" ->
           ~ (k0 ∈ k :: rest /\ to_invalidate previous (lora_registry st) k0 = true) ->
           Dict.get k0 (lora_registry st') = Dict.get k0 (lora_registry st)) /\
        lora_frame st st').
    { intros Hno. destruct (IH st acc Hnd Hcounter) as (st' & Hrun & Hkeys & Hm & Hu & Hf).
      exists st'. split_and!; try done.
      - rewrite Hrun, filter_cons_False; [done|]. by rewrite Hno.
      - intros k0 r [->|Hin]%elem_of_cons Hinv; [congruence|]. by apply Hm.
      - intros k0 Hk0 Hn. apply Hu; [done|]. intros [Hin Hinv]. apply Hn.
        split; [by apply list_elem_of_further|done]. }
    simpl. unfold mbind at 1. unfold M_bind, get_state. rewrite Nat.eqb_refl. simpl.
    destruct (to_invalidate previous (lora_registry st) k) eqn:Hinv.
    2:{ unfold to_invalidate in Hinv.
        destruct (Dict.get k (lora_registry st)) as [[r|]|]; try by apply Hskip.
        destruct (Py.startswith_underscore k); [by apply Hskip|].
        simpl in Hinv. unfold bound_active in Hinv. rewrite Hinv. by apply Hskip. }
    clear Hskip.
    destruct (to_invalidate_true _ _ _ Hinv) as (Hkc & Hku & r & Hget & Hb).
    rewrite Hget, Hku. unfold bound_active in Hb. rewrite Hb.
    destruct (mark_lora_unusable_mapping k (switch_reason previous new_model_hash) st r Hget)
      as (st1 & Hmark & Hreg & _ & _ & _ & _ & Hf1).
    unfold switch_reason in Hmark at 1.
    unfold mbind at 1. unfold M_bind. rewrite Hmark.
    assert (Hget1 : forall k0, k0 <> "_counter" -> k0 <> k ->
              Dict.get k0 (lora_registry st1) = Dict.get k0 (lora_registry st)).
    { intros k0 ? ?. by rewrite Hreg, !dict_get_set_ne. }
    assert (Hgetk : Dict.get k (lora_registry st1) =
              Some (Mapping (marked_unusable (switch_reason previous new_model_hash)
                               (isoformat_at (clock st)) r))).
    { rewrite Hreg, dict_get_set_ne by done. apply dict_get_set_eq. }
    assert (Hkeys1 : Dict.keys (lora_registry st1) = Dict.keys (lora_registry st)).
    { rewrite Hreg, !dict_keys_set_present; [done|by eexists|].
      apply dict_mem_get, dict_mem_set, Hcounter. }
    assert (Hlen : length (lora_registry st1) = length (lora_registry st)).
    { unfold Dict.keys in Hkeys1. by rewrite <- (length_fmap fst), Hkeys1, length_fmap. }
    assert (Hagree : forall k0, k0 <> k ->
              to_invalidate previous (lora_registry st1) k0 =
              to_invalidate previous (lora_registry st) k0).
    { intros k0 ?. apply to_invalidate_agree.
      - intros ?. by apply Hget1.
      - right. exists (_lora_counter st). rewrite Hreg. apply dict_get_set_eq. }
    destruct (IH st1 (acc ++ [k])) as (st' & Hrun & Hkeys & Hm & Hu & Hf); [done| |].
    { rewrite Hreg. apply dict_mem_set_eq. }
    rewrite Hlen in Hrun. exists st'. split_and!.
    + rewrite Hrun, filter_cons_True by done. rewrite <- app_assoc. simpl.
      do 3 f_equal. apply filter_ext_elem. intros k0 Hin.
      rewrite Hagree; [done|]. by intros ->.
    + by rewrite Hkeys.
    + intros k0 r0 [->|Hin]%elem_of_cons Hinv0 Hget0.
      * rewrite Hget in Hget0. injection Hget0 as <-.
        exists (isoformat_at (clock st)). rewrite <- Hgetk. apply Hu; [done|].
        by intros [? _].
      * assert (k0 <> k) by (by intros ->).
        destruct (to_invalidate_true _ _ _ Hinv0) as (? & _).
        apply Hm; [done| by rewrite Hagree | by rewrite Hget1].
    + intros k0 Hk0 Hn.
      assert (k0 <> k).
      { intros ->. apply Hn. split; [apply list_elem_of_here|done]. }
      rewrite <- Hget1 by done. apply Hu; [done|].
      intros [Hin Hinv0]. apply Hn. split; [by apply list_elem_of_further|].
      by rewrite <- Hagree.
    + by apply (lora_frame_trans st st1 st').
Qed.

Lemma dict_get_Some_keys {V} k (v : V) d : Dict.get k d = Some v -> k ∈ Dict.keys d.
Proof.
  intros Hget. apply dict_get_elem_of in Hget.
  unfold Dict.keys. apply list_elem_of_fmap. by exists (k, v).
Qed.

Lemma invalidate_all previous new_model_hash st :
  Dict.wf (lora_registry st) ->
  persisted (lora_registry st) ->
  exists st',
    invalidate_loop (length (lora_registry st)) (Dict.keys (lora_registry st))
      previous new_model_hash [] st =
      Ok (filter (fun k => to_invalidate previous (lora_registry st) k = true)
            (Dict.keys (lora_registry st))) st' /\
    Dict.keys (lora_registry st') = Dict.keys (lora_registry st) /\
    (forall k r, to_invalidate previous (lora_registry st) k = true ->
       Dict.get k (lora_registry st) = Some (Mapping r) ->
       exists t, Dict.get k (lora_registry st') =
         Some (Mapping (marked_unusable (switch_reason previous new_model_hash) t r))) /\
    (forall k, k <> "_counter" ->
       to_invalidate previous (lora_registry st) k = false ->
       Dict.get k (lora_registry st') = Dict.get k (lora_registry st)) /\
    lora_frame st st'.
Proof.
  intros Hwf [Hempty|Hcounter].
  - exists st. rewrite Hempty. simpl. unfold mbind, M_bind, get_state.
    rewrite Hempty. simpl. split_and!; done || apply lora_frame_refl.
  - destruct (invalidate_loop_spec previous new_model_hash (Dict.keys (lora_registry st))
                st [] Hwf Hcounter) as (st' & Hrun & Hkeys & Hm & Hu & Hf).
    exists st'. split_and!; try done.
    + intros k r Hinv Hget. apply Hm; try done. by eapply dict_get_Some_keys.
    + intros k Hk Hinv. apply Hu; [done|]. intros [_ ?]. congruence.
Qed.

Lemma lora_ids_of_invalidated previous registry final items :
  (forall k e, (k, e) ∈ items -> Dict.get k registry = Some e) ->
  (forall k r, to_invalidate previous registry k = true ->
     Dict.get k registry = Some (Mapping r) ->
     exists r', Dict.get k final = Some (Mapping r') /\ LoRA.lora_id r' = LoRA.lora_id r) ->
  lora_ids_of (filter (fun k => to_invalidate previous registry k = true) items.*1) final =
  map LoRA.lora_id (invalidated previous items).
Proof.
  intros Hitems Hfinal. induction items as [|[k e] items IH]; [done|].
  assert (Hget : Dict.get k registry = Some e) by apply Hitems, list_elem_of_here.
  assert (IH' := IH (fun k e H => Hitems k e (list_elem_of_further _ _ _ H))).
  clear IH. rewrite fmap_cons. simpl.
  destruct (to_invalidate previous registry k) eqn:Hinv.
  - rewrite filter_cons_True by done.
    destruct (to_invalidate_true _ _ _ Hinv) as (_ & Hu & r & Hr & Hb).
    rewrite Hget in Hr. injection Hr as ->.
    rewrite Hu, Hb. simpl. destruct (Hfinal k r Hinv Hget) as (r' & -> & ->).
    by rewrite <- IH'.
  - rewrite filter_cons_False by (by rewrite Hinv).
    unfold to_invalidate in Hinv. rewrite Hget in Hinv.
    destruct e as [r|n]; [|done]. by rewrite Hinv.
Qed.

Lemma wp_of_ok {A} (m : M A) st a st' Q E : m st = Ok a st' -> Q a st' -> wp m Q E st.
Proof. unfold wp. by intros ->. Qed.

Lemma get_restorable_chunks_frame model_identity_hash st :
  exists result st',
    get_restorable_chunks model_identity_hash st = Ok result st' /\
    lora_registry st' = lora_registry st /\
    current_model st' = current_model st /\
    disk st' = disk st /\
    clock st' = clock st.
Proof. rewrite get_restorable_chunks_run. by eexists _, _. Qed.

Lemma handle_model_switch_switched new_model_path friendly_name previous st :
  Dict.wf (lora_registry st) ->
  persisted (lora_registry st) ->
  current_model st = Some previous ->
  previous <> "" ->
  hash_of new_model_path st <> previous ->
  exists summary st',
    handle_model_switch new_model_path friendly_name st = Ok (Switched summary) st' /\
    previous_model summary = Some previous /\
    new_model summary = hash_of new_model_path st /\
    unusable_loras summary = map LoRA.lora_id (invalidated previous (lora_registry st)) /\
    Dict.keys (lora_registry st') = Dict.keys (lora_registry st) /\
    current_model st' = Some (hash_of new_model_path st) /\
    (forall k r, to_invalidate previous (lora_registry st) k = true ->
       Dict.get k (lora_registry st) = Some (Mapping r) ->
       exists t, Dict.get k (lora_registry st') =
         Some (Mapping (marked_unusable
                          (switch_reason previous (hash_of new_model_path st)) t r))) /\
    (forall k, k <> "_counter" ->
       to_invalidate previous (lora_registry st) k = false ->
       Dict.get k (lora_registry st') = Dict.get k (lora_registry st)).
Proof.
  intros Hwf Hpers Hcur Hne Hnew.
  destruct (register_model_run new_model_path friendly_name st)
    as (reg & st1 & Hreg & Hhash & Hprev & Hchanged & _ & Hcur1 & _ & _ & Hf1).
  assert (Hl1 : lora_registry st1 = lora_registry st) by apply Hf1.
  assert (Htruthy : Py.truthy (Py.Str previous) = true).
  { simpl. by destruct (String.eqb_spec previous ""). }
  assert (Hch : Py.truthy (rr_model_changed reg) = true).
  { rewrite Hchanged, Hcur. unfold model_changed_value, Py.and_. simpl Py.of_opt.
    rewrite Htruthy. simpl. rewrite bool_decide_eq_false_2; [done|]. by intros [= ->]. }
  destruct (invalidate_all previous (hash_of new_model_path st) st1)
    as (st2 & Hloop & Hkeys & Hm & Hu & Hf2); [by rewrite Hl1..|].
  rewrite Hl1 in Hloop, Hkeys, Hm, Hu.
  destruct (get_restorable_chunks_frame (Some (hash_of new_model_path st)) st2)
    as (chunks & st3 & Hrest & Hl3 & Hc3 & _).
  assert (Hwp : wp (handle_model_switch new_model_path friendly_name)
            (fun a st' => exists summary, a = Switched summary /\
               previous_model summary = Some previous /\
               new_model summary = hash_of new_model_path st /\
               unusable_loras summary =
                 lora_ids_of
                   (filter (fun k => to_invalidate previous (lora_registry st) k = true)
                      (Dict.keys (lora_registry st))) (lora_registry st2) /\
               lora_registry st' = lora_registry st2 /\
               current_model st' = Some (hash_of new_model_path st)) never st).
  { unfold handle_model_switch.
    apply wp_bind, wp_get, wp_bind. eapply wp_of_ok; [exact Hreg|].
    rewrite Hch. simpl negb. cbv iota. rewrite Hcur, Htruthy, Hhash.
    apply wp_bind, wp_bind, wp_get. rewrite Hl1. eapply wp_of_ok; [exact Hloop|].
    apply wp_bind. eapply wp_of_ok; [exact Hrest|].
    apply wp_bind, wp_get, wp_bind. unfold _log_operation.
    apply wp_bind, wp_now, wp_modify, wp_ret.
    eexists. split; [reflexivity|]. simpl. rewrite Hl3, Hc3.
    rewrite (lf_current_model _ _ Hf2), Hcur1. by split_and!. }
  apply wp_ok in Hwp as (a & st' & Hrun & summary & -> & Hp & Hn & Hun & Hl' & Hc').
  exists summary, st'. rewrite Hl', Hp, Hn, Hun. clear Hp Hn Hun Hl'.
  split_and!; try done.
  apply lora_ids_of_invalidated.
  - intros k e Hin. by apply dict_elem_of_get.
  - intros k r Hinv Hget. destruct (Hm k r Hinv Hget) as [t ->]. by eexists.
Qed.

(** C1.  When the model registered by [handle_model_switch] has another
    identity hash than the current model [previous] ([model_changed] is
    true), the call returns the summary of a switch; every adapter record of
    the registry that was active and bound to [previous] has status
    [unusable] and the reason "Model changed from <previous> to <new>"
    afterwards; every other adapter record is as it was; and
    [unusable_loras] holds the ids of the former, in registry order. *)
Theorem handle_model_switch_invalidates (new_model_path : string)
    (friendly_name : option string) (previous : string) (st : State) :
  Dict.wf (lora_registry st) ->
  persisted (lora_registry st) ->
  current_model st = Some previous ->
  previous <> "" ->
  hash_of new_model_path st <> previous ->
  exists summary st',
    handle_model_switch new_model_path friendly_name st = Ok (Switched summary) st' /\
    previous_model summary = Some previous /\
    new_model summary = hash_of new_model_path st /\
    unusable_loras summary = map LoRA.lora_id (invalidated previous (lora_registry st)) /\
    (forall lora_id r, adapter_record st lora_id r ->
       LoRA.status r = "active" -> LoRA.model_identity_hash r = Some previous ->
       exists r', Dict.get lora_id (lora_registry st') = Some (Mapping r') /\
         LoRA.status r' = "unusable" /\
         LoRA.unusable_reason r' =
           Some ("Model changed from " +:+ previous +:+ " to "
                 +:+ hash_of new_model_path st)) /\
    (forall lora_id r, adapter_record st lora_id r ->
       LoRA.status r <> "active" \/ LoRA.model_identity_hash r <> Some previous ->
       Dict.get lora_id (lora_registry st') = Some (Mapping r)).
Proof.
  intros Hwf Hpers Hcur Hne Hnew.
  destruct (handle_model_switch_switched new_model_path friendly_name previous st)
    as (summary & st' & Hrun & Hp & Hn & Hun & _ & _ & Hm & Hu); try done.
  exists summary, st'. split_and!; try done.
  - intros lora_id r [Hin Hus] Hactive Hbound.
    apply dict_elem_of_get in Hin; [|done].
    destruct (Hm lora_id r) as [t ->]; [|done|].
    { unfold to_invalidate, bound_active. rewrite Hin, Hus. simpl.
      by rewrite !bool_decide_eq_true_2. }
    by eexists.
  - intros lora_id r [Hin Hus] Hnot.
    apply dict_elem_of_get in Hin; [|done].
    rewrite <- Hin. apply Hu.
    + intros ->. by rewrite startswith_underscore_counter in Hus.
    + unfold to_invalidate, bound_active. rewrite Hin, Hus. simpl.
      destruct Hnot.
      * rewrite (bool_decide_eq_false_2 (LoRA.status r = "active")) by done.
        apply andb_false_r.
      * by rewrite bool_decide_eq_false_2.
Qed.

(** ** Parts of the state that an operation does not touch *)

Section Keeps.
Context {V : Type} (view : State -> V).

Lemma keeps_ret {A} (a : A) : keeps view (mret a).
Proof. by intros st. Qed.

Lemma keeps_get : keeps view get_state.
Proof. by intros st. Qed.

Lemma keeps_raise {A} e : keeps view (raise (A := A) e).
Proof. by intros st. Qed.

Lemma keeps_modify f : (forall st, view (f st) = view st) -> keeps view (modify f).
Proof. intros Hf st. apply Hf. Qed.

Lemma keeps_bind {A B} (m : M A) (f : A -> M B) :
  keeps view m -> (forall a, keeps view (f a)) -> keeps view (m ≫= f).
Proof.
  intros Hm Hf st. specialize (Hm st). unfold mbind, M_bind.
  destruct (m st) as [a st1|e st1]; simpl in *; [|done].
  by rewrite Hf.
Qed.

Lemma keeps_for_each {A} (l : list A) (body : A -> M unit) :
  (forall x, keeps view (body x)) -> keeps view (for_each l body).
Proof.
  intros Hbody. induction l as [|x l IH]; simpl.
  - apply keeps_ret.
  - apply keeps_bind; [apply Hbody | by intros _].
Qed.

End Keeps.

(** One step through the code of a method. *)
Ltac keeps_step :=
  lazymatch goal with
  | |- keeps _ (mbind _ _) => apply keeps_bind; [|intros ?]
  | |- keeps _ (mret _) => apply keeps_ret
  | |- keeps _ get_state => apply keeps_get
  | |- keeps _ (raise _) => apply keeps_raise
  | |- keeps _ (modify _) => apply keeps_modify; intros ?; reflexivity
  | |- keeps _ now => intros ?; reflexivity
  | |- keeps _ (for_each _ _) => apply keeps_for_each; intros ?
  | |- keeps _ (match ?x with _ => _ end) => destruct x
  end.

Lemma keeps_documents_update_chunk_status chunk_id status details :
  keeps documents_view (_update_chunk_status chunk_id status details).
Proof. unfold _update_chunk_status, _save_chunk_registry, _log_operation. repeat keeps_step. Qed.

(** ** Chunk and adapter ids *)

Lemma read_digits_zeros k s : read_digits (Py.zeros k +:+ s) = read_digits s.
Proof.
  unfold read_digits. induction k as [|k IH]; [done|].
  simpl. destruct (NilEmpty.uint_of_string (Py.zeros k +:+ s)) as [d|] eqn:Hd;
    destruct (NilEmpty.uint_of_string s) as [d'|]; simpl in *; done.
Qed.

Lemma read_digits_digits n : read_digits (Py.digits n) = Some n.
Proof.
  unfold read_digits, Py.digits. rewrite NilEmpty.usu. simpl.
  by rewrite DecimalN.Unsigned.of_to.
Qed.

Lemma read_digits_pad w n : read_digits (Py.pad w (Py.digits n)) = Some n.
Proof. unfold Py.pad. by rewrite read_digits_zeros, read_digits_digits. Qed.

Lemma read_digits_minus s : read_digits ("-" +:+ s) = None.
Proof.
  unfold read_digits. change ("-" +:+ s) with (String "-" s). simpl.
  by destruct (NilEmpty.uint_of_string s).
Qed.

Lemma format_04d_inj a b : Py.format_04d a = Py.format_04d b -> a = b.
Proof.
  unfold Py.format_04d. intros H.
  destruct (Z.ltb_spec a 0), (Z.ltb_spec b 0).
  - assert (Hs : forall x y, "-" +:+ x = "-" +:+ y -> x = y) by (by intros x y [= ?]).
    apply Hs, (f_equal read_digits) in H.
    rewrite !read_digits_pad in H. injection H as H. lia.
  - apply (f_equal read_digits) in H.
    by rewrite read_digits_minus, read_digits_pad in H.
  - apply (f_equal read_digits) in H.
    by rewrite read_digits_minus, read_digits_pad in H.
  - apply (f_equal read_digits) in H.
    rewrite !read_digits_pad in H. injection H as H. lia.
Qed.

Lemma chunk_id_inj a b :
  "chunk_" +:+ Py.format_04d a = "chunk_" +:+ Py.format_04d b -> a = b.
Proof. intros [= H]. by apply format_04d_inj. Qed.

(** ** Document preservation *)

Ltac keeps_unfold :=
  unfold _save_chunk_registry, _save_lora_registry, _save_model_registry,
    _log_operation.

Lemma keeps_documents_mark m chunk_id : keeps documents_view (mark_chunk m chunk_id).
Proof.
  destruct m; simpl;
    unfold mark_chunk_training, mark_chunk_trained, mark_chunk_failed,
      mark_chunk_restored;
    repeat keeps_step; apply keeps_documents_update_chunk_status.
Qed.

Lemma keeps_documents_register_model model_path friendly_name :
  keeps documents_view (register_model model_path friendly_name).
Proof. unfold register_model. keeps_unfold. repeat keeps_step. Qed.

Lemma keeps_documents_detect_model_change model_path :
  keeps documents_view (detect_model_change model_path).
Proof. unfold detect_model_change. repeat keeps_step. Qed.

Lemma keeps_documents_get_restorable_chunks model_identity_hash :
  keeps documents_view (get_restorable_chunks model_identity_hash).
Proof. unfold get_restorable_chunks. repeat keeps_step. Qed.

Lemma keeps_documents_get_chunks_by_status status model_hash :
  keeps documents_view (get_chunks_by_status status model_hash).
Proof. unfold get_chunks_by_status. repeat keeps_step. Qed.

Lemma keeps_documents_get_untrained_chunks : keeps documents_view get_untrained_chunks.
Proof. unfold get_untrained_chunks. repeat keeps_step. Qed.

Lemma keeps_documents_get_all_loras include_deleted :
  keeps documents_view (get_all_loras include_deleted).
Proof. unfold get_all_loras. repeat keeps_step. Qed.

Lemma keeps_documents_mark_lora_unusable lora_id reason :
  keeps documents_view (mark_lora_unusable lora_id reason).
Proof. unfold mark_lora_unusable. keeps_unfold. repeat keeps_step. Qed.

Lemma keeps_documents_delete_lora lora_id delete_files :
  keeps documents_view (delete_lora lora_id delete_files).
Proof. unfold delete_lora. keeps_unfold. repeat keeps_step. Qed.

Lemma keeps_documents_register_lora chunk_ids lora_path training_config metrics :
  keeps documents_view (register_lora chunk_ids lora_path training_config metrics).
Proof.
  unfold register_lora. keeps_unfold. repeat keeps_step.
  all: apply (keeps_documents_mark (Trained _)).
Qed.

Lemma keeps_documents_invalidate_loop size items previous new_model_hash :
  forall unusable_loras,
  keeps documents_view (invalidate_loop size items previous new_model_hash unusable_loras).
Proof.
  induction items as [|k rest IH]; intros acc; simpl; repeat keeps_step;
    try apply keeps_documents_mark_lora_unusable; apply IH.
Qed.

Lemma keeps_documents_handle_model_switch new_model_path friendly_name :
  keeps documents_view (handle_model_switch new_model_path friendly_name).
Proof.
  unfold handle_model_switch. keeps_unfold. repeat keeps_step.
  all: first [ apply keeps_documents_register_model
             | apply keeps_documents_invalidate_loop
             | apply keeps_documents_get_restorable_chunks ].
Qed.

Lemma keeps_documents_restore_loop chunk_ids :
  forall all_documents restored failed,
  keeps documents_view (restore_loop chunk_ids all_documents restored failed).
Proof.
  induction chunk_ids as [|c rest IH]; intros; simpl; repeat keeps_step;
    try apply (keeps_documents_mark Restored); apply IH.
Qed.

Lemma keeps_documents_restore_chunks_to_rag chunk_ids :
  keeps documents_view (restore_chunks_to_rag chunk_ids).
Proof.
  unfold restore_chunks_to_rag. keeps_unfold. repeat keeps_step.
  all: first [ apply keeps_documents_get_restorable_chunks
             | apply keeps_documents_restore_loop ].
Qed.

Lemma create_chunk_run documents character metadata st :
  exists chunk st',
    create_chunk documents character metadata st = Ok chunk st' /\
    let chunk_id := "chunk_" +:+ Py.format_04d (_chunk_counter st + 1) in
    Chunk.chunk_id chunk = chunk_id /\
    Chunk.status chunk = ChunkStatus.PENDING /\
    Chunk.model_identity_hash chunk = current_model st /\
    Chunk.document_count chunk = Z.of_nat (length documents) /\
    _chunk_counter st' = _chunk_counter st + 1 /\
    documents_json (disk st') = <[chunk_id := documents]> (documents_json (disk st)) /\
    manifest_json (disk st') = <[chunk_id := Mapping chunk]> (manifest_json (disk st)) /\
    chunk_registry st' =
      Dict.set "_counter" (Scalar (_chunk_counter st + 1))
        (Dict.set chunk_id (Mapping chunk) (chunk_registry st)) /\
    chunk_registry_json (disk st') = Parsed (chunk_registry st') /\
    adapters_view st' = adapters_view st /\
    _lora_counter st' = _lora_counter st.
Proof.
  unfold create_chunk, mbind, M_bind, get_state. cbn.
  eexists _, _. split; [reflexivity|]. cbn. by split_and!.
Qed.

Lemma final_discard {A} (m : M A) st : final ((m ;; mret tt) st) = final (m st).
Proof. unfold mbind, M_bind. by destruct (m st). Qed.

Lemma exec_keeps_documents o st :
  (forall d c m, o <> CreateChunk d c m) ->
  documents_view (final (exec o st)) = documents_view st.
Proof.
  intros Hne. destruct o; unfold exec; rewrite ?final_discard.
  - apply keeps_documents_register_model.
  - apply keeps_documents_detect_model_change.
  - apply keeps_documents_handle_model_switch.
  - by exfalso; eapply Hne.
  - apply (keeps_documents_mark Training).
  - apply (keeps_documents_mark (Trained _)).
  - apply (keeps_documents_mark (Failed _)).
  - apply (keeps_documents_mark Restored).
  - apply keeps_documents_get_chunks_by_status.
  - apply keeps_documents_get_untrained_chunks.
  - apply keeps_documents_get_restorable_chunks.
  - apply keeps_documents_register_lora.
  - apply keeps_documents_get_all_loras.
  - apply keeps_documents_mark_lora_unusable.
  - apply keeps_documents_delete_lora.
  - apply keeps_documents_restore_chunks_to_rag.
Qed.

Lemma run_keeps_documents ops : forall st n documents,
  n <= _chunk_counter st ->
  documents_json (disk st) !! ("chunk_" +:+ Py.format_04d n) = Some documents ->
  documents_json (disk (run ops st)) !! ("chunk_" +:+ Py.format_04d n) = Some documents.
Proof.
  induction ops as [|o ops IH]; intros st n documents Hn Hdocs; [done|].
  cbn [run].
  assert (Hcase : (exists d c m, o = CreateChunk d c m) \/
                  (forall d c m, o <> CreateChunk d c m))
    by (destruct o; first [by left; eauto | by right]).
  destruct Hcase as [(d & c & m & ->)|Hno].
  - unfold exec. rewrite final_discard.
    destruct (create_chunk_run d c m st) as (chunk & st' & -> & _ & _ & _ & _ & Hc & Hd & _).
    cbn [final]. apply IH; [lia|]. rewrite Hd, lookup_insert_ne; [done|].
    intros H%chunk_id_inj. lia.
  - pose proof (exec_keeps_documents o st Hno) as Hkeep.
    unfold documents_view in Hkeep. injection Hkeep as Hd Hc.
    apply IH; [lia | by rewrite Hd].
Qed.

(** C8.  A chunk made by [create_chunk] keeps its documents: after any
    sequence of operations of the core, failed ones included,
    [get_chunk_documents] returns the list that was passed to
    [create_chunk], in the same order and with every field.  No operation
    archives a chunk or deletes its documents. *)
Theorem documents_preserved (documents : list document) (character : option string)
    (metadata : option document) (st : State) (ops : list op) :
  exists chunk st',
    create_chunk documents character metadata st = Ok chunk st' /\
    get_chunk_documents (Chunk.chunk_id chunk) (run ops st') = Some documents.
Proof.
  destruct (create_chunk_run documents character metadata st)
    as (chunk & st' & Hrun & Hid & _ & _ & _ & Hc & Hd & _).
  exists chunk, st'. split; [done|]. simpl in *.
  unfold get_chunk_documents. rewrite Hid. apply run_keeps_documents; [lia|].
  rewrite Hd. apply lookup_insert_eq.
Qed.

(** ** The value of [model_changed] *)

(** C6, at the first registration.  On a manager that has never registered a
    model, [register_model] returns, reports the model as new, and its
    [model_changed] is Python's [None], the value of
    [previous_model and ...] for a missing [previous_model]: falsy, but not
    the boolean [False].  [detect_model_change], which tests
    [self.current_model is not None], answers [False] in the same state. *)
Theorem register_model_first_call_model_changed (model_path : string)
    (friendly_name : option string) (clock0 : nat) :
  let st := __init__ empty_disk clock0 in
  exists r st',
    register_model model_path friendly_name st = Ok r st' /\
    rr_previous_model r = None /\
    rr_is_new r = true /\
    rr_model_changed r = Py.None_ /\
    rr_model_changed r <> Py.Bool false /\
    exists d st'', detect_model_change model_path st = Ok d st'' /\ dr_changed d = false.
Proof.
  intros st.
  destruct (register_model_run model_path friendly_name st)
    as (r & st' & Hrun & _ & Hprev & Hchanged & Hnew & _).
  exists r, st'. rewrite Hprev, Hchanged, Hnew. split_and!; try done.
  unfold detect_model_change, mbind, M_bind, get_state. cbn.
  by eexists _, _.
Qed.

(** ** Start-up on an unparseable registry *)

(** C7, as the module behaves.  When [chunk_registry.json] exists and cannot
    be parsed, the manager starts with an empty chunk registry, so that
    listing the chunks returns the empty list, and starting leaves the data
    directory, the corrupt file included, as it was.  Writes are not gated:
    the next [create_chunk] returns and rewrites the file with the registry
    in memory, the new chunk and the counter. *)
Theorem unparseable_registry_startup (d : Disk) (raw : string) (clock0 : nat) :
  chunk_registry_json d = Unparseable raw ->
  let st := __init__ d clock0 in
  chunk_registry st = [] /\
  disk st = d /\
  (forall status model_hash, get_chunks_by_status status model_hash st = Ok [] st) /\
  (forall documents character metadata,
     exists chunk st',
       create_chunk documents character metadata st = Ok chunk st' /\
       Chunk.chunk_id chunk = "chunk_0001" /\
       chunk_registry_json (disk st') =
         Parsed [("chunk_0001", Mapping chunk); ("_counter", Scalar 1)]).
Proof.
  intros Hfile st.
  assert (Hreg : chunk_registry st = []).
  { unfold st, __init__. simpl. by rewrite Hfile. }
  assert (Hctr : _chunk_counter st = 0).
  { unfold st, __init__. simpl. by rewrite Hfile. }
  split_and!; try done.
  - intros status model_hash.
    unfold get_chunks_by_status, mbind, M_bind, get_state. rewrite Hreg. simpl.
    unfold modify. f_equal. rewrite <- Hreg. by destruct st.
  - intros documents character metadata.
    destruct (create_chunk_run documents character metadata st)
      as (chunk & st' & Hrun & Hid & _ & _ & _ & _ & _ & _ & Hreg' & Hfile' & _).
    exists chunk, st'. simpl in *. rewrite Hctr in *. rewrite Hreg in Hreg'.
    split_and!; try done. by rewrite Hfile', Hreg'.
Qed.

(** ** Adapter-model coupling *)

Lemma keeps_adapters_update_chunk_status chunk_id status details :
  keeps adapters_view (_update_chunk_status chunk_id status details).
Proof. unfold _update_chunk_status. keeps_unfold. repeat keeps_step. Qed.

Lemma keeps_adapters_mark m chunk_id : keeps adapters_view (mark_chunk m chunk_id).
Proof.
  destruct m; simpl;
    unfold mark_chunk_training, mark_chunk_trained, mark_chunk_failed,
      mark_chunk_restored;
    repeat keeps_step; apply keeps_adapters_update_chunk_status.
Qed.

Lemma keeps_adapters_detect_model_change model_path :
  keeps adapters_view (detect_model_change model_path).
Proof. unfold detect_model_change. repeat keeps_step. Qed.

Lemma keeps_adapters_create_chunk documents character metadata :
  keeps adapters_view (create_chunk documents character metadata).
Proof. unfold create_chunk. keeps_unfold. repeat keeps_step. Qed.

Lemma keeps_adapters_get_restorable_chunks model_identity_hash :
  keeps adapters_view (get_restorable_chunks model_identity_hash).
Proof. unfold get_restorable_chunks. repeat keeps_step. Qed.

Lemma keeps_adapters_get_chunks_by_status status model_hash :
  keeps adapters_view (get_chunks_by_status status model_hash).
Proof. unfold get_chunks_by_status. repeat keeps_step. Qed.

Lemma keeps_adapters_get_untrained_chunks : keeps adapters_view get_untrained_chunks.
Proof. unfold get_untrained_chunks. repeat keeps_step. Qed.

Lemma keeps_adapters_restore_loop chunk_ids :
  forall all_documents restored failed,
  keeps adapters_view (restore_loop chunk_ids all_documents restored failed).
Proof.
  induction chunk_ids as [|c rest IH]; intros; simpl; repeat keeps_step;
    try apply (keeps_adapters_mark Restored); apply IH.
Qed.

Lemma keeps_adapters_restore_chunks_to_rag chunk_ids :
  keeps adapters_view (restore_chunks_to_rag chunk_ids).
Proof.
  unfold restore_chunks_to_rag. keeps_unfold. repeat keeps_step.
  all: first [ apply keeps_adapters_get_restorable_chunks
             | apply keeps_adapters_restore_loop ].
Qed.

Lemma wp_keeps {V A} (view : State -> V) (m : M A) Q E st :
  keeps view m ->
  (forall a st', view st' = view st -> Q a st') ->
  (forall e st', view st' = view st -> E e st') ->
  wp m Q E st.
Proof.
  intros Hkeep HQ HE. specialize (Hkeep st). unfold wp.
  destruct (m st); simpl in Hkeep; eauto.
Qed.

Lemma adapters_inv_view st st' :
  adapters_view st' = adapters_view st -> adapters_inv st -> adapters_inv st'.
Proof.
  unfold adapters_view. intros [= Hl Hc] []. split; rewrite ?Hl, ?Hc; done.
Qed.

Lemma dict_mem_keys {V} k (d : dict V) : Dict.mem k d = true <-> k ∈ Dict.keys d.
Proof.
  rewrite dict_mem_get. split.
  - intros [v Hv]. by eapply dict_get_Some_keys.
  - intros Hin. destruct (Dict.get k d) eqn:Hget; [by eexists|].
    by apply dict_get_None_keys in Hget.
Qed.

Lemma persisted_keys {R} (d d' : dict (entry R)) :
  Dict.keys d' = Dict.keys d -> persisted d -> persisted d'.
Proof.
  intros Hkeys [->|Hmem].
  - left. unfold Dict.keys in Hkeys. by destruct d'.
  - right. apply dict_mem_keys. rewrite Hkeys. by apply dict_mem_keys.
Qed.

(** Saving a registry in which one record was replaced. *)
Lemma adapters_inv_replace st st' k r' n :
  adapters_inv st ->
  lora_registry st' =
    Dict.set "_counter" (Scalar n) (Dict.set k (Mapping r') (lora_registry st)) ->
  current_model st' = current_model st ->
  (LoRA.status r' = "active" \/ LoRA.status r' = "unusable" \/ LoRA.status r' = "deleted") ->
  (LoRA.status r' = "active" ->
   LoRA.model_identity_hash r' = current_model st \/ LoRA.model_identity_hash r' = None) ->
  adapters_inv st'.
Proof.
  intros [Hwf Hp Hc Hs Hb] Hreg Hcur Hs' Hb'.
  assert (Hget : forall k0 r0, Dict.get k0 (lora_registry st') = Some (Mapping r0) ->
            Py.startswith_underscore k0 = false ->
            (k0 = k /\ r0 = r') \/ Dict.get k0 (lora_registry st) = Some (Mapping r0)).
  { intros k0 r0 Hg Hu. rewrite Hreg in Hg.
    rewrite dict_get_set_ne in Hg
      by (intros <-; by rewrite startswith_underscore_counter in Hu).
    destruct (decide (k0 = k)) as [->|].
    - rewrite dict_get_set_eq in Hg. left. by injection Hg as ->.
    - rewrite dict_get_set_ne in Hg by done. by right. }
  split.
  - rewrite Hreg. by do 2 apply dict_wf_set.
  - rewrite Hreg. apply persisted_set_counter.
  - by rewrite Hcur.
  - intros k0 r0 Hg Hu. destruct (Hget k0 r0 Hg Hu) as [[-> ->]|Hg']; eauto.
  - intros k0 r0 Hg Hu Ha. rewrite Hcur.
    destruct (Hget k0 r0 Hg Hu) as [[-> ->]|Hg']; eauto.
Qed.

Ltac wp_step :=
  lazymatch goal with
  | |- wp (mbind _ _) _ _ _ => apply wp_bind
  | |- wp (mret _) _ _ _ => apply wp_ret
  | |- wp get_state _ _ _ => apply wp_get
  | |- wp (modify _) _ _ _ => apply wp_modify
  | |- wp now _ _ _ => apply wp_now
  | |- wp (raise _) _ _ _ => apply wp_raise
  | |- wp (let _ := _ in _) _ _ _ => cbv zeta
  end.

Lemma mark_lora_unusable_inv lora_id reason st st' :
  adapters_inv st -> mark_lora_unusable lora_id reason st = Ok tt st' -> adapters_inv st'.
Proof.
  intros Hinv Hrun. destruct (Dict.get lora_id (lora_registry st)) as [[r|n]|] eqn:Hget.
  - destruct (mark_lora_unusable_mapping lora_id reason st r Hget)
      as (st1 & Hrun1 & Hreg & _ & _ & _ & _ & Hf).
    rewrite Hrun1 in Hrun. injection Hrun as <-.
    eapply adapters_inv_replace; eauto; [apply Hf|done].
  - unfold mark_lora_unusable, mbind, M_bind, get_state in Hrun. by rewrite Hget in Hrun.
  - rewrite mark_lora_unusable_absent in Hrun by done. by injection Hrun as <-.
Qed.

Lemma delete_lora_effect lora_id delete_files st :
  wp (delete_lora lora_id delete_files)
    (fun b st' =>
       st' = st \/
       exists r t,
         lora_registry st' =
           Dict.set "_counter" (Scalar (_lora_counter st))
             (Dict.set lora_id
                (Mapping (LoRA.set_deleted_at (Some t) (LoRA.set_status "deleted" r)))
                (lora_registry st)) /\
         current_model st' = current_model st /\
         _lora_counter st' = _lora_counter st /\
         chunk_registry st' = chunk_registry st /\
         _chunk_counter st' = _chunk_counter st)
    (fun _ st' => st' = st) st.
Proof.
  unfold delete_lora. apply wp_bind, wp_get.
  destruct (Dict.get lora_id (lora_registry st)) as [[r|n]|].
  - apply wp_bind.
    assert (Hend : forall st1,
      lora_registry st1 = lora_registry st -> _lora_counter st1 = _lora_counter st ->
      current_model st1 = current_model st ->
      chunk_registry st1 = chunk_registry st -> _chunk_counter st1 = _chunk_counter st ->
      wp (t ← now;
          modify (fun st0 => set_lora_registry
                    (Dict.set lora_id
                       (Mapping (LoRA.set_deleted_at (Some t) (LoRA.set_status "deleted" r)))
                       (lora_registry st0)) st0);;
          _save_lora_registry;;
          _log_operation (Log.lora_deleted lora_id delete_files);; mret true)
        (fun _ st' =>
           st' = st \/
           exists r t,
             lora_registry st' =
               Dict.set "_counter" (Scalar (_lora_counter st))
                 (Dict.set lora_id
                    (Mapping (LoRA.set_deleted_at (Some t) (LoRA.set_status "deleted" r)))
                    (lora_registry st)) /\
             current_model st' = current_model st /\
         _lora_counter st' = _lora_counter st /\
         chunk_registry st' = chunk_registry st /\
         _chunk_counter st' = _chunk_counter st)
        (fun _ st' => st' = st) st1).
    { intros st1 Hl Hc Hm Hcr Hcc. unfold _save_lora_registry, _log_operation.
      repeat wp_step. right. eexists _, _. simpl. rewrite Hl, Hc, Hm, Hcr, Hcc. done. }
    destruct (LoRA.path r) as [p|]; [destruct (_ && _)|]; wp_step; by apply Hend.
  - destruct delete_files; by wp_step.
  - wp_step. by left.
Qed.

Lemma delete_lora_inv lora_id delete_files st b st' :
  adapters_inv st -> delete_lora lora_id delete_files st = Ok b st' -> adapters_inv st'.
Proof.
  intros Hinv Hrun. pose proof (delete_lora_effect lora_id delete_files st) as Hwp.
  unfold wp in Hwp. rewrite Hrun in Hwp.
  destruct Hwp as [->|(r & t & Hreg & Hcur & _)]; [done|].
  eapply adapters_inv_replace; [exact Hinv | exact Hreg | exact Hcur | simpl; auto | by simpl].
Qed.

Lemma register_lora_effect chunk_ids lora_path training_config metrics st :
  wp (register_lora chunk_ids lora_path training_config metrics)
    (fun _ st' =>
       exists record,
         lora_registry st' =
           Dict.set "_counter" (Scalar (_lora_counter st + 1))
             (Dict.set ("lora_" +:+ Py.format_04d (_lora_counter st + 1))
                (Mapping record) (lora_registry st)) /\
         LoRA.status record = "active" /\
         LoRA.model_identity_hash record = current_model st /\
         current_model st' = current_model st)
    (fun _ _ => True) st.
Proof.
  unfold register_lora. unfold _save_lora_registry, _save_model_registry.
  repeat wp_step. cbn [current_model set_lora_counter _lora_counter model_registry].
  assert (Hrest : forall st1 record,
    lora_registry st1 =
      Dict.set "_counter" (Scalar (_lora_counter st + 1))
        (Dict.set ("lora_" +:+ Py.format_04d (_lora_counter st + 1))
           (Mapping record) (lora_registry st)) ->
    LoRA.status record = "active" ->
    LoRA.model_identity_hash record = current_model st ->
    current_model st1 = current_model st ->
    forall details (result : LoRA.t),
    wp (for_each chunk_ids
          (fun chunk_id => mark_chunk_trained chunk_id
             ("lora_" +:+ Py.format_04d (_lora_counter st + 1))))
       (fun _ =>
          wp (_log_operation details ;; mret result)
            (fun _ st' =>
               exists record,
                 lora_registry st' =
                   Dict.set "_counter" (Scalar (_lora_counter st + 1))
                     (Dict.set ("lora_" +:+ Py.format_04d (_lora_counter st + 1))
                        (Mapping record) (lora_registry st)) /\
                 LoRA.status record = "active" /\
                 LoRA.model_identity_hash record = current_model st /\
                 current_model st' = current_model st)
            (fun _ _ => True))
       (fun _ _ => True) st1).
  { intros st1 record Hl Hs Hm Hc details result.
    apply (wp_keeps adapters_view); [|intros _ st2 [= Hl2 Hc2]|done].
    { apply keeps_for_each. intros c. apply (keeps_adapters_mark (Trained _)). }
    unfold _log_operation. repeat wp_step. exists record. simpl.
    rewrite Hl2, Hc2. by split_and!. }
  destruct (current_model st) as [current|] eqn:Hcur; rewrite ?Hcur in Hrest;
    cbn [mbind option_bind];
    [destruct (Dict.get current _)|]; repeat wp_step; eapply Hrest; simpl; done.
Qed.

Lemma register_lora_inv chunk_ids lora_path training_config metrics st r st' :
  adapters_inv st ->
  register_lora chunk_ids lora_path training_config metrics st = Ok r st' ->
  adapters_inv st'.
Proof.
  intros Hinv Hrun.
  pose proof (register_lora_effect chunk_ids lora_path training_config metrics st) as Hwp.
  unfold wp in Hwp. rewrite Hrun in Hwp. destruct Hwp as (record & Hreg & Hs & Hm & Hc).
  eapply adapters_inv_replace; eauto.
Qed.

Lemma all_loras_scan_get include_deleted items :
  (all_loras_scan include_deleted items).1.*1 = items.*1 /\
  forall k,
    match Dict.get k items with
    | Some (Mapping r) =>
        exists r', Dict.get k (all_loras_scan include_deleted items).1 = Some (Mapping r') /\
          LoRA.status r' = LoRA.status r /\
          LoRA.model_identity_hash r' = LoRA.model_identity_hash r
    | other => Dict.get k (all_loras_scan include_deleted items).1 = other
    end.
Proof.
  induction items as [|[k0 e] items [IHk IH]]; [done|].
  simpl. destruct (all_loras_scan include_deleted items) as [rest' loras] eqn:Hscan.
  simpl in IHk, IH.
  assert (Hsame : ((k0, e) :: rest').*1 = k0 :: items.*1 /\
    forall k,
      match (if decide (k = k0) then Some e else Dict.get k items) with
      | Some (Mapping r) =>
          exists r', Dict.get k ((k0, e) :: rest') = Some (Mapping r') /\
            LoRA.status r' = LoRA.status r /\
            LoRA.model_identity_hash r' = LoRA.model_identity_hash r
      | other => Dict.get k ((k0, e) :: rest') = other
      end).
  { split; [simpl; by f_equal|]. intros k. simpl. destruct (decide (k = k0)); [|apply IH].
    destruct e; eauto. }
  destruct (Py.startswith_underscore k0); [done|].
  destruct e as [r|n]; [|done].
  destruct (negb include_deleted && _); [done|].
  split; [simpl; by f_equal|]. intros k. simpl.
  destruct (decide (k = k0)); [|apply IH]. by eexists.
Qed.

Lemma get_all_loras_inv include_deleted st l st' :
  adapters_inv st -> get_all_loras include_deleted st = Ok l st' -> adapters_inv st'.
Proof.
  intros [Hwf Hp Hc Hs Hb] Hrun.
  unfold get_all_loras, mbind, M_bind, get_state in Hrun. simpl in Hrun.
  destruct (all_loras_scan_get include_deleted (lora_registry st)) as [Hkeys Hget].
  destruct (all_loras_scan include_deleted (lora_registry st)) as [registry loras].
  simpl in *. injection Hrun as _ <-. simpl.
  assert (Hback : forall k r', Dict.get k registry = Some (Mapping r') ->
            exists r, Dict.get k (lora_registry st) = Some (Mapping r) /\
              LoRA.status r' = LoRA.status r /\
              LoRA.model_identity_hash r' = LoRA.model_identity_hash r).
  { intros k r' Hg. specialize (Hget k).
    destruct (Dict.get k (lora_registry st)) as [[r|n]|].
    - destruct Hget as (r0 & Hg0 & ? & ?). rewrite Hg in Hg0. injection Hg0 as <-. eauto.
    - by rewrite Hg in Hget.
    - by rewrite Hg in Hget. }
  split; simpl.
  - unfold Dict.wf, Dict.keys. by rewrite Hkeys.
  - by apply (persisted_keys (lora_registry st)).
  - done.
  - intros k r' Hg Hu. destruct (Hback k r' Hg) as (r & Hr & -> & _). eauto.
  - intros k r' Hg Hu. destruct (Hback k r' Hg) as (r & Hr & -> & ->). eauto.
Qed.

Lemma model_changed_truthy previous identity_hash :
  Py.truthy (model_changed_value previous identity_hash) = true <->
  exists p, previous = Some p /\ p <> "" /\ p <> identity_hash.
Proof.
  unfold model_changed_value, Py.and_. destruct previous as [p|]; simpl.
  - destruct (String.eqb_spec p "") as [->|Hp]; simpl.
    + split; [done|]. by intros (? & [= <-] & ? & _).
    + case_bool_decide as Hd; simpl.
      * split; [done|]. intros (? & [= <-] & _ & ?). congruence.
      * split; [|done]. intros _. exists p. split_and!; try done. by intros ->.
  - split; [done|]. by intros (? & ? & _).
Qed.

Lemma handle_model_switch_same new_model_path friendly_name st :
  Py.truthy (model_changed_value (current_model st) (hash_of new_model_path st)) = false ->
  exists message reg st',
    handle_model_switch new_model_path friendly_name st = Ok (Same message reg) st' /\
    lora_registry st' = lora_registry st /\
    current_model st' = Some (hash_of new_model_path st).
Proof.
  intros Hfalse.
  destruct (register_model_run new_model_path friendly_name st)
    as (reg & st1 & Hreg & _ & _ & Hchanged & _ & Hcur1 & _ & _ & Hf1).
  unfold handle_model_switch. unfold mbind at 1. unfold M_bind, get_state.
  unfold mbind at 1. unfold M_bind. rewrite Hreg, Hchanged, Hfalse. simpl.
  eexists _, _, _. split; [reflexivity|]. split; [apply Hf1|done].
Qed.

Lemma handle_model_switch_inv new_model_path friendly_name st res st' :
  adapters_inv st ->
  handle_model_switch new_model_path friendly_name st = Ok res st' ->
  adapters_inv st'.
Proof.
  intros Hinv Hrun. pose proof Hinv as [Hwf Hp Hc Hs Hb].
  assert (Hhash : hash_of new_model_path st <> "") by apply identity_hash_nonempty.
  destruct (Py.truthy (model_changed_value (current_model st) (hash_of new_model_path st)))
    eqn:Hch.
  - apply model_changed_truthy in Hch as (p & Hcur & Hpne & Hne).
    destruct (handle_model_switch_switched new_model_path friendly_name p st)
      as (summary & st1 & Hrun1 & _ & _ & _ & Hkeys & Hcur' & Hm & Hu); try done.
    rewrite Hrun1 in Hrun. injection Hrun as _ <-.
    assert (Hback : forall k r', Dict.get k (lora_registry st1) = Some (Mapping r') ->
              Py.startswith_underscore k = false ->
              LoRA.status r' = "unusable" \/
              (Dict.get k (lora_registry st) = Some (Mapping r') /\
               bound_active p r' = false)).
    { intros k r' Hg Hus.
      assert (k <> "_counter")
        by (intros ->; by rewrite startswith_underscore_counter in Hus).
      destruct (to_invalidate p (lora_registry st) k) eqn:Hinval.
      - destruct (to_invalidate_true _ _ _ Hinval) as (_ & _ & r & Hr & _).
        destruct (Hm k r Hinval Hr) as [t Ht]. rewrite Hg in Ht. injection Ht as ->.
        by left.
      - rewrite (Hu k) in Hg by done. right. split; [done|].
        unfold to_invalidate in Hinval. by rewrite Hg, Hus in Hinval. }
    split.
    + unfold Dict.wf. by rewrite Hkeys.
    + by apply (persisted_keys (lora_registry st)).
    + rewrite Hcur'. by intros [= ?].
    + intros k r' Hg Hus. destruct (Hback k r' Hg Hus) as [->|[Hg' _]]; eauto.
    + intros k r' Hg Hus Ha. destruct (Hback k r' Hg Hus) as [Hun|[Hg' Hnb]].
      { rewrite Ha in Hun. done. }
      right. destruct (Hb k r' Hg' Hus Ha) as [Hbound|Hnone]; [|done].
      unfold bound_active in Hnb. rewrite Hbound, Hcur, Ha in Hnb.
      by rewrite !bool_decide_eq_true_2 in Hnb.
  - destruct (handle_model_switch_same new_model_path friendly_name st Hch)
      as (message & reg & st1 & Hrun1 & Hl & Hcur').
    rewrite Hrun1 in Hrun. injection Hrun as _ <-.
    split; rewrite ?Hl; try done.
    + rewrite Hcur'. by intros [= ?].
    + intros k r Hg Hus Ha. rewrite Hcur'.
      destruct (Hb k r Hg Hus Ha) as [Hbound|Hnone]; [|by right].
      destruct (current_model st) as [p|] eqn:Hcur; [|by right].
      left. rewrite Hbound. f_equal.
      destruct (decide (p = hash_of new_model_path st)) as [|Hne]; [done|].
      assert (Py.truthy (model_changed_value (Some p) (hash_of new_model_path st)) = true).
      { apply model_changed_truthy. exists p. split_and!; try done. by intros ->. }
      congruence.
Qed.

Lemma exec_discard {A} (m : M A) st st' :
  (m ;; mret tt) st = Ok tt st' -> exists a, m st = Ok a st'.
Proof.
  unfold mbind, M_bind. destruct (m st) as [a st1|e st1]; [|done].
  intros [= <-]. by exists a.
Qed.

Lemma keeps_ok {V A} (view : State -> V) (m : M A) st a st' :
  keeps view m -> m st = Ok a st' -> view st' = view st.
Proof. intros Hkeep Hrun. specialize (Hkeep st). by rewrite Hrun in Hkeep. Qed.

Lemma exec_preserves_inv o st st' :
  through_switch o = true ->
  adapters_inv st -> exec o st = Ok tt st' -> adapters_inv st'.
Proof.
  intros Hallowed Hinv Hrun. destruct o; unfold exec in Hrun; try done.
  - apply exec_discard in Hrun as [a Hrun].
    eapply adapters_inv_view; [|done].
    by eapply keeps_ok; [apply keeps_adapters_detect_model_change|].
  - apply exec_discard in Hrun as [a Hrun]. by eapply handle_model_switch_inv.
  - apply exec_discard in Hrun as [a Hrun].
    eapply adapters_inv_view; [|done].
    by eapply keeps_ok; [apply keeps_adapters_create_chunk|].
  - eapply adapters_inv_view; [|done].
    by eapply keeps_ok; [apply (keeps_adapters_mark Training)|].
  - eapply adapters_inv_view; [|done].
    by eapply keeps_ok; [apply (keeps_adapters_mark (Trained lora_id))|].
  - eapply adapters_inv_view; [|done].
    by eapply keeps_ok; [apply (keeps_adapters_mark (Failed error))|].
  - eapply adapters_inv_view; [|done].
    by eapply keeps_ok; [apply (keeps_adapters_mark Restored)|].
  - apply exec_discard in Hrun as [a Hrun].
    eapply adapters_inv_view; [|done].
    by eapply keeps_ok; [apply keeps_adapters_get_chunks_by_status|].
  - apply exec_discard in Hrun as [a Hrun].
    eapply adapters_inv_view; [|done].
    by eapply keeps_ok; [apply keeps_adapters_get_untrained_chunks|].
  - apply exec_discard in Hrun as [a Hrun].
    eapply adapters_inv_view; [|done].
    by eapply keeps_ok; [apply keeps_adapters_get_restorable_chunks|].
  - apply exec_discard in Hrun as [a Hrun]. by eapply register_lora_inv.
  - apply exec_discard in Hrun as [a Hrun]. by eapply get_all_loras_inv.
  - by eapply mark_lora_unusable_inv.
  - apply exec_discard in Hrun as [a Hrun]. by eapply delete_lora_inv.
  - apply exec_discard in Hrun as [a Hrun].
    eapply adapters_inv_view; [|done].
    by eapply keeps_ok; [apply keeps_adapters_restore_chunks_to_rag|].
Qed.

Lemma reachable_adapters_inv st : reachable through_switch st -> adapters_inv st.
Proof.
  induction 1 as [clock0|o st st' _ IH Hallowed Hrun].
  - split; simpl; try done.
    + apply NoDup_nil_2.
    + by left.
  - by eapply exec_preserves_inv.
Qed.

(** C4, as the module behaves.  In every state that a manager started on an
    empty data directory reaches through operations that return normally,
    the model being registered through [handle_model_switch] (not through a
    bare [register_model]), every adapter record that is not deleted and is
    bound to a model is bound to the current model or unusable. *)
Theorem coupling_of_bound_adapters (st : State) :
  reachable through_switch st -> bound_adapter_coupling st.
Proof.
  intros [Hwf _ _ Hs Hb]%reachable_adapters_inv lora_id r [Hin Hus] Hdel Hbound.
  apply dict_elem_of_get in Hin; [|done].
  destruct (Hs lora_id r Hin Hus) as [Ha|[Hun|Hd]]; [|by right|done].
  destruct (Hb lora_id r Hin Hus Ha) as [Hcur|Hnone]; [by left|done].
Qed.

(** ** File checksums *)

Import ModelFingerprint.

Lemma read_loop_unfold chunk_size f h :
  read_loop chunk_size f h =
  match read chunk_size f with
  | ([], _) => h
  | (b :: data, f') => read_loop chunk_size f' (update h (b :: data))
  end.
Proof.
  simp read_loop.
  assert (Hclause : forall r : { b | read chunk_size f = b },
    read_loop_unfold_clause_1 chunk_size f r h =
    match proj1_sig r with
    | ([], _) => h
    | (b :: data, f') => read_loop chunk_size f' (update h (b :: data))
    end).
  { intros [[[|b data] f1] E]; reflexivity. }
  apply Hclause.
Qed.

Lemma take_drop_length {A} k (l : list A) : take k l ++ drop (length (take k l)) l = l.
Proof.
  rewrite length_take. destruct (decide (k <= length l)%nat).
  - rewrite Nat.min_l by done. apply take_drop.
  - rewrite Nat.min_r by lia. rewrite take_ge, drop_all by lia. apply app_nil_r.
Qed.

Lemma read_loop_blocks chunk_size :
  0 < chunk_size ->
  forall n f h, remaining f = n ->
  name (read_loop chunk_size f h) = name h /\
  exists blocks,
    updates (read_loop chunk_size f h) = updates h ++ blocks /\
    concat blocks = drop (position f) (content f) /\
    Forall (fun b => 0 < Z.of_nat (length b) <= chunk_size) blocks /\
    (forall i b, blocks !! i = Some b -> (S i < length blocks)%nat ->
       Z.of_nat (length b) = chunk_size).
Proof.
  intros Hcs n. induction (lt_wf n) as [n _ IH]. intros f h Hn.
  rewrite read_loop_unfold. unfold read.
  destruct (Z.ltb_spec chunk_size 0) as [|_]; [lia|].
  set (rest := drop (position f) (content f)).
  destruct (take (Z.to_nat chunk_size) rest) as [|b data] eqn:Htake.
  - split; [done|]. exists []. rewrite app_nil_r. split_and!; try done.
    destruct rest as [|x rest']; [done|].
    destruct (Z.to_nat chunk_size) eqn:Hk; [lia|done].
  - set (f' := {| content := content f;
                  position := position f + length (b :: data) |}).
    assert (Hlen : (length (b :: data) <= length rest)%nat).
    { rewrite <- Htake, length_take. lia. }
    assert (Hrest : length rest = remaining f).
    { unfold rest, remaining. by rewrite length_drop. }
    destruct (IH (remaining f')) with (f := f') (h := update h (b :: data))
      as (Hname & blocks & Hup & Hcat & Hall & Hfull); [|done|].
    { unfold f', remaining in *. simpl in *. lia. }
    split; [by rewrite Hname|].
    exists ((b :: data) :: blocks).
    assert (Hdrop : drop (position f') (content f') = drop (length (b :: data)) rest).
    { unfold f', rest. simpl position. simpl content. by rewrite drop_drop. }
    split_and!.
    + rewrite Hup. simpl. by rewrite <- app_assoc.
    + change (concat ((b :: data) :: blocks)) with ((b :: data) ++ concat blocks).
      rewrite Hcat, Hdrop, <- Htake. apply take_drop_length.
    + constructor; [|done]. split; [simpl; lia|].
      rewrite <- Htake, length_take. lia.
    + intros [|i] b' Hb Hi; simpl in Hb.
      * injection Hb as <-.
        destruct blocks as [|blk blocks']; [simpl in Hi; lia|].
        apply Forall_cons in Hall as [Hblk _].
        assert (Hmore : (0 < length (drop (length (b :: data)) rest))%nat).
        { rewrite <- Hdrop, <- Hcat. simpl. rewrite length_app. lia. }
        rewrite length_drop in Hmore.
        rewrite <- Htake, length_take in Hmore |- *. lia.
      * apply (Hfull i b' Hb). simpl in Hi. lia.
Qed.

Lemma streamed_blocks file algorithm chunk_size :
  0 < chunk_size ->
  name (streamed file algorithm chunk_size) = algorithm /\
  concat (updates (streamed file algorithm chunk_size)) = file /\
  Forall (fun b => 0 < Z.of_nat (length b) <= chunk_size)
    (updates (streamed file algorithm chunk_size)) /\
  (forall i b, updates (streamed file algorithm chunk_size) !! i = Some b ->
     (S i < length (updates (streamed file algorithm chunk_size)))%nat ->
     Z.of_nat (length b) = chunk_size).
Proof.
  intros Hcs. unfold streamed.
  destruct (read_loop_blocks chunk_size Hcs _ (open file) (new algorithm) eq_refl)
    as (Hname & blocks & Hup & Hcat & Hall & Hfull).
  simpl in Hup, Hcat. rewrite Hup. by split_and!.
Qed.

(** C9.  With its default arguments, [compute_file_checksum] returns, for a
    file of at most 10 GiB, the SHA-256 digest of the bytes of the file, fed
    to the hash in blocks of 8 MiB (the last one may be shorter); for a
    larger file it returns the literal [partial_] followed by the digest of
    three windows of 64 MiB, taken at the start, at the middle and at the
    end of the file, followed by the size in decimal. *)
Theorem compute_file_checksum_spec (digest : string -> bytes -> string) (file : bytes) :
  let size := getsize file in
  let window p := take (Z.to_nat (64 * 1024 * 1024)) (drop (Z.to_nat p) file) in
  default_algorithm = "sha256" /\
  default_chunk_size = 8 * 1024 * 1024 /\
  (size <= 10 * 1024 * 1024 * 1024 ->
   let blocks := updates (streamed file default_algorithm default_chunk_size) in
   compute_file_checksum digest file default_algorithm default_chunk_size =
     digest "sha256" file /\
   compute_file_checksum digest file default_algorithm default_chunk_size =
     digest "sha256" (concat blocks) /\
   Forall (fun b => 0 < Z.of_nat (length b) <= 8 * 1024 * 1024) blocks /\
   (forall i b, blocks !! i = Some b -> (S i < length blocks)%nat ->
      Z.of_nat (length b) = 8 * 1024 * 1024)) /\
  (size > 10 * 1024 * 1024 * 1024 ->
   compute_file_checksum digest file default_algorithm default_chunk_size =
     "partial_" +:+
     digest "sha256"
       (window 0 ++ window (size / 2) ++ window (size - 64 * 1024 * 1024) ++
        list_byte_of_string (Py.str size))).
Proof.
  intros size window.
  assert (Hchunk : default_chunk_size = 8 * 1024 * 1024) by reflexivity.
  split; [reflexivity|]. split; [done|]. split.
  - intros Hsmall blocks.
    destruct (streamed_blocks file default_algorithm default_chunk_size)
      as (Hname & Hcat & Hall & Hfull); [by rewrite Hchunk|].
    assert (Hsum : compute_file_checksum digest file default_algorithm default_chunk_size =
                   digest "sha256" (concat blocks)).
    { unfold compute_file_checksum. fold size.
      rewrite Z.gtb_ltb. destruct (Z.ltb_spec (10 * 1024 * 1024 * 1024) size); [lia|].
      unfold hexdigest. by rewrite Hname. }
    split_and!.
    + rewrite Hsum. unfold blocks. by rewrite Hcat.
    + done.
    + by rewrite <- Hchunk.
    + rewrite <- Hchunk. apply Hfull.
  - intros Hlarge. unfold compute_file_checksum. fold size.
    rewrite Z.gtb_ltb. destruct (Z.ltb_spec (10 * 1024 * 1024 * 1024) size); [|lia].
    unfold _compute_partial_checksum, read, seek, open, hexdigest, update, new.
    cbv beta iota zeta. cbn [content position name updates app concat].
    rewrite Z.max_r by lia.
    destruct (Z.ltb_spec (64 * 1024 * 1024) 0); [lia|].
    unfold window. rewrite app_nil_r. reflexivity.
Qed.

(** ** Well-formed registries *)

Lemma saved_persisted {R} (registry : dict (entry R)) counter :
  saved registry counter -> persisted registry.
Proof.
  intros [->|Hget]; [by left|]. right. apply dict_mem_get. by eexists.
Qed.

Lemma registries_inv_view st st' :
  registries_view st' = registries_view st -> registries_inv st -> registries_inv st'.
Proof.
  unfold registries_view. intros [= Hc Hcc Hl Hlc] []. split; congruence.
Qed.

Lemma stable_keeps {A} (m : M A) : keeps registries_view m -> stable m.
Proof. intros Hkeep st. apply registries_inv_view, Hkeep. Qed.

Lemma stable_ret {A} (a : A) : stable (mret a).
Proof. by intros st. Qed.

Lemma stable_raise {A} e : stable (raise (A := A) e).
Proof. by intros st. Qed.

Lemma stable_bind {A B} (m : M A) (f : A -> M B) :
  stable m -> (forall a, stable (f a)) -> stable (m ≫= f).
Proof.
  intros Hm Hf st Hinv. specialize (Hm st Hinv). unfold mbind, M_bind.
  destruct (m st) as [a st1|e st1]; simpl in *; [by apply Hf|done].
Qed.

Lemma stable_get {A} (f : State -> M A) :
  (forall st, stable (f st)) -> stable (get_state ≫= f).
Proof. intros Hf. apply stable_bind; [by intros st|done]. Qed.

Lemma stable_log details : stable (_log_operation details).
Proof. apply stable_keeps. unfold _log_operation. repeat keeps_step. Qed.

Lemma stable_register_model model_path friendly_name :
  stable (register_model model_path friendly_name).
Proof. apply stable_keeps. unfold register_model. keeps_unfold. repeat keeps_step. Qed.

Lemma stable_detect_model_change model_path : stable (detect_model_change model_path).
Proof. apply stable_keeps. unfold detect_model_change. repeat keeps_step. Qed.

(** Saving after one entry was set under a key other than [_counter]. *)
Lemma saved_set {R} (registry : dict (entry R)) counter k e :
  saved (Dict.set "_counter" (Scalar counter) (Dict.set k e registry)) counter.
Proof. right. apply dict_get_set_eq. Qed.

Lemma stable_mark m chunk_id : stable (mark_chunk m chunk_id).
Proof.
  intros st [Hcw Hcs Hlw Hls].
  destruct (Dict.get chunk_id (chunk_registry st)) as [[r|n]|] eqn:Hget.
  - destruct (mark_chunk_mapping m chunk_id st r Hget)
      as (st' & -> & Hreg & _ & _ & _ & _ & Hf).
    simpl in *. split.
    + rewrite Hreg. by do 2 apply dict_wf_set.
    + rewrite Hreg, (cf_chunk_counter _ _ Hf). apply saved_set.
    + by rewrite (cf_lora_registry _ _ Hf).
    + by rewrite (cf_lora_registry _ _ Hf), (cf_lora_counter _ _ Hf).
  - by destruct (mark_chunk_scalar m chunk_id st n Hget) as [e ->].
  - by rewrite mark_chunk_absent.
Qed.

Lemma mark_lora_unusable_scalar lora_id reason st n :
  Dict.get lora_id (lora_registry st) = Some (Scalar n) ->
  exists e, mark_lora_unusable lora_id reason st = Raise e st.
Proof.
  intros Hget. unfold mark_lora_unusable, mbind, M_bind, get_state.
  rewrite Hget. by eexists.
Qed.

Lemma stable_mark_lora_unusable lora_id reason : stable (mark_lora_unusable lora_id reason).
Proof.
  intros st [Hcw Hcs Hlw Hls].
  destruct (Dict.get lora_id (lora_registry st)) as [[r|n]|] eqn:Hget.
  - destruct (mark_lora_unusable_mapping lora_id reason st r Hget)
      as (st' & -> & Hreg & _ & _ & _ & _ & Hf).
    simpl in *. split.
    + by rewrite (lf_chunk_registry _ _ Hf).
    + by rewrite (lf_chunk_registry _ _ Hf), (lf_chunk_counter _ _ Hf).
    + rewrite Hreg. by do 2 apply dict_wf_set.
    + rewrite Hreg, (lf_lora_counter _ _ Hf). apply saved_set.
  - by destruct (mark_lora_unusable_scalar lora_id reason st n Hget) as [e ->].
  - by rewrite mark_lora_unusable_absent.
Qed.

Lemma stable_delete_lora lora_id delete_files : stable (delete_lora lora_id delete_files).
Proof.
  intros st Hinv. pose proof (delete_lora_effect lora_id delete_files st) as Hwp.
  unfold wp in Hwp. destruct (delete_lora lora_id delete_files st) as [b st'|e st'];
    simpl; [|by subst].
  destruct Hwp as [->|(r & t & Hreg & _ & Hlc & Hcr & Hcc)]; [done|].
  destruct Hinv as [Hcw Hcs Hlw Hls]. split.
  - by rewrite Hcr.
  - by rewrite Hcr, Hcc.
  - rewrite Hreg. by do 2 apply dict_wf_set.
  - rewrite Hreg, Hlc. apply saved_set.
Qed.

Lemma stable_create_chunk documents character metadata :
  stable (create_chunk documents character metadata).
Proof.
  intros st [Hcw Hcs Hlw Hls].
  destruct (create_chunk_run documents character metadata st)
    as (chunk & st' & -> & _ & _ & _ & _ & Hc & _ & _ & Hreg & _ & Hview & Hlc).
  simpl in *. injection Hview as Hl _. split.
  - rewrite Hreg. by do 2 apply dict_wf_set.
  - rewrite Hreg, Hc. apply saved_set.
  - by rewrite Hl.
  - by rewrite Hl, Hlc.
Qed.

Lemma listing_saved {R} (scan : dict (entry R) -> dict (entry R) * list R) items counter :
  listing scan -> saved items counter -> saved (scan items).1 counter.
Proof.
  intros Hscan Hsaved. destruct (Hscan items) as [Hkeys Hpriv].
  destruct Hsaved as [->|Hget].
  - left. by destruct (scan []).1.
  - right. by rewrite Hpriv.
Qed.

Lemma listing_wf {R} (scan : dict (entry R) -> dict (entry R) * list R) items :
  listing scan -> Dict.wf items -> Dict.wf (scan items).1.
Proof. intros Hscan. unfold Dict.wf. by rewrite (proj1 (Hscan items)). Qed.

Lemma listing_cons {R} k (e e' : entry R) rest rest' :
  Dict.keys rest' = Dict.keys rest ->
  (forall k', Py.startswith_underscore k' = true -> Dict.get k' rest' = Dict.get k' rest) ->
  Py.startswith_underscore k = false \/ e' = e ->
  Dict.keys ((k, e') :: rest') = Dict.keys ((k, e) :: rest) /\
  forall k', Py.startswith_underscore k' = true ->
    Dict.get k' ((k, e') :: rest') = Dict.get k' ((k, e) :: rest).
Proof.
  intros Hkeys Hpriv Hk. split; [simpl; by f_equal|]. intros k' Hk'. simpl.
  destruct (decide (k' = k)) as [->|]; [|auto]. destruct Hk; congruence.
Qed.

Lemma by_status_scan_listing status model_hash : listing (by_status_scan status model_hash).
Proof.
  intros items. induction items as [|[k e] rest [IHk IHp]]; [done|]. simpl.
  destruct (by_status_scan status model_hash rest) as [rest' chunks]. simpl in *.
  repeat case_match; simpl; apply listing_cons; auto.
Qed.

Lemma untrained_scan_listing : listing untrained_scan.
Proof.
  intros items. induction items as [|[k e] rest [IHk IHp]]; [done|]. simpl.
  destruct (untrained_scan rest) as [rest' chunks]. simpl in *.
  repeat case_match; simpl; apply listing_cons; auto.
Qed.

Lemma restorable_scan_listing target documents_json :
  listing (restorable_scan target documents_json).
Proof.
  intros items. induction items as [|[k e] rest [IHk IHp]]; [done|]. simpl.
  destruct (restorable_scan target documents_json rest) as [rest' chunks]. simpl in *.
  repeat case_match; simpl; apply listing_cons; auto.
Qed.

Lemma all_loras_scan_listing include_deleted : listing (all_loras_scan include_deleted).
Proof.
  intros items. induction items as [|[k e] rest [IHk IHp]]; [done|]. simpl.
  destruct (all_loras_scan include_deleted rest) as [rest' loras]. simpl in *.
  repeat case_match; simpl; apply listing_cons; auto.
Qed.

Lemma stable_chunk_listing
    (scan : dict (entry Chunk.t) -> dict (entry Chunk.t) * list Chunk.t) st :
  listing scan -> registries_inv st ->
  registries_inv (set_chunk_registry (scan (chunk_registry st)).1 st).
Proof.
  intros Hscan [Hcw Hcs Hlw Hls]. split; simpl; [|  |done|done].
  - by apply listing_wf.
  - by apply listing_saved.
Qed.

Lemma stable_get_chunks_by_status status model_hash :
  stable (get_chunks_by_status status model_hash).
Proof.
  intros st Hinv. unfold get_chunks_by_status, mbind, M_bind, get_state, modify.
  pose proof (stable_chunk_listing _ st
                (by_status_scan_listing status model_hash) Hinv) as Hst.
  by destruct (by_status_scan status model_hash (chunk_registry st)).
Qed.

Lemma stable_get_untrained_chunks : stable get_untrained_chunks.
Proof.
  intros st Hinv. unfold get_untrained_chunks, mbind, M_bind, get_state, modify.
  pose proof (stable_chunk_listing _ st untrained_scan_listing Hinv) as Hst.
  by destruct (untrained_scan (chunk_registry st)).
Qed.

Lemma stable_get_restorable_chunks model_identity_hash :
  stable (get_restorable_chunks model_identity_hash).
Proof.
  intros st Hinv. unfold get_restorable_chunks, mbind, M_bind, get_state, modify.
  cbv zeta.
  pose proof (stable_chunk_listing _ st
    (restorable_scan_listing (Py.or_ model_identity_hash (current_model st))
       (documents_json (disk st))) Hinv) as Hst.
  by destruct (restorable_scan _ _ (chunk_registry st)).
Qed.

Lemma stable_get_all_loras include_deleted : stable (get_all_loras include_deleted).
Proof.
  intros st [Hcw Hcs Hlw Hls]. unfold get_all_loras, mbind, M_bind, get_state, modify.
  pose proof (all_loras_scan_listing include_deleted) as Hscan.
  pose proof (listing_wf _ _ Hscan Hlw) as Hwf.
  pose proof (listing_saved _ _ _ Hscan Hls) as Hsaved.
  destruct (all_loras_scan include_deleted (lora_registry st)). by split.
Qed.

Lemma wp_stable {A} (m : M A) (Q : A -> State -> Prop) (E : exn -> State -> Prop) st :
  stable m -> registries_inv st ->
  (forall a st', registries_inv st' -> Q a st') ->
  (forall e st', registries_inv st' -> E e st') ->
  wp m Q E st.
Proof.
  intros Hm Hinv HQ HE. specialize (Hm st Hinv). unfold wp.
  destruct (m st); simpl in Hm; auto.
Qed.

Lemma stable_wp {A} (m : M A) :
  (forall st, registries_inv st ->
     wp m (fun _ => registries_inv) (fun _ => registries_inv) st) ->
  stable m.
Proof. intros Hwp st Hinv. by apply wp_final, Hwp. Qed.

Lemma stable_for_each {A} (l : list A) (body : A -> M unit) :
  (forall a, stable (body a)) -> stable (for_each l body).
Proof.
  intros Hbody. induction l as [|a l IH]; simpl; [apply stable_ret|].
  by apply stable_bind.
Qed.

Lemma stable_invalidate_loop size items previous_model new_model_hash unusable_loras :
  stable (invalidate_loop size items previous_model new_model_hash unusable_loras).
Proof.
  revert unusable_loras. induction items as [|lora_id rest IH]; intros unusable_loras;
    simpl; apply stable_get; intros st.
  - case_match; [apply stable_raise|apply stable_ret].
  - case_match; [apply stable_raise|]. repeat case_match; try apply IH.
    apply stable_bind; [apply stable_mark_lora_unusable|intros _; apply IH].
Qed.

Lemma stable_restore_loop chunk_ids all_documents restored_chunks failed_chunks :
  stable (restore_loop chunk_ids all_documents restored_chunks failed_chunks).
Proof.
  revert all_documents restored_chunks failed_chunks.
  induction chunk_ids as [|chunk_id rest IH]; intros all_documents restored_chunks failed_chunks;
    simpl; [apply stable_ret|].
  apply stable_get; intros st. repeat case_match; try apply IH.
  apply stable_bind; [apply (stable_mark Restored)|intros _; apply IH].
Qed.

Lemma stable_handle_model_switch new_model_path friendly_name :
  stable (handle_model_switch new_model_path friendly_name).
Proof.
  unfold handle_model_switch. apply stable_get; intros st. cbv zeta.
  apply stable_bind; [apply stable_register_model|intros reg_result].
  case_match; [apply stable_ret|].
  apply stable_bind.
  { repeat case_match; try apply stable_ret.
    apply stable_get; intros st1. apply stable_invalidate_loop. }
  intros unusable. apply stable_bind; [apply stable_get_restorable_chunks|intros restorable].
  apply stable_get; intros st1.
  apply stable_bind; [apply stable_log|intros _; apply stable_ret].
Qed.

Lemma stable_restore_chunks_to_rag chunk_ids : stable (restore_chunks_to_rag chunk_ids).
Proof.
  unfold restore_chunks_to_rag. apply stable_bind.
  { destruct chunk_ids; [apply stable_ret|].
    apply stable_bind; [apply stable_get_restorable_chunks|intros r; apply stable_ret]. }
  intros ids. apply stable_bind; [apply stable_restore_loop|intros [[docs restored] failed]].
  apply stable_bind; [apply stable_log|intros _; apply stable_ret].
Qed.

Lemma stable_register_lora chunk_ids lora_path training_config metrics :
  stable (register_lora chunk_ids lora_path training_config metrics).
Proof.
  apply stable_wp. intros st [Hcw Hcs Hlw Hls].
  unfold register_lora. unfold _save_lora_registry, _save_model_registry.
  repeat wp_step. cbn [current_model set_lora_counter _lora_counter model_registry].
  assert (Hrest : forall st1 lora_id record,
    chunk_registry st1 = chunk_registry st ->
    _chunk_counter st1 = _chunk_counter st ->
    lora_registry st1 =
      Dict.set "_counter" (Scalar (_lora_counter st + 1))
        (Dict.set lora_id (Mapping record) (lora_registry st)) ->
    _lora_counter st1 = _lora_counter st + 1 ->
    forall details (result : LoRA.t),
    wp (for_each chunk_ids (fun chunk_id => mark_chunk_trained chunk_id lora_id))
       (fun _ =>
          wp (_log_operation details ;; mret result)
            (fun _ => registries_inv) (fun _ => registries_inv))
       (fun _ => registries_inv) st1).
  { intros st1 lora_id record Hc Hcc Hl Hlc details result.
    apply wp_stable; [| |intros _ st2 Hinv|done].
    - apply stable_for_each. intros c. apply (stable_mark (Trained _)).
    - split.
      + by rewrite Hc.
      + by rewrite Hc, Hcc.
      + rewrite Hl. by do 2 apply dict_wf_set.
      + rewrite Hl, Hlc. apply saved_set.
    - apply (wp_stable (_log_operation details ;; mret result)); [|done..].
      apply stable_bind; [apply stable_log|intros _; apply stable_ret]. }
  destruct (current_model st) as [current|] eqn:Hcur; rewrite ?Hcur in Hrest;
    cbn [mbind option_bind];
    [destruct (Dict.get current _)|]; repeat wp_step; eapply Hrest; simpl; done.
Qed.

Lemma stable_discard {A} (m : M A) : stable m -> stable (m ;; mret tt).
Proof. intros Hm. apply stable_bind; [done|intros _; apply stable_ret]. Qed.

Lemma stable_exec o : stable (exec o).
Proof.
  destruct o; unfold exec.
  - apply stable_discard, stable_register_model.
  - apply stable_discard, stable_detect_model_change.
  - apply stable_discard, stable_handle_model_switch.
  - apply stable_discard, stable_create_chunk.
  - apply (stable_mark Training).
  - apply (stable_mark (Trained _)).
  - apply (stable_mark (Failed _)).
  - apply (stable_mark Restored).
  - apply stable_discard, stable_get_chunks_by_status.
  - apply stable_discard, stable_get_untrained_chunks.
  - apply stable_discard, stable_get_restorable_chunks.
  - apply stable_discard, stable_register_lora.
  - apply stable_discard, stable_get_all_loras.
  - apply stable_mark_lora_unusable.
  - apply stable_discard, stable_delete_lora.
  - apply stable_discard, stable_restore_chunks_to_rag.
Qed.

Lemma registries_inv_init clock0 : registries_inv (__init__ empty_disk clock0).
Proof. split; simpl; try apply NoDup_nil_2; by left. Qed.

(** In every state a manager started on an empty data directory can be in,
    whatever its requests did, no registry holds a key twice and each
    registry is empty or holds its counter under [_counter]. *)
Lemma run_registries_inv ops st : registries_inv st -> registries_inv (run ops st).
Proof.
  revert st. induction ops as [|o ops IH]; intros st Hinv; [done|].
  simpl. by apply IH, stable_exec.
Qed.

Lemma reachable_registries_inv allowed st : reachable allowed st -> registries_inv st.
Proof.
  induction 1 as [clock0|o st st' _ IH _ Hexec]; [apply registries_inv_init|].
  pose proof (stable_exec o st IH) as Hst. by rewrite Hexec in Hst.
Qed.

(** What the statements about one call assume of the state they start in
    holds in every reachable state. *)
Lemma reachable_well_formed allowed st :
  reachable allowed st ->
  Dict.wf (chunk_registry st) /\ persisted (chunk_registry st) /\
  Dict.wf (lora_registry st) /\ persisted (lora_registry st).
Proof.
  intros [Hcw Hcs Hlw Hls]%reachable_registries_inv.
  split_and!; try done; by eapply saved_persisted.
Qed.

(** ** Reachable states *)

Lemma run_reachable allowed ops : forall st,
  reachable allowed st ->
  forallb allowed ops = true ->
  crash_free ops st = true ->
  reachable allowed (run ops st).
Proof.
  induction ops as [|o ops IH]; intros st Hreach Hallowed Hfree; [done|].
  simpl in *. apply andb_true_iff in Hallowed as [Ho Hops].
  destruct (exec o st) as [[] st'|] eqn:Hexec; [|done].
  apply IH; try done. by eapply reachable_step.
Qed.

(** ** How the state evolves over the operations *)

Section Evolves.
Context (R : relation State) `{!PreOrder R}.

Lemma evolves_ret {A} (a : A) : evolves R (mret a).
Proof. intros st. simpl. reflexivity. Qed.

Lemma evolves_get : evolves R get_state.
Proof. intros st. simpl. reflexivity. Qed.

Lemma evolves_raise {A} e : evolves R (raise (A := A) e).
Proof. intros st. simpl. reflexivity. Qed.

Lemma evolves_modify f : (forall st, R st (f st)) -> evolves R (modify f).
Proof. intros Hf st. apply Hf. Qed.

Lemma evolves_now : (forall st, R st (set_clock (S (clock st)) st)) -> evolves R now.
Proof. intros Hf st. apply Hf. Qed.

Lemma evolves_bind {A B} (m : M A) (f : A -> M B) :
  evolves R m -> (forall a, evolves R (f a)) -> evolves R (m ≫= f).
Proof.
  intros Hm Hf st. specialize (Hm st). unfold mbind, M_bind.
  destruct (m st) as [a st1|e st1]; simpl in *; [|done].
  etrans; [done|apply Hf].
Qed.

Lemma evolves_for_each {A} (l : list A) (body : A -> M unit) :
  (forall x, evolves R (body x)) -> evolves R (for_each l body).
Proof.
  intros Hbody. induction l as [|x l IH]; simpl.
  - apply evolves_ret.
  - apply evolves_bind; [apply Hbody | by intros _].
Qed.

Lemma evolves_wp {A} (m : M A) :
  (forall st, wp m (fun _ => R st) (fun _ => R st) st) -> evolves R m.
Proof. intros Hwp st. by apply wp_final, Hwp. Qed.

Lemma wp_evolves {A} (m : M A) (Q : A -> State -> Prop) (E : exn -> State -> Prop) st :
  evolves R m ->
  (forall a st', R st st' -> Q a st') ->
  (forall e st', R st st' -> E e st') ->
  wp m Q E st.
Proof.
  intros Hm HQ HE. specialize (Hm st). unfold wp.
  destruct (m st); simpl in Hm; auto.
Qed.

Context (prim : primitives R).

Lemma evolves_invalidate_loop size items previous_model new_model_hash unusable_loras :
  evolves R (invalidate_loop size items previous_model new_model_hash unusable_loras).
Proof.
  revert unusable_loras. induction items as [|lora_id rest IH]; intros unusable_loras;
    simpl; (apply evolves_bind; [apply evolves_get|intros st]).
  - case_match; [apply evolves_raise|apply evolves_ret].
  - case_match; [apply evolves_raise|]. repeat case_match; try apply IH.
    apply evolves_bind; [apply prim|intros _; apply IH].
Qed.

Lemma evolves_restore_loop chunk_ids all_documents restored_chunks failed_chunks :
  evolves R (restore_loop chunk_ids all_documents restored_chunks failed_chunks).
Proof.
  revert all_documents restored_chunks failed_chunks.
  induction chunk_ids as [|chunk_id rest IH]; intros all_documents restored_chunks failed_chunks;
    simpl; [apply evolves_ret|].
  apply evolves_bind; [apply evolves_get|intros st]. repeat case_match; try apply IH.
  apply evolves_bind; [apply (prim_mark_chunk R prim Restored)|intros _; apply IH].
Qed.

Lemma evolves_handle_model_switch new_model_path friendly_name :
  evolves R (handle_model_switch new_model_path friendly_name).
Proof.
  unfold handle_model_switch. apply evolves_bind; [apply evolves_get|intros st]. cbv zeta.
  apply evolves_bind; [apply prim|intros reg_result].
  case_match; [apply evolves_ret|].
  apply evolves_bind.
  { repeat case_match; try apply evolves_ret.
    apply evolves_bind; [apply evolves_get|intros st1]. apply evolves_invalidate_loop. }
  intros unusable. apply evolves_bind; [apply prim|intros restorable].
  apply evolves_bind; [apply evolves_get|intros st1].
  apply evolves_bind; [apply prim|intros _; apply evolves_ret].
Qed.

Lemma evolves_restore_chunks_to_rag chunk_ids : evolves R (restore_chunks_to_rag chunk_ids).
Proof.
  unfold restore_chunks_to_rag. apply evolves_bind.
  { destruct chunk_ids; [apply evolves_ret|].
    apply evolves_bind; [apply prim|intros r; apply evolves_ret]. }
  intros ids. apply evolves_bind; [apply evolves_restore_loop|intros [[docs restored] failed]].
  apply evolves_bind; [apply prim|intros _; apply evolves_ret].
Qed.

Lemma evolves_discard {A} (m : M A) : evolves R m -> evolves R (m ;; mret tt).
Proof. intros Hm. apply evolves_bind; [done|intros _; apply evolves_ret]. Qed.

Lemma evolves_exec o : evolves R (exec o).
Proof.
  destruct o; unfold exec.
  - apply evolves_discard, prim.
  - apply evolves_discard, prim.
  - apply evolves_discard, evolves_handle_model_switch.
  - apply evolves_discard, prim.
  - apply (prim_mark_chunk R prim Training).
  - apply (prim_mark_chunk R prim (Trained _)).
  - apply (prim_mark_chunk R prim (Failed _)).
  - apply (prim_mark_chunk R prim Restored).
  - apply evolves_discard, prim.
  - apply evolves_discard, prim.
  - apply evolves_discard, prim.
  - apply evolves_discard, prim.
  - apply evolves_discard, prim.
  - apply prim.
  - apply evolves_discard, prim.
  - apply evolves_discard, evolves_restore_chunks_to_rag.
Qed.

Lemma evolves_run ops st : R st (run ops st).
Proof.
  revert st. induction ops as [|o ops IH]; intros st; simpl; [reflexivity|].
  etrans; [apply evolves_exec|apply IH].
Qed.

End Evolves.

(** One step through the code of a method. *)
Ltac evolves_step :=
  lazymatch goal with
  | |- evolves _ (mbind _ _) => refine (evolves_bind _ _ _ _ _); [|intros ?]
  | |- evolves _ (mret _) => refine (evolves_ret _ _)
  | |- evolves _ get_state => refine (evolves_get _)
  | |- evolves _ (raise _) => refine (evolves_raise _ _)
  | |- evolves _ (modify _) => refine (evolves_modify _ _ _); intros ?
  | |- evolves _ now => refine (evolves_now _ _); intros ?
  | |- evolves _ (for_each _ _) => refine (evolves_for_each _ _ _ _); intros ?
  | |- evolves _ (match ?x with _ => _ end) => destruct x
  end.

(** ** The operation log *)

#[local] Instance log_extends_preorder : PreOrder log_extends.
Proof.
  split.
  - intros st. by unfold log_extends.
  - intros st1 st2 st3. unfold log_extends. intros. by etrans.
Qed.

Ltac log_step :=
  first [ evolves_step
        | progress (unfold log_extends; simpl); first [ done | by apply prefix_app_r ] ].

Lemma log_extends_update_chunk_status chunk_id status details :
  evolves log_extends (_update_chunk_status chunk_id status details).
Proof.
  unfold _update_chunk_status. keeps_unfold. repeat log_step.
Qed.

Lemma log_extends_mark m chunk_id : evolves log_extends (mark_chunk m chunk_id).
Proof.
  destruct m; simpl;
    unfold mark_chunk_training, mark_chunk_trained, mark_chunk_failed,
      mark_chunk_restored;
    repeat log_step; apply log_extends_update_chunk_status.
Qed.

Lemma log_extends_primitives : primitives log_extends.
Proof.
  split; intros.
  - unfold _log_operation. repeat log_step.
  - unfold register_model. keeps_unfold. repeat log_step.
  - unfold detect_model_change. repeat log_step.
  - unfold create_chunk. keeps_unfold. repeat log_step.
  - apply log_extends_mark.
  - unfold get_chunks_by_status. repeat log_step.
  - unfold get_untrained_chunks. repeat log_step.
  - unfold get_restorable_chunks. repeat log_step.
  - unfold register_lora. keeps_unfold. repeat log_step.
    all: apply (log_extends_mark (Trained _)).
  - unfold get_all_loras. repeat log_step.
  - unfold mark_lora_unusable. keeps_unfold. repeat log_step.
  - unfold delete_lora. keeps_unfold. repeat log_step.
Qed.

Lemma slice_from_nonneg {A} k (l : list A) : 0 <= k -> Py.slice_from k l = drop (Z.to_nat k) l.
Proof. intros Hk. unfold Py.slice_from. by destruct (Z.ltb_spec k 0); [lia|]. Qed.

Lemma slice_from_neg {A} k (l : list A) :
  k < 0 -> Py.slice_from k l = drop (length l - Z.to_nat (- k)) l.
Proof.
  intros Hk. unfold Py.slice_from. destruct (Z.ltb_spec k 0); [|lia].
  f_equal. lia.
Qed.

(** X1: [get_operation_history(limit)] returns, for a positive [limit], the
    last [limit] entries of the log in the order they were written (all of
    them when the log is shorter); for [limit = 0] it returns the whole log,
    not an empty list; for a negative [limit] it drops the first [-limit]
    entries. *)
Theorem get_operation_history_limit (limit : Z) (st : State) :
  let log := operations_jsonl (disk st) in
  (0 < limit ->
   get_operation_history limit st = drop (length log - Z.to_nat limit) log /\
   length (get_operation_history limit st) = Nat.min (Z.to_nat limit) (length log)) /\
  (limit = 0 -> get_operation_history limit st = log) /\
  (limit < 0 -> get_operation_history limit st = drop (Z.to_nat (- limit)) log).
Proof.
  intros log. unfold get_operation_history. fold log. split_and!.
  - intros Hl. rewrite slice_from_neg by lia. rewrite Z.opp_involutive.
    split; [done|]. rewrite length_drop. lia.
  - intros ->. by rewrite slice_from_nonneg.
  - intros Hl. by rewrite slice_from_nonneg by lia.
Qed.

(** X2: no operation, whether it returns or raises, removes or rewrites a
    line of the operation log: after any sequence of operations the log is
    the log as it was, followed by the new entries. *)
Theorem operation_log_append_only (ops : list op) (st : State) :
  exists entries,
    operations_jsonl (disk (run ops st)) = operations_jsonl (disk st) ++ entries.
Proof. apply (evolves_run log_extends log_extends_primitives ops st). Qed.

(** ** Invariants of the reachable states *)

#[local] Instance preserved_preorder I : PreOrder (preserved I).
Proof. split; unfold preserved; [by intros st|intros st1 st2 st3; auto]. Qed.

Lemma preserved_run I ops clock0 :
  primitives (preserved I) -> I (__init__ empty_disk clock0) ->
  I (run ops (__init__ empty_disk clock0)).
Proof. intros Hprim. apply (evolves_run (preserved I) Hprim). Qed.

(** *** The head of [register_lora] *)

Lemma register_lora_wp chunk_ids lora_path training_config metrics Q E st :
  (forall st1 record,
     lora_registered st st1 record ->
     LoRA.chunk_ids record = chunk_ids ->
     wp (for_each chunk_ids
           (fun chunk_id => mark_chunk_trained chunk_id (LoRA.lora_id record)))
        (fun _ =>
           wp (_log_operation
                 (Log.lora_registered (LoRA.lora_id record) (current_model st) chunk_ids
                    (default "" (LoRA.path record)));;
               mret record) Q E) E st1) ->
  wp (register_lora chunk_ids lora_path training_config metrics) Q E st.
Proof.
  intros Hrest. unfold register_lora. unfold _save_lora_registry, _save_model_registry.
  repeat wp_step. cbn [current_model set_lora_counter _lora_counter model_registry].
  destruct (current_model st) as [current|] eqn:Hcur;
    cbn [mbind option_bind];
    [destruct (Dict.get current _) as [info|] eqn:Hinfo|]; repeat wp_step.
  all: match goal with
       | |- wp _ (fun _ => wp (_ ≫= fun _ => mret ?r) _ _) _ ?st1 =>
           apply (Hrest st1 r); [|done]
       end.
  all: split; simpl; rewrite ?Hcur; try done.
  - right. split_and!; try done. by eexists _, _.
  - left. split_and!; try done. by intros ? [= <-].
  - by left.
Qed.

Lemma evolves_register_lora (R : relation State) `{!PreOrder R}
    chunk_ids lora_path training_config metrics :
  (forall m chunk_id, evolves R (mark_chunk m chunk_id)) ->
  (forall details, evolves R (_log_operation details)) ->
  (forall st st1 record, lora_registered st st1 record -> R st st1) ->
  evolves R (register_lora chunk_ids lora_path training_config metrics).
Proof.
  intros Hmark Hlog Hhead. refine (evolves_wp _ _ _). intros st.
  apply register_lora_wp. intros st1 record Hreg%Hhead _.
  eapply (wp_evolves R); [|intros _ st2 Hst2|intros _ st2 Hst2; by etrans].
  { refine (evolves_for_each _ _ _ _). intros c. apply (Hmark (Trained _)). }
  eapply (wp_evolves R); [|intros ? st3 Hst3; by do 2 (etrans; [done|])..].
  refine (evolves_bind _ _ _ _ _); [apply Hlog|intros _; refine (evolves_ret _ _)].
Qed.

(** *** Listings *)

Lemma relabelled_cons {R} (upd : string -> R -> R -> Prop) k e e' rest rest' :
  relabelled upd rest rest' ->
  e' = e \/ (exists r r', e = Mapping r /\ e' = Mapping r' /\ upd k r r') ->
  relabelled upd ((k, e) :: rest) ((k, e') :: rest').
Proof. intros Hrest He. by constructor. Qed.

Lemma by_status_scan_relabelled status model_hash items :
  relabelled (fun k c c' => c' = Chunk.set_chunk_id k c)
    items (by_status_scan status model_hash items).1.
Proof.
  induction items as [|[k e] rest IH]; [constructor|]. simpl.
  destruct (by_status_scan status model_hash rest) as [rest' chunks]. simpl in *.
  repeat case_match; simpl; apply relabelled_cons; eauto 6.
Qed.

Lemma untrained_scan_relabelled items :
  relabelled (fun k c c' => c' = Chunk.set_chunk_id k c) items (untrained_scan items).1.
Proof.
  induction items as [|[k e] rest IH]; [constructor|]. simpl.
  destruct (untrained_scan rest) as [rest' chunks]. simpl in *.
  repeat case_match; simpl; apply relabelled_cons; eauto 6.
Qed.

Lemma restorable_scan_relabelled target documents_json items :
  relabelled
    (fun k c c' =>
       exists reason, c' = Chunk.set_restore_reason reason (Chunk.set_chunk_id k c))
    items (restorable_scan target documents_json items).1.
Proof.
  induction items as [|[k e] rest IH]; [constructor|]. simpl.
  destruct (restorable_scan target documents_json rest) as [rest' chunks]. simpl in *.
  repeat case_match; simpl; apply relabelled_cons; eauto 7.
Qed.

Lemma all_loras_scan_relabelled include_deleted items :
  relabelled (fun k r r' => r' = LoRA.set_lora_id k r)
    items (all_loras_scan include_deleted items).1.
Proof.
  induction items as [|[k e] rest IH]; [constructor|]. simpl.
  destruct (all_loras_scan include_deleted rest) as [rest' loras]. simpl in *.
  repeat case_match; simpl; apply relabelled_cons; eauto 6.
Qed.

Lemma relabelled_get {R} (upd : string -> R -> R -> Prop) items items' k :
  relabelled upd items items' ->
  match Dict.get k items with
  | None => Dict.get k items' = None
  | Some e =>
      exists e', Dict.get k items' = Some e' /\
        (e' = e \/ exists r r', e = Mapping r /\ e' = Mapping r' /\ upd k r r')
  end.
Proof.
  induction 1 as [|[k1 e1] [k2 e2] rest rest' [Hk He] _ IH]; [done|].
  simpl in *. subst k2. destruct (decide (k = k1)) as [->|]; [|done].
  by exists e2.
Qed.

Lemma relabelled_get_Some {R} (upd : string -> R -> R -> Prop) items items' k e' :
  relabelled upd items items' ->
  Dict.get k items' = Some e' ->
  exists e, Dict.get k items = Some e /\
    (e' = e \/ exists r r', e = Mapping r /\ e' = Mapping r' /\ upd k r r').
Proof.
  intros Hrel Hget. pose proof (relabelled_get upd items items' k Hrel) as H.
  destruct (Dict.get k items) as [e|]; [|congruence].
  destruct H as (e1 & He1 & H). rewrite Hget in He1. injection He1 as <-.
  by exists e.
Qed.

(** A listing that finds every record under its own id changes nothing. *)
Lemma relabelled_id {R} (upd : string -> R -> R -> Prop) items items' :
  relabelled upd items items' ->
  (forall k r r', (k, Mapping r) ∈ items -> upd k r r' -> r' = r) ->
  items' = items.
Proof.
  induction 1 as [|[k1 e1] [k2 e2] rest rest' [Hk He] _ IH]; intros Hid; [done|].
  simpl in *. subst k2. f_equal.
  - f_equal. destruct He as [->|(r & r' & -> & -> & Hupd)]; [done|].
    f_equal. eapply Hid; [|done]. left.
  - apply IH. intros k r r' Hin. apply Hid. by right.
Qed.

(** *** The effect of [delete_lora] *)

Lemma delete_lora_absent lora_id delete_files st :
  Dict.get lora_id (lora_registry st) = None ->
  delete_lora lora_id delete_files st = Ok false st.
Proof.
  intros Hget. unfold delete_lora, mbind, M_bind, get_state. by rewrite Hget.
Qed.

Lemma delete_lora_scalar lora_id delete_files st n :
  Dict.get lora_id (lora_registry st) = Some (Scalar n) ->
  exists e, delete_lora lora_id delete_files st = Raise e st.
Proof.
  intros Hget. unfold delete_lora, mbind, M_bind, get_state. rewrite Hget.
  destruct delete_files; by eexists.
Qed.

Lemma delete_lora_mapping lora_id delete_files st data :
  Dict.get lora_id (lora_registry st) = Some (Mapping data) ->
  exists st',
    delete_lora lora_id delete_files st = Ok true st' /\
    lora_registry st' =
      Dict.set "_counter" (Scalar (_lora_counter st))
        (Dict.set lora_id
           (Mapping (LoRA.set_deleted_at (Some (isoformat_at (clock st)))
                       (LoRA.set_status "deleted" data)))
           (lora_registry st)) /\
    lora_registry_json (disk st') = Parsed (lora_registry st') /\
    adapter_dirs (disk st') =
      match LoRA.path data with
      | Some lora_path =>
          if delete_files && Py.truthy (Py.Str lora_path)
          then adapter_dirs (disk st) ∖ {[lora_path]}
          else adapter_dirs (disk st)
      | None => adapter_dirs (disk st)
      end /\
    operations_jsonl (disk st') =
      operations_jsonl (disk st) ++
      [{| Log.timestamp := isoformat_at (S (clock st));
          Log.entry_details := Log.lora_deleted lora_id delete_files |}] /\
    clock st' = S (S (clock st)) /\
    lora_frame st st'.
Proof.
  intros Hget. unfold delete_lora, mbind, M_bind, get_state. rewrite Hget.
  destruct (LoRA.path data) as [p|]; cbn.
  - destruct delete_files; cbn; [destruct (negb (String.eqb p "")); cbn;
      [destruct (bool_decide (p ∈ adapter_dirs (disk st))) eqn:Hdir; cbn|]|].
    all: eexists; split; [reflexivity|]; cbn; split_and!; try done.
    apply bool_decide_eq_false in Hdir. symmetry.
    apply difference_disjoint_L. by apply disjoint_singleton_r.
  - eexists; split; [reflexivity|]; cbn; by split_and!.
Qed.

(** *** Ids *)

Lemma chunk_id_of_startswith n : Py.startswith_underscore (chunk_id_of n) = false.
Proof. done. Qed.


Lemma chunk_id_of_inj a b : chunk_id_of a = chunk_id_of b -> a = b.
Proof. apply chunk_id_inj. Qed.

Lemma lora_id_of_inj a b : lora_id_of a = lora_id_of b -> a = b.
Proof. intros [= H]. by apply format_04d_inj. Qed.

Lemma not_counter k : Py.startswith_underscore k = false -> k <> "_counter".
Proof. by intros Hk ->. Qed.

Lemma numbered_nil {R} id_of (id : R -> string) : numbered id_of id [] 0.
Proof. by split. Qed.

Lemma numbered_get {R} id_of (id : R -> string) registry counter k r :
  numbered id_of id registry counter ->
  Dict.get k registry = Some (Mapping r) ->
  exists n, 1 <= n <= counter /\ k = id_of n /\ id r = k.
Proof.
  intros [_ Hnum] Hget. destruct (Hnum k _ Hget) as [[_ [=]]|(n & r' & Hn & Hk & [= <-] & Hid)].
  by exists n.
Qed.

Lemma numbered_set {R} id_of (id : R -> string) registry counter counter' k r n :
  numbered id_of id registry counter ->
  counter <= counter' -> 1 <= n <= counter' -> k = id_of n -> id r = k -> k <> "_counter" ->
  numbered id_of id
    (Dict.set "_counter" (Scalar counter') (Dict.set k (Mapping r) registry)) counter'.
Proof.
  intros [Hpos Hnum] Hle Hn Hk Hid Hne. split; [lia|]. intros k' e Hget.
  destruct (decide (k' = "_counter")) as [->|Hk'].
  { rewrite dict_get_set_eq in Hget. left. by injection Hget as <-. }
  rewrite dict_get_set_ne in Hget by done.
  destruct (decide (k' = k)) as [->|Hkk].
  { rewrite dict_get_set_eq in Hget. injection Hget as <-. right. by exists n, r. }
  rewrite dict_get_set_ne in Hget by done.
  destruct (Hnum k' e Hget) as [[? _]|(n' & r' & Hn' & H)]; [done|].
  right. exists n', r'. split; [lia|done].
Qed.

Lemma numbered_update {R} id_of (id : R -> string) registry counter k r r' :
  (forall n, id_of n <> "_counter") ->
  numbered id_of id registry counter ->
  Dict.get k registry = Some (Mapping r) -> id r' = id r ->
  numbered id_of id
    (Dict.set "_counter" (Scalar counter) (Dict.set k (Mapping r') registry)) counter.
Proof.
  intros Hne Hnum Hget Hid.
  destruct (numbered_get _ _ _ _ _ _ Hnum Hget) as (n & Hn & Hk & Hidr).
  eapply numbered_set; eauto; [lia|congruence|]. subst k. apply Hne.
Qed.

Lemma numbered_relabelled {R} id_of (id : R -> string) upd items items' counter :
  numbered id_of id items counter ->
  relabelled upd items items' ->
  (forall k r r', upd k r r' -> id r' = k) ->
  numbered id_of id items' counter.
Proof.
  intros [Hpos Hnum] Hrel Hupd. split; [done|]. intros k e' Hget.
  destruct (relabelled_get_Some _ _ _ _ _ Hrel Hget)
    as (e & He & [->|(r & r' & -> & -> & Hr)]); [by apply Hnum|].
  destruct (Hnum _ _ He) as [[_ [=]]|(n & r0 & Hn & Hk & _ & _)].
  right. exists n, r'. do 3 (split; [done|]). by eapply Hupd.
Qed.

Lemma ids_inv_view st st' :
  registries_view st' = registries_view st -> ids_inv st -> ids_inv st'.
Proof.
  unfold registries_view. intros [= Hc Hcc Hl Hlc] []. split; congruence.
Qed.

Lemma preserved_keeps {V A} (view : State -> V) (I : State -> Prop) (m : M A) :
  (forall st st', view st' = view st -> I st -> I st') ->
  keeps view m -> evolves (preserved I) m.
Proof. intros Hview Hkeeps st. unfold preserved. by apply Hview. Qed.

Lemma keeps_registries_log details : keeps registries_view (_log_operation details).
Proof. unfold _log_operation. repeat keeps_step. Qed.

Lemma keeps_registries_register_model model_path friendly_name :
  keeps registries_view (register_model model_path friendly_name).
Proof. unfold register_model. keeps_unfold. repeat keeps_step. Qed.

Lemma keeps_registries_detect_model_change model_path :
  keeps registries_view (detect_model_change model_path).
Proof. unfold detect_model_change. repeat keeps_step. Qed.

Lemma ids_inv_chunks st st' :
  ids_inv st ->
  numbered chunk_id_of Chunk.chunk_id (chunk_registry st') (_chunk_counter st') ->
  lora_registry st' = lora_registry st -> _lora_counter st' = _lora_counter st ->
  ids_inv st'.
Proof. intros [Hc Hl] Hc' Hreg Hcnt. split; [done|]. by rewrite Hreg, Hcnt. Qed.

Lemma ids_inv_loras st st' :
  ids_inv st ->
  numbered lora_id_of LoRA.lora_id (lora_registry st') (_lora_counter st') ->
  chunk_registry st' = chunk_registry st -> _chunk_counter st' = _chunk_counter st ->
  ids_inv st'.
Proof. intros [Hc Hl] Hl' Hreg Hcnt. split; [|done]. by rewrite Hreg, Hcnt. Qed.

Lemma ids_mark m chunk_id : evolves (preserved ids_inv) (mark_chunk m chunk_id).
Proof.
  intros st Hinv.
  destruct (Dict.get chunk_id (chunk_registry st)) as [[r|n]|] eqn:Hget.
  - destruct (mark_chunk_mapping m chunk_id st r Hget)
      as (st' & -> & Hreg & _ & _ & _ & _ & Hf).
    simpl in *. eapply ids_inv_chunks; [done| |apply Hf..].
    rewrite Hreg, (cf_chunk_counter _ _ Hf).
    eapply numbered_update; [done|apply Hinv|done|by destruct m].
  - by destruct (mark_chunk_scalar m chunk_id st n Hget) as [e ->].
  - by rewrite mark_chunk_absent.
Qed.

Lemma ids_primitives : primitives (preserved ids_inv).
Proof.
  split.
  - intros details.
    eapply preserved_keeps; [apply ids_inv_view|apply keeps_registries_log].
  - intros model_path friendly_name.
    eapply preserved_keeps; [apply ids_inv_view|apply keeps_registries_register_model].
  - intros model_path.
    eapply preserved_keeps; [apply ids_inv_view|apply keeps_registries_detect_model_change].
  - intros docs character metadata st Hinv.
    destruct (create_chunk_run docs character metadata st)
      as (chunk & st' & -> & Hid & _ & _ & _ & Hc & _ & _ & Hreg & _ & Hview & Hlc).
    simpl in *. injection Hview as Hl _.
    eapply ids_inv_chunks; [done| |done..]. rewrite Hreg, Hc.
    destruct (ii_chunks _ Hinv) as [Hpos _].
    eapply numbered_set with (n := _chunk_counter st + 1);
      [apply Hinv|lia|lia|done|by rewrite Hid|done].
  - apply ids_mark.
  - intros status model_hash st Hinv. unfold get_chunks_by_status, mbind, M_bind, get_state, modify.
    pose proof (by_status_scan_relabelled status model_hash (chunk_registry st)) as Hrel.
    destruct (by_status_scan status model_hash (chunk_registry st)) as [registry chunks].
    simpl in *. eapply ids_inv_chunks; [done| |done..]. simpl.
    eapply numbered_relabelled; [apply Hinv|done|]. by intros k r r' ->.
  - intros st Hinv. unfold get_untrained_chunks, mbind, M_bind, get_state, modify.
    pose proof (untrained_scan_relabelled (chunk_registry st)) as Hrel.
    destruct (untrained_scan (chunk_registry st)) as [registry chunks].
    simpl in *. eapply ids_inv_chunks; [done| |done..]. simpl.
    eapply numbered_relabelled; [apply Hinv|done|]. by intros k r r' ->.
  - intros model_identity_hash st Hinv. rewrite get_restorable_chunks_run. simpl.
    eapply ids_inv_chunks; [done| |done..]. simpl.
    eapply numbered_relabelled; [apply Hinv|apply restorable_scan_relabelled|].
    by intros k r r' [reason ->].
  - intros chunk_ids lora_path training_config metrics.
    refine (evolves_register_lora _ _ _ _ _ _ _ _); [apply ids_mark| |].
    { intros details.
      eapply preserved_keeps; [apply ids_inv_view|apply keeps_registries_log]. }
    intros st st1 record Hreg Hinv. eapply ids_inv_loras; [done| |apply Hreg..].
    rewrite (lr_lora_registry _ _ _ Hreg), (lr_lora_counter _ _ _ Hreg).
    destruct (ii_loras _ Hinv) as [Hpos _].
    eapply numbered_set with (n := _lora_counter st + 1);
      [apply Hinv|lia|lia|done|apply Hreg|done].
  - intros include_deleted st Hinv. unfold get_all_loras, mbind, M_bind, get_state, modify.
    pose proof (all_loras_scan_relabelled include_deleted (lora_registry st)) as Hrel.
    destruct (all_loras_scan include_deleted (lora_registry st)) as [registry loras].
    simpl in *. eapply ids_inv_loras; [done| |done..]. simpl.
    eapply numbered_relabelled; [apply Hinv|done|]. by intros k r r' ->.
  - intros lora_id reason st Hinv.
    destruct (Dict.get lora_id (lora_registry st)) as [[r|n]|] eqn:Hget.
    + destruct (mark_lora_unusable_mapping lora_id reason st r Hget)
        as (st' & -> & Hreg & _ & _ & _ & _ & Hf).
      simpl in *. eapply ids_inv_loras; [done| |apply Hf..].
      rewrite Hreg, (lf_lora_counter _ _ Hf).
      eapply numbered_update; [done|apply Hinv|done..].
    + by destruct (mark_lora_unusable_scalar lora_id reason st n Hget) as [e ->].
    + by rewrite mark_lora_unusable_absent.
  - intros lora_id delete_files st Hinv.
    destruct (Dict.get lora_id (lora_registry st)) as [[r|n]|] eqn:Hget.
    + destruct (delete_lora_mapping lora_id delete_files st r Hget)
        as (st' & -> & Hreg & _ & _ & _ & _ & Hf).
      simpl in *. eapply ids_inv_loras; [done| |apply Hf..].
      rewrite Hreg, (lf_lora_counter _ _ Hf).
      eapply numbered_update; [done|apply Hinv|done..].
    + by destruct (delete_lora_scalar lora_id delete_files st n Hget) as [e ->].
    + by rewrite delete_lora_absent.
Qed.

Lemma ids_inv_init clock0 : ids_inv (__init__ empty_disk clock0).
Proof. split; apply numbered_nil. Qed.

Lemma run_ids_inv ops clock0 : ids_inv (run ops (__init__ empty_disk clock0)).
Proof. apply preserved_run; [apply ids_primitives|apply ids_inv_init]. Qed.


Lemma set_chunk_id_id k c : Chunk.chunk_id c = k -> Chunk.set_chunk_id k c = c.
Proof. intros <-. by destruct c. Qed.

Lemma set_lora_id_id k r : LoRA.lora_id r = k -> LoRA.set_lora_id k r = r.
Proof. intros <-. by destruct r. Qed.

Lemma set_chunk_registry_id st : set_chunk_registry (chunk_registry st) st = st.
Proof. by destruct st. Qed.

Lemma set_lora_registry_id st : set_lora_registry (lora_registry st) st = st.
Proof. by destruct st. Qed.

(** X3: in every state that a manager started on an empty data directory
    can be in, [create_chunk] returns a chunk whose id no entry of the
    registry has: the new record is stored under it and every record that
    was there is still there, unchanged. *)
Theorem create_chunk_fresh_id (ops : list op) (clock0 : nat)
    (documents : list document) (character : option string) (metadata : option document) :
  let st := run ops (__init__ empty_disk clock0) in
  exists chunk st',
    create_chunk documents character metadata st = Ok chunk st' /\
    Chunk.chunk_id chunk = chunk_id_of (_chunk_counter st + 1) /\
    get_chunk (Chunk.chunk_id chunk) st = None /\
    get_chunk (Chunk.chunk_id chunk) st' = Some (Mapping chunk) /\
    forall k, k <> Chunk.chunk_id chunk -> k <> "_counter" ->
      get_chunk k st' = get_chunk k st.
Proof.
  intros st. pose proof (run_ids_inv ops clock0) as Hinv. fold st in Hinv.
  destruct (create_chunk_run documents character metadata st)
    as (chunk & st' & Hrun & Hid & _ & _ & _ & _ & _ & _ & Hreg & _).
  exists chunk, st'. simpl in Hid, Hreg. fold (chunk_id_of (_chunk_counter st + 1)) in Hid, Hreg.
  unfold get_chunk. rewrite Hreg, Hid. split_and!; try done.
  - destruct (Dict.get _ (chunk_registry st)) as [e|] eqn:Hget; [|done].
    destruct (ii_chunks _ Hinv) as [_ Hnum].
    destruct (Hnum _ _ Hget) as [[[=] _]|(n & r & Hn & Hk%chunk_id_of_inj & _)]. lia.
  - by rewrite dict_get_set_ne, dict_get_set_eq.
  - intros k Hk Hc. by rewrite !dict_get_set_ne.
Qed.


(** X5: in every state that a manager started on an empty data directory
    can be in, the listings [get_chunks_by_status], [get_untrained_chunks]
    and [get_all_loras] return without changing anything: the id they write
    into each record they list is the id the record already carries. *)
Theorem listings_read_only (ops : list op) (clock0 : nat) :
  let st := run ops (__init__ empty_disk clock0) in
  (forall status model_hash,
     exists chunks, get_chunks_by_status status model_hash st = Ok chunks st) /\
  (exists chunks, get_untrained_chunks st = Ok chunks st) /\
  (forall include_deleted,
     exists loras, get_all_loras include_deleted st = Ok loras st).
Proof.
  intros st. pose proof (run_ids_inv ops clock0) as Hinv. fold st in Hinv.
  pose proof (run_registries_inv ops _ (registries_inv_init clock0)) as Hwf. fold st in Hwf.
  assert (forall k c c', (k, Mapping c) ∈ chunk_registry st ->
            c' = Chunk.set_chunk_id k c -> c' = c) as Hchunk.
  { intros k c c' Hin ->. apply set_chunk_id_id.
    apply dict_elem_of_get in Hin; [|apply Hwf].
    by destruct (numbered_get _ _ _ _ _ _ (ii_chunks _ Hinv) Hin) as (n & _ & _ & ?). }
  assert (forall k r r', (k, Mapping r) ∈ lora_registry st ->
            r' = LoRA.set_lora_id k r -> r' = r) as Hlora.
  { intros k r r' Hin ->. apply set_lora_id_id.
    apply dict_elem_of_get in Hin; [|apply Hwf].
    by destruct (numbered_get _ _ _ _ _ _ (ii_loras _ Hinv) Hin) as (n & _ & _ & ?). }
  split_and!.
  - intros status model_hash. unfold get_chunks_by_status, mbind, M_bind, get_state, modify.
    pose proof (relabelled_id _ _ _
      (by_status_scan_relabelled status model_hash (chunk_registry st)) Hchunk) as Hid.
    destruct (by_status_scan status model_hash (chunk_registry st)) as [registry chunks].
    simpl in *. subst registry. rewrite set_chunk_registry_id. by eexists.
  - unfold get_untrained_chunks, mbind, M_bind, get_state, modify.
    pose proof (relabelled_id _ _ _
      (untrained_scan_relabelled (chunk_registry st)) Hchunk) as Hid.
    destruct (untrained_scan (chunk_registry st)) as [registry chunks].
    simpl in *. subst registry. rewrite set_chunk_registry_id. by eexists.
  - intros include_deleted. unfold get_all_loras, mbind, M_bind, get_state, modify.
    pose proof (relabelled_id _ _ _
      (all_loras_scan_relabelled include_deleted (lora_registry st)) Hlora) as Hid.
    destruct (all_loras_scan include_deleted (lora_registry st)) as [registry loras].
    simpl in *. subst registry. rewrite set_lora_registry_id. by eexists.
Qed.

(** *** Well-formed registries, together *)

Lemma registries_primitives : primitives (preserved registries_inv).
Proof.
  split.
  - apply stable_log.
  - apply stable_register_model.
  - apply stable_detect_model_change.
  - apply stable_create_chunk.
  - apply stable_mark.
  - apply stable_get_chunks_by_status.
  - apply stable_get_untrained_chunks.
  - apply stable_get_restorable_chunks.
  - apply stable_register_lora.
  - apply stable_get_all_loras.
  - apply stable_mark_lora_unusable.
  - apply stable_delete_lora.
Qed.

Lemma preserved_and (I1 I2 : State -> Prop) {A} (m : M A) :
  evolves (preserved I1) m ->
  (forall st, I1 st -> I2 st -> I2 (final (m st))) ->
  evolves (preserved (fun st => I1 st /\ I2 st)) m.
Proof. intros H1 H2 st [??]. split; [by apply H1|by apply H2]. Qed.

Lemma primitives_and (I1 I2 : State -> Prop) :
  primitives (preserved I1) -> primitives (preserved I2) ->
  primitives (preserved (fun st => I1 st /\ I2 st)).
Proof.
  intros [] []. split; intros; (apply preserved_and; [done|]); intros st _; revert st;
    match goal with H : _ |- _ => apply H end.
Qed.

Lemma well_formed_primitives : primitives (preserved well_formed).
Proof. apply primitives_and; [apply registries_primitives|apply ids_primitives]. Qed.

Lemma well_formed_init clock0 : well_formed (__init__ empty_disk clock0).
Proof. split; [apply registries_inv_init|apply ids_inv_init]. Qed.

Lemma run_well_formed ops clock0 : well_formed (run ops (__init__ empty_disk clock0)).
Proof. apply preserved_run; [apply well_formed_primitives|apply well_formed_init]. Qed.

(** A record of a well-formed registry carries the id it is stored under
    and is not stored under [_counter]. *)
Lemma well_formed_chunk st k c :
  well_formed st -> Dict.get k (chunk_registry st) = Some (Mapping c) ->
  Chunk.chunk_id c = k /\ k <> "_counter" /\ Py.startswith_underscore k = false.
Proof.
  intros [_ Hids] Hget.
  destruct (numbered_get _ _ _ _ _ _ (ii_chunks _ Hids) Hget) as (n & _ & -> & ?).
  split_and!; done.
Qed.

Lemma well_formed_lora st k r :
  well_formed st -> Dict.get k (lora_registry st) = Some (Mapping r) ->
  LoRA.lora_id r = k /\ k <> "_counter" /\ Py.startswith_underscore k = false.
Proof.
  intros [_ Hids] Hget.
  destruct (numbered_get _ _ _ _ _ _ (ii_loras _ Hids) Hget) as (n & _ & -> & ?).
  split_and!; done.
Qed.

(** In a well-formed state the listings that only write ids change
    nothing. *)
Lemma by_status_scan_id st status model_hash :
  well_formed st -> (by_status_scan status model_hash (chunk_registry st)).1 = chunk_registry st.
Proof.
  intros Hwf. eapply relabelled_id; [apply by_status_scan_relabelled|].
  intros k c c' Hin ->. apply set_chunk_id_id.
  apply dict_elem_of_get in Hin; [|apply Hwf]. by eapply well_formed_chunk.
Qed.

Lemma untrained_scan_id st :
  well_formed st -> (untrained_scan (chunk_registry st)).1 = chunk_registry st.
Proof.
  intros Hwf. eapply relabelled_id; [apply untrained_scan_relabelled|].
  intros k c c' Hin ->. apply set_chunk_id_id.
  apply dict_elem_of_get in Hin; [|apply Hwf]. by eapply well_formed_chunk.
Qed.

Lemma all_loras_scan_id st include_deleted :
  well_formed st -> (all_loras_scan include_deleted (lora_registry st)).1 = lora_registry st.
Proof.
  intros Hwf. eapply relabelled_id; [apply all_loras_scan_relabelled|].
  intros k c c' Hin ->. apply set_lora_id_id.
  apply dict_elem_of_get in Hin; [|apply Hwf]. by eapply well_formed_lora.
Qed.

Lemma get_chunks_by_status_run st status model_hash :
  well_formed st ->
  get_chunks_by_status status model_hash st =
    Ok (Py.sorted_reverse Chunk.created_at
          (by_status_scan status model_hash (chunk_registry st)).2) st.
Proof.
  intros Hwf. unfold get_chunks_by_status, mbind, M_bind, get_state, modify.
  pose proof (by_status_scan_id st status model_hash Hwf) as Hid.
  destruct (by_status_scan status model_hash (chunk_registry st)) as [registry chunks].
  simpl in *. subst registry. by rewrite set_chunk_registry_id.
Qed.

Lemma get_untrained_chunks_run st :
  well_formed st ->
  get_untrained_chunks st = Ok (untrained_scan (chunk_registry st)).2 st.
Proof.
  intros Hwf. unfold get_untrained_chunks, mbind, M_bind, get_state, modify.
  pose proof (untrained_scan_id st Hwf) as Hid.
  destruct (untrained_scan (chunk_registry st)) as [registry chunks].
  simpl in *. subst registry. by rewrite set_chunk_registry_id.
Qed.

Lemma get_all_loras_run st include_deleted :
  well_formed st ->
  get_all_loras include_deleted st =
    Ok (Py.sorted_reverse LoRA.created_at
          (all_loras_scan include_deleted (lora_registry st)).2) st.
Proof.
  intros Hwf. unfold get_all_loras, mbind, M_bind, get_state, modify.
  pose proof (all_loras_scan_id st include_deleted Hwf) as Hid.
  destruct (all_loras_scan include_deleted (lora_registry st)) as [registry loras].
  simpl in *. subst registry. by rewrite set_lora_registry_id.
Qed.

(** *** The data directory keeps up with the manager *)



Lemma counter_of_saved {R} (registry : dict (entry R)) k e n :
  counter_of (Dict.set "_counter" (Scalar n) (Dict.set k e registry)) = n.
Proof. unfold counter_of. by rewrite dict_get_set_eq. Qed.

Lemma synced_view_eq st st' : synced_view st' = synced_view st -> synced st -> synced st'.
Proof.
  unfold synced_view, registries_view.
  intros [= Hc Hcc Hl Hlc Hm Hcur Hcj Hlj Hmj Hman Hdoc] [].
  split; rewrite ?Hc, ?Hcc, ?Hl, ?Hlc, ?Hm, ?Hcur, ?Hcj, ?Hlj, ?Hmj, ?Hman, ?Hdoc; done.
Qed.

Lemma synced_chunk_side st st' :
  synced st ->
  adapter_side st' = adapter_side st ->
  unannotated_registry (_load_registry [] (chunk_registry_json (disk st'))) =
    unannotated_registry (chunk_registry st') ->
  counter_of (chunk_registry st') = _chunk_counter st' ->
  (forall k c, Dict.get k (chunk_registry st') = Some (Mapping c) ->
     (exists c', manifest_json (disk st') !! k = Some (Mapping c') /\
        Chunk.set_restore_reason None c' = Chunk.set_restore_reason None c) /\
     is_Some (documents_json (disk st') !! k)) ->
  synced st'.
Proof.
  unfold adapter_side. intros [] [= Hl Hlc Hm Hcur Hlj Hmj] Hreg Hcnt Hfiles.
  split; rewrite ?Hl, ?Hlc, ?Hm, ?Hcur, ?Hlj, ?Hmj; try done.
  - intros k c Hget. by apply (Hfiles k c).
  - intros k c Hget. by apply (Hfiles k c).
Qed.

Lemma synced_adapter_side st st' :
  synced st ->
  chunk_side st' = chunk_side st ->
  _load_registry [] (lora_registry_json (disk st')) = lora_registry st' ->
  counter_of (lora_registry st') = _lora_counter st' ->
  _load_registry Model.empty (model_registry_json (disk st')) = model_registry st' ->
  Model.current_model (model_registry st') = current_model st' ->
  synced st'.
Proof.
  unfold chunk_side. intros [] [= Hc Hcc Hcj Hman Hdoc] Hl Hlc Hm Hcur.
  split; rewrite ?Hc, ?Hcc, ?Hcj, ?Hman, ?Hdoc; done.
Qed.

Lemma keeps_synced_log details : keeps synced_view (_log_operation details).
Proof. unfold _log_operation. repeat keeps_step. Qed.

Lemma keeps_synced_detect_model_change model_path :
  keeps synced_view (detect_model_change model_path).
Proof. unfold detect_model_change. repeat keeps_step. Qed.

Lemma keeps_adapter_side_update_chunk_status chunk_id status details :
  keeps adapter_side (_update_chunk_status chunk_id status details).
Proof. unfold _update_chunk_status. keeps_unfold. repeat keeps_step. Qed.

Lemma keeps_adapter_side_mark m chunk_id : keeps adapter_side (mark_chunk m chunk_id).
Proof.
  destruct m; simpl;
    unfold mark_chunk_training, mark_chunk_trained, mark_chunk_failed,
      mark_chunk_restored;
    repeat keeps_step; apply keeps_adapter_side_update_chunk_status.
Qed.

Lemma keeps_adapter_side_create_chunk documents character metadata :
  keeps adapter_side (create_chunk documents character metadata).
Proof. unfold create_chunk. keeps_unfold. repeat keeps_step. Qed.

Lemma chunk_side_lora_frame st st' : lora_frame st st' -> chunk_side st' = chunk_side st.
Proof. intros []. unfold chunk_side. congruence. Qed.

Lemma chunk_side_model_frame st st' : model_frame st st' -> chunk_side st' = chunk_side st.
Proof. intros []. unfold chunk_side. congruence. Qed.

Lemma synced_mark m chunk_id st :
  well_formed st -> synced st -> synced (final (mark_chunk m chunk_id st)).
Proof.
  intros Hwf Hsync.
  destruct (Dict.get chunk_id (chunk_registry st)) as [[r|n]|] eqn:Hget.
  - destruct (mark_chunk_mapping m chunk_id st r Hget)
      as (st' & Hrun & Hreg & Hjson & Hman & _ & _ & Hf).
    pose proof (keeps_adapter_side_mark m chunk_id st) as Hside.
    rewrite Hrun in Hside |- *. simpl in *.
    destruct (well_formed_chunk _ _ _ Hwf Hget) as (_ & Hne & _).
    destruct (sy_manifest _ Hsync _ _ Hget) as (c0 & Hc0 & _).
    rewrite Hc0, dict_get_set_ne, dict_get_set_eq in Hman by done.
    apply (synced_chunk_side st); [done|done|by rewrite Hjson, Hreg| |].
    { by rewrite Hreg, counter_of_saved, (cf_chunk_counter _ _ Hf). }
    intros k c Hk. rewrite Hreg in Hk. rewrite Hman, (cf_documents_json _ _ Hf).
    destruct (decide (k = "_counter")) as [->|Hkc];
      [by rewrite dict_get_set_eq in Hk|rewrite dict_get_set_ne in Hk by done].
    destruct (decide (k = chunk_id)) as [->|Hkk].
    + rewrite dict_get_set_eq in Hk. injection Hk as <-. split.
      * eexists. by rewrite lookup_insert_eq.
      * by eapply sy_documents.
    + rewrite dict_get_set_ne in Hk by done. rewrite lookup_insert_ne by done. split.
      * by eapply sy_manifest.
      * by eapply sy_documents.
  - by destruct (mark_chunk_scalar m chunk_id st n Hget) as [e ->].
  - by rewrite mark_chunk_absent.
Qed.

Lemma relabelled_unannotated upd items items' :
  relabelled upd items items' ->
  (forall k r r', (k, Mapping r) ∈ items -> upd k r r' ->
     Chunk.set_restore_reason None r' = Chunk.set_restore_reason None r) ->
  unannotated_registry items' = unannotated_registry items.
Proof.
  induction 1 as [|[k1 e1] [k2 e2] rest rest' [Hk He] _ IH]; intros Hid; [done|].
  simpl in *. subst k2. f_equal.
  - unfold prod_map. simpl. f_equal.
    destruct He as [->|(r & r' & -> & -> & Hupd)]; [done|].
    simpl. f_equal. eapply Hid; [|done]. left.
  - apply IH. intros k r r' Hin. apply Hid. by right.
Qed.

Lemma registries_inv_lora_registered st st1 record :
  lora_registered st st1 record -> registries_inv st -> registries_inv st1.
Proof.
  intros Hreg [Hcw Hcs Hlw Hls]. split.
  - by rewrite (lr_chunk_registry _ _ _ Hreg).
  - by rewrite (lr_chunk_registry _ _ _ Hreg), (lr_chunk_counter _ _ _ Hreg).
  - rewrite (lr_lora_registry _ _ _ Hreg). by do 2 apply dict_wf_set.
  - rewrite (lr_lora_registry _ _ _ Hreg), (lr_lora_counter _ _ _ Hreg). apply saved_set.
Qed.

Lemma ids_inv_lora_registered st st1 record :
  lora_registered st st1 record -> ids_inv st -> ids_inv st1.
Proof.
  intros Hreg Hinv. eapply ids_inv_loras; [done| |apply Hreg..].
  rewrite (lr_lora_registry _ _ _ Hreg), (lr_lora_counter _ _ _ Hreg).
  destruct (ii_loras _ Hinv) as [Hpos _].
  eapply numbered_set with (n := _lora_counter st + 1);
    [apply Hinv|lia|lia|done|apply Hreg|done].
Qed.

Lemma synced_lora_registered st st1 record :
  lora_registered st st1 record -> synced st -> synced st1.
Proof.
  intros Hreg Hsync. apply (synced_adapter_side st); [done|..].
  - unfold chunk_side. by destruct Hreg; congruence.
  - by rewrite (lr_lora_registry_json _ _ _ Hreg).
  - by rewrite (lr_lora_registry _ _ _ Hreg), counter_of_saved, (lr_lora_counter _ _ _ Hreg).
  - destruct (lr_model_registry _ _ _ Hreg) as [(-> & -> & _)|[-> _]]; [apply Hsync|done].
  - rewrite (lr_current_model _ _ _ Hreg), <- (sy_current_model _ Hsync).
    by destruct (lr_model_registry _ _ _ Hreg) as [(-> & _)|(_ & -> & _)].
Qed.

Lemma synced_primitives : primitives (preserved (fun st => well_formed st /\ synced st)).
Proof.
  split.
  - intros details. apply preserved_and; [apply well_formed_primitives|].
    intros st _. apply synced_view_eq, keeps_synced_log.
  - intros model_path friendly_name.
    apply preserved_and; [apply well_formed_primitives|]. intros st _ Hsync.
    destruct (register_model_run model_path friendly_name st)
      as (r & st' & -> & _ & _ & _ & _ & Hcur & Hmcur & Hjson & Hf).
    simpl. apply (synced_adapter_side st); [done|by apply chunk_side_model_frame|..].
    + rewrite (mf_lora_registry_json _ _ Hf), (mf_lora_registry _ _ Hf). apply Hsync.
    + rewrite (mf_lora_registry _ _ Hf), (mf_lora_counter _ _ Hf). apply Hsync.
    + by rewrite Hjson.
    + by rewrite Hcur, Hmcur.
  - intros model_path. apply preserved_and; [apply well_formed_primitives|].
    intros st _. apply synced_view_eq, keeps_synced_detect_model_change.
  - intros docs character metadata.
    apply preserved_and; [apply well_formed_primitives|]. intros st Hwf Hsync.
    pose proof (keeps_adapter_side_create_chunk docs character metadata st) as Hside.
    destruct (create_chunk_run docs character metadata st)
      as (chunk & st' & Hrun & Hid & _ & _ & _ & Hc & Hdoc & Hman & Hreg & Hjson & _).
    rewrite Hrun in Hside |- *. simpl in *.
    apply (synced_chunk_side st); [done|done|by rewrite Hjson| |].
    { by rewrite Hreg, counter_of_saved. }
    intros k c Hk. rewrite Hreg in Hk. rewrite Hman, Hdoc.
    destruct (decide (k = "_counter")) as [->|Hkc];
      [by rewrite dict_get_set_eq in Hk|rewrite dict_get_set_ne in Hk by done].
    destruct (decide (k = "chunk_" +:+ Py.format_04d (_chunk_counter st + 1))) as [->|Hkk].
    + rewrite dict_get_set_eq in Hk. injection Hk as <-.
      rewrite !lookup_insert_eq. eauto.
    + rewrite dict_get_set_ne in Hk by done. rewrite !lookup_insert_ne by done. split.
      * by eapply sy_manifest.
      * by eapply sy_documents.
  - intros m chunk_id. apply preserved_and; [apply well_formed_primitives|].
    apply synced_mark.
  - intros status model_hash. apply preserved_and; [apply well_formed_primitives|].
    intros st Hwf Hsync. by rewrite get_chunks_by_status_run.
  - apply preserved_and; [apply well_formed_primitives|].
    intros st Hwf Hsync. by rewrite get_untrained_chunks_run.
  - intros model_identity_hash. apply preserved_and; [apply well_formed_primitives|].
    intros st Hwf Hsync. rewrite get_restorable_chunks_run. simpl.
    set (scan := restorable_scan _ _ _).
    pose proof (restorable_scan_relabelled
      (Py.or_ model_identity_hash (current_model st)) (documents_json (disk st))
      (chunk_registry st)) as Hrel. fold scan in Hrel.
    assert (forall k r r',
      Dict.get k (chunk_registry st) = Some (Mapping r) ->
      (exists reason, r' = Chunk.set_restore_reason reason (Chunk.set_chunk_id k r)) ->
      Chunk.set_restore_reason None r' = Chunk.set_restore_reason None r) as Hupd.
    { intros k r r' Hget [reason ->].
      destruct (well_formed_chunk _ _ _ Hwf Hget) as (Hid & _).
      by rewrite set_chunk_id_id. }
    apply (synced_chunk_side st); [done|done|simpl..].
    + rewrite (sy_chunk_registry _ Hsync). symmetry.
      eapply relabelled_unannotated; [done|]. intros k r r' Hin. apply Hupd.
      apply dict_elem_of_get; [apply Hwf|done].
    + rewrite <- (sy_chunk_counter _ Hsync). unfold counter_of.
      pose proof (relabelled_get _ _ _ "_counter" Hrel) as Hc.
      destruct (Dict.get "_counter" (chunk_registry st)) as [e|]; [|by rewrite Hc].
      by destruct Hc as (e' & -> & [->|(r & r' & -> & -> & _)]).
    + intros k c Hk.
      destruct (relabelled_get_Some _ _ _ _ _ Hrel Hk)
        as (e & He & [<-|(r & r' & -> & [= <-] & Hr)]).
      * split; [by eapply sy_manifest|by eapply sy_documents].
      * rewrite (Hupd _ _ _ He Hr).
        split; [by eapply sy_manifest|by eapply sy_documents].
  - intros chunk_ids lora_path training_config metrics.
    refine (evolves_register_lora _ _ _ _ _ _ _ _).
    + intros m chunk_id. apply preserved_and; [apply well_formed_primitives|].
      apply synced_mark.
    + intros details. apply preserved_and; [apply well_formed_primitives|].
      intros st _. apply synced_view_eq, keeps_synced_log.
    + intros st st1 record Hreg [[Hr Hi] Hsync]. split; [split|].
      * by eapply registries_inv_lora_registered.
      * by eapply ids_inv_lora_registered.
      * by eapply synced_lora_registered.
  - intros include_deleted. apply preserved_and; [apply well_formed_primitives|].
    intros st Hwf Hsync. by rewrite get_all_loras_run.
  - intros lora_id reason. apply preserved_and; [apply well_formed_primitives|].
    intros st Hwf Hsync.
    destruct (Dict.get lora_id (lora_registry st)) as [[r|n]|] eqn:Hget.
    + destruct (mark_lora_unusable_mapping lora_id reason st r Hget)
        as (st' & -> & Hreg & Hjson & _ & _ & _ & Hf).
      simpl. apply (synced_adapter_side st); [done|by apply chunk_side_lora_frame|..].
      * by rewrite Hjson.
      * by rewrite Hreg, counter_of_saved, (lf_lora_counter _ _ Hf).
      * rewrite (lf_model_registry_json _ _ Hf), (lf_model_registry _ _ Hf). apply Hsync.
      * rewrite (lf_model_registry _ _ Hf), (lf_current_model _ _ Hf). apply Hsync.
    + by destruct (mark_lora_unusable_scalar lora_id reason st n Hget) as [e ->].
    + by rewrite mark_lora_unusable_absent.
  - intros lora_id delete_files. apply preserved_and; [apply well_formed_primitives|].
    intros st Hwf Hsync.
    destruct (Dict.get lora_id (lora_registry st)) as [[r|n]|] eqn:Hget.
    + destruct (delete_lora_mapping lora_id delete_files st r Hget)
        as (st' & -> & Hreg & Hjson & _ & _ & _ & Hf).
      simpl. apply (synced_adapter_side st); [done|by apply chunk_side_lora_frame|..].
      * by rewrite Hjson.
      * by rewrite Hreg, counter_of_saved, (lf_lora_counter _ _ Hf).
      * rewrite (lf_model_registry_json _ _ Hf), (lf_model_registry _ _ Hf). apply Hsync.
      * rewrite (lf_model_registry _ _ Hf), (lf_current_model _ _ Hf). apply Hsync.
    + by destruct (delete_lora_scalar lora_id delete_files st n Hget) as [e ->].
    + by rewrite delete_lora_absent.
Qed.

Lemma synced_init clock0 : synced (__init__ empty_disk clock0).
Proof. by split. Qed.

Lemma run_synced ops clock0 : synced (run ops (__init__ empty_disk clock0)).
Proof.
  apply (preserved_run (fun st => well_formed st /\ synced st));
    [apply synced_primitives|]. split; [apply well_formed_init|apply synced_init].
Qed.



(** X7: in every state that a manager started on an empty data directory
    can be in, every chunk of the registry carries the id it is stored
    under, has its [documents.json], and has a [manifest.json] that holds
    the record of the registry, up to [restore_reason]. *)
Theorem chunk_files_present (ops : list op) (clock0 : nat) :
  let st := run ops (__init__ empty_disk clock0) in
  forall chunk_id c, get_chunk chunk_id st = Some (Mapping c) ->
    Chunk.chunk_id c = chunk_id /\
    is_Some (get_chunk_documents chunk_id st) /\
    exists c', manifest_json (disk st) !! chunk_id = Some (Mapping c') /\
      Chunk.set_restore_reason None c' = Chunk.set_restore_reason None c.
Proof.
  intros st chunk_id c Hget. unfold get_chunk in Hget.
  pose proof (run_synced ops clock0) as Hsync. fold st in Hsync.
  pose proof (run_well_formed ops clock0) as Hwf. fold st in Hwf.
  split_and!.
  - by eapply well_formed_chunk.
  - by eapply sy_documents.
  - by eapply sy_manifest.
Qed.

(** ** What becomes of a record *)

#[local] Instance guarded_preorder I P `{!PreOrder P} : PreOrder (guarded I P).
Proof.
  split; unfold guarded.
  - intros st HI. split; [done|reflexivity].
  - intros st1 st2 st3 H12 H23 HI. destruct (H12 HI) as [HI2 HP12].
    destruct (H23 HI2) as [HI3 HP23]. split; [done|by etrans].
Qed.

Lemma guarded_and I (P : relation State) {A} (m : M A) :
  evolves (preserved I) m ->
  (forall st, I st -> P st (final (m st))) ->
  evolves (guarded I P) m.
Proof. intros HI HP st Hst. split; [by apply HI|by apply HP]. Qed.

Lemma guarded_run I P `{!PreOrder P} ops0 ops clock0 :
  primitives (guarded I P) -> primitives (preserved I) ->
  I (__init__ empty_disk clock0) ->
  P (run ops0 (__init__ empty_disk clock0)) (run ops (run ops0 (__init__ empty_disk clock0))).
Proof.
  intros Hprim HI Hinit.
  by apply (evolves_run (guarded I P) Hprim ops), preserved_run.
Qed.

(** *** Adapter records *)

Lemma adapter_kept_refl r : adapter_kept r r.
Proof. split; auto. Qed.

#[local] Instance adapters_kept_preorder : PreOrder adapters_kept.
Proof.
  split.
  - intros st k r Hget. exists r. split; [done|apply adapter_kept_refl].
  - intros st1 st2 st3 H12 H23 k r Hget.
    destruct (H12 _ _ Hget) as (r2 & Hget2 & K2).
    destruct (H23 _ _ Hget2) as (r3 & Hget3 & K3).
    exists r3. split; [done|]. split; try (etrans; [apply K3|apply K2]).
    destruct (ak_status _ _ K2) as [H|[H|H]], (ak_status _ _ K3) as [H'|[H'|H']];
      rewrite ?H', ?H; auto.
Qed.

Lemma adapters_kept_eq st st' : lora_registry st' = lora_registry st -> adapters_kept st st'.
Proof. intros Heq k r Hget. exists r. rewrite Heq. split; [done|apply adapter_kept_refl]. Qed.

Lemma adapters_kept_keeps {A} (m : M A) st : keeps adapters_view m -> adapters_kept st (final (m st)).
Proof.
  intros Hkeeps. apply adapters_kept_eq. specialize (Hkeeps st).
  unfold adapters_view in Hkeeps. by injection Hkeeps.
Qed.

Lemma keeps_registries_lora {A} (m : M A) st :
  keeps registries_view m -> lora_registry (final (m st)) = lora_registry st.
Proof.
  intros Hkeeps. specialize (Hkeeps st). unfold registries_view in Hkeeps.
  by injection Hkeeps.
Qed.

Lemma keeps_registries_chunk {A} (m : M A) st :
  keeps registries_view m -> chunk_registry (final (m st)) = chunk_registry st.
Proof.
  intros Hkeeps. specialize (Hkeeps st). unfold registries_view in Hkeeps.
  by injection Hkeeps.
Qed.

Lemma adapters_kept_update st st' k r r' n :
  well_formed st ->
  Dict.get k (lora_registry st) = Some (Mapping r) ->
  lora_registry st' = Dict.set "_counter" (Scalar n) (Dict.set k (Mapping r') (lora_registry st)) ->
  adapter_kept r r' ->
  adapters_kept st st'.
Proof.
  intros Hwf Hget Hreg Hkept k0 r0 Hget0. rewrite Hreg.
  destruct (well_formed_lora _ _ _ Hwf Hget0) as (_ & Hne & _).
  rewrite dict_get_set_ne by done. destruct (decide (k0 = k)) as [->|Hk].
  - rewrite dict_get_set_eq. exists r'. split; [done|]. congruence.
  - rewrite dict_get_set_ne by done. exists r0. split; [done|apply adapter_kept_refl].
Qed.

Lemma fresh_lora_id st :
  well_formed st -> Dict.get (lora_id_of (_lora_counter st + 1)) (lora_registry st) = None.
Proof.
  intros [_ Hids]. destruct (Dict.get _ (lora_registry st)) as [e|] eqn:Hget; [|done].
  destruct (ii_loras _ Hids) as [_ Hnum].
  destruct (Hnum _ _ Hget) as [[[=] _]|(n & r & Hn & Hk%lora_id_of_inj & _)]. lia.
Qed.

Lemma fresh_chunk_id st :
  well_formed st -> Dict.get (chunk_id_of (_chunk_counter st + 1)) (chunk_registry st) = None.
Proof.
  intros [_ Hids]. destruct (Dict.get _ (chunk_registry st)) as [e|] eqn:Hget; [|done].
  destruct (ii_chunks _ Hids) as [_ Hnum].
  destruct (Hnum _ _ Hget) as [[[=] _]|(n & r & Hn & Hk%chunk_id_of_inj & _)]. lia.
Qed.

Lemma adapters_kept_primitives : primitives (guarded well_formed adapters_kept).
Proof.
  split.
  - intros details. apply guarded_and; [apply well_formed_primitives|]. intros st _.
    apply adapters_kept_eq, keeps_registries_lora, keeps_registries_log.
  - intros model_path friendly_name.
    apply guarded_and; [apply well_formed_primitives|]. intros st _.
    apply adapters_kept_eq, keeps_registries_lora, keeps_registries_register_model.
  - intros model_path. apply guarded_and; [apply well_formed_primitives|]. intros st _.
    apply adapters_kept_keeps, keeps_adapters_detect_model_change.
  - intros docs character metadata.
    apply guarded_and; [apply well_formed_primitives|]. intros st _.
    apply adapters_kept_keeps, keeps_adapters_create_chunk.
  - intros m chunk_id. apply guarded_and; [apply well_formed_primitives|]. intros st _.
    apply adapters_kept_keeps, keeps_adapters_mark.
  - intros status model_hash. apply guarded_and; [apply well_formed_primitives|].
    intros st _. apply adapters_kept_keeps, keeps_adapters_get_chunks_by_status.
  - apply guarded_and; [apply well_formed_primitives|].
    intros st _. apply adapters_kept_keeps, keeps_adapters_get_untrained_chunks.
  - intros model_identity_hash. apply guarded_and; [apply well_formed_primitives|].
    intros st _. apply adapters_kept_keeps, keeps_adapters_get_restorable_chunks.
  - intros chunk_ids lora_path training_config metrics.
    refine (evolves_register_lora _ _ _ _ _ _ _ _).
    + intros m chunk_id. apply guarded_and; [apply well_formed_primitives|]. intros st _.
      apply adapters_kept_keeps, keeps_adapters_mark.
    + intros details. apply guarded_and; [apply well_formed_primitives|]. intros st _.
      apply adapters_kept_eq, keeps_registries_lora, keeps_registries_log.
    + intros st st1 record Hreg Hwf. split.
      { destruct Hwf. split;
          [by eapply registries_inv_lora_registered|by eapply ids_inv_lora_registered]. }
      intros k r Hget. rewrite (lr_lora_registry _ _ _ Hreg).
      destruct (well_formed_lora _ _ _ Hwf Hget) as (_ & Hne & _).
      rewrite !dict_get_set_ne; [by exists r; split; [|apply adapter_kept_refl]| |done].
      intros <-. by rewrite fresh_lora_id in Hget.
  - intros include_deleted. apply guarded_and; [apply well_formed_primitives|].
    intros st Hwf. rewrite get_all_loras_run by done. simpl. reflexivity.
  - intros lora_id reason. apply guarded_and; [apply well_formed_primitives|].
    intros st Hwf.
    destruct (Dict.get lora_id (lora_registry st)) as [[r|n]|] eqn:Hget.
    + destruct (mark_lora_unusable_mapping lora_id reason st r Hget)
        as (st' & -> & Hreg & _).
      simpl. eapply adapters_kept_update; [done..|]. split; simpl; auto.
    + destruct (mark_lora_unusable_scalar lora_id reason st n Hget) as [e ->].
      simpl. reflexivity.
    + rewrite mark_lora_unusable_absent by done. simpl. reflexivity.
  - intros lora_id delete_files. apply guarded_and; [apply well_formed_primitives|].
    intros st Hwf.
    destruct (Dict.get lora_id (lora_registry st)) as [[r|n]|] eqn:Hget.
    + destruct (delete_lora_mapping lora_id delete_files st r Hget)
        as (st' & -> & Hreg & _).
      simpl. eapply adapters_kept_update; [done..|]. split; simpl; auto.
    + destruct (delete_lora_scalar lora_id delete_files st n Hget) as [e ->].
      simpl. reflexivity.
    + rewrite delete_lora_absent by done. simpl. reflexivity.
Qed.

(** X8: an adapter record that is in the registry of a manager started on
    an empty data directory stays in it whatever operations follow; its
    model, its chunks, its path and the rest of what [register_lora] wrote
    never change; and its status changes only to [unusable] or [deleted], so
    that an adapter that is not active never becomes active again. *)
Theorem adapter_record_kept (ops0 ops : list op) (clock0 : nat) :
  let st := run ops0 (__init__ empty_disk clock0) in
  let st' := run ops st in
  forall lora_id r, Dict.get lora_id (lora_registry st) = Some (Mapping r) ->
    exists r', Dict.get lora_id (lora_registry st') = Some (Mapping r') /\
      adapter_kept r r' /\
      (LoRA.status r <> "active" -> LoRA.status r' <> "active").
Proof.
  intros st st' lora_id r Hget.
  destruct (guarded_run well_formed adapters_kept ops0 ops clock0
              adapters_kept_primitives well_formed_primitives (well_formed_init clock0)
              lora_id r Hget) as (r' & Hget' & Hkept).
  exists r'. split_and!; try done. intros Hne.
  by destruct (ak_status _ _ Hkept) as [->|[->| ->]].
Qed.

(** *** Chunk records *)

Lemma chunk_kept_refl c : chunk_kept c c.
Proof. by split. Qed.

#[local] Instance chunks_kept_preorder : PreOrder chunks_kept.
Proof.
  split.
  - intros st k c Hget. exists c. split; [done|apply chunk_kept_refl].
  - intros st1 st2 st3 H12 H23 k c Hget.
    destruct (H12 _ _ Hget) as (c2 & Hget2 & K2).
    destruct (H23 _ _ Hget2) as (c3 & Hget3 & K3).
    exists c3. split; [done|]. split; try (etrans; [apply K3|apply K2]).
    etrans; [apply K2|apply K3].
Qed.

Lemma chunks_kept_eq st st' : chunk_registry st' = chunk_registry st -> chunks_kept st st'.
Proof. intros Heq k c Hget. exists c. rewrite Heq. split; [done|apply chunk_kept_refl]. Qed.

Lemma chunks_kept_update st st' k c c' n :
  well_formed st ->
  Dict.get k (chunk_registry st) = Some (Mapping c) ->
  chunk_registry st' =
    Dict.set "_counter" (Scalar n) (Dict.set k (Mapping c') (chunk_registry st)) ->
  chunk_kept c c' ->
  chunks_kept st st'.
Proof.
  intros Hwf Hget Hreg Hkept k0 c0 Hget0. rewrite Hreg.
  destruct (well_formed_chunk _ _ _ Hwf Hget0) as (_ & Hne & _).
  rewrite dict_get_set_ne by done. destruct (decide (k0 = k)) as [->|Hk].
  - rewrite dict_get_set_eq. exists c'. split; [done|]. congruence.
  - rewrite dict_get_set_ne by done. exists c0. split; [done|apply chunk_kept_refl].
Qed.

Lemma chunk_kept_mark m t c :
  chunk_kept c (status_changed (mark_status m) (mark_details m) t (bind_adapter m c)).
Proof. destruct m; split; simpl; try done; by apply prefix_app_r. Qed.

Lemma chunks_kept_mark m chunk_id st :
  well_formed st -> chunks_kept st (final (mark_chunk m chunk_id st)).
Proof.
  intros Hwf. destruct (Dict.get chunk_id (chunk_registry st)) as [[r|n]|] eqn:Hget.
  - destruct (mark_chunk_mapping m chunk_id st r Hget) as (st' & -> & Hreg & _).
    simpl. eapply chunks_kept_update; [done..|]. apply chunk_kept_mark.
  - destruct (mark_chunk_scalar m chunk_id st n Hget) as [e ->]. simpl. reflexivity.
  - rewrite mark_chunk_absent by done. simpl. reflexivity.
Qed.

Lemma chunks_kept_primitives : primitives (guarded well_formed chunks_kept).
Proof.
  split.
  - intros details. apply guarded_and; [apply well_formed_primitives|]. intros st _.
    apply chunks_kept_eq, keeps_registries_chunk, keeps_registries_log.
  - intros model_path friendly_name.
    apply guarded_and; [apply well_formed_primitives|]. intros st _.
    apply chunks_kept_eq, keeps_registries_chunk, keeps_registries_register_model.
  - intros model_path. apply guarded_and; [apply well_formed_primitives|]. intros st _.
    apply chunks_kept_eq, keeps_registries_chunk, keeps_registries_detect_model_change.
  - intros docs character metadata.
    apply guarded_and; [apply well_formed_primitives|]. intros st Hwf.
    destruct (create_chunk_run docs character metadata st)
      as (chunk & st' & -> & _ & _ & _ & _ & _ & _ & _ & Hreg & _).
    simpl in *. intros k c Hget. rewrite Hreg.
    destruct (well_formed_chunk _ _ _ Hwf Hget) as (_ & Hne & _).
    rewrite !dict_get_set_ne; [by exists c; split; [|apply chunk_kept_refl]| |done].
    intros <-. pose proof (fresh_chunk_id _ Hwf) as Hfresh.
    unfold chunk_id_of in Hfresh. congruence.
  - intros m chunk_id. apply guarded_and; [apply well_formed_primitives|].
    apply chunks_kept_mark.
  - intros status model_hash. apply guarded_and; [apply well_formed_primitives|].
    intros st Hwf. rewrite get_chunks_by_status_run by done. simpl. reflexivity.
  - apply guarded_and; [apply well_formed_primitives|].
    intros st Hwf. rewrite get_untrained_chunks_run by done. simpl. reflexivity.
  - intros model_identity_hash. apply guarded_and; [apply well_formed_primitives|].
    intros st Hwf. rewrite get_restorable_chunks_run. simpl. intros k c Hget. simpl.
    pose proof (relabelled_get _ _ _ k
      (restorable_scan_relabelled (Py.or_ model_identity_hash (current_model st))
         (documents_json (disk st)) (chunk_registry st))) as Hrel.
    rewrite Hget in Hrel.
    destruct Hrel as (e' & -> & [->|(r & r' & [= <-] & -> & reason & ->)]).
    + exists c. split; [done|apply chunk_kept_refl].
    + eexists. split; [done|]. destruct (well_formed_chunk _ _ _ Hwf Hget) as (Hid & _).
      by split.
  - intros chunk_ids lora_path training_config metrics.
    refine (evolves_register_lora _ _ _ _ _ _ _ _).
    + intros m chunk_id. apply guarded_and; [apply well_formed_primitives|].
      apply chunks_kept_mark.
    + intros details. apply guarded_and; [apply well_formed_primitives|]. intros st _.
      apply chunks_kept_eq, keeps_registries_chunk, keeps_registries_log.
    + intros st st1 record Hreg Hwf. split.
      { destruct Hwf. split;
          [by eapply registries_inv_lora_registered|by eapply ids_inv_lora_registered]. }
      apply chunks_kept_eq, Hreg.
  - intros include_deleted. apply guarded_and; [apply well_formed_primitives|].
    intros st Hwf. rewrite get_all_loras_run by done. simpl. reflexivity.
  - intros lora_id reason. apply guarded_and; [apply well_formed_primitives|].
    intros st Hwf.
    destruct (Dict.get lora_id (lora_registry st)) as [[r|n]|] eqn:Hget.
    + destruct (mark_lora_unusable_mapping lora_id reason st r Hget)
        as (st' & -> & _ & _ & _ & _ & _ & Hf).
      simpl. apply chunks_kept_eq, Hf.
    + destruct (mark_lora_unusable_scalar lora_id reason st n Hget) as [e ->].
      simpl. reflexivity.
    + rewrite mark_lora_unusable_absent by done. simpl. reflexivity.
  - intros lora_id delete_files. apply guarded_and; [apply well_formed_primitives|].
    intros st Hwf.
    destruct (Dict.get lora_id (lora_registry st)) as [[r|n]|] eqn:Hget.
    + destruct (delete_lora_mapping lora_id delete_files st r Hget)
        as (st' & -> & _ & _ & _ & _ & _ & Hf).
      simpl. apply chunks_kept_eq, Hf.
    + destruct (delete_lora_scalar lora_id delete_files st n Hget) as [e ->].
      simpl. reflexivity.
    + rewrite delete_lora_absent by done. simpl. reflexivity.
Qed.

(** X9: a chunk record that is in the registry of a manager started on an
    empty data directory stays in it whatever operations follow; its id,
    creation time, model, documents ids and count, character and metadata
    never change; and its history only grows: the history it had is the
    beginning of the history it has later. *)
Theorem chunk_record_kept (ops0 ops : list op) (clock0 : nat) :
  let st := run ops0 (__init__ empty_disk clock0) in
  let st' := run ops st in
  forall chunk_id c, get_chunk chunk_id st = Some (Mapping c) ->
    exists c', get_chunk chunk_id st' = Some (Mapping c') /\
      chunk_kept c c' /\
      exists entries, Chunk.history c' = Chunk.history c ++ entries.
Proof.
  intros st st' chunk_id c Hget.
  destruct (guarded_run well_formed chunks_kept ops0 ops clock0
              chunks_kept_primitives well_formed_primitives (well_formed_init clock0)
              chunk_id c Hget) as (c' & Hget' & Hkept).
  exists c'. split_and!; try done. apply Hkept.
Qed.

(** *** Known models *)

Lemma model_kept_refl i : model_kept i i.
Proof. by split. Qed.

#[local] Instance models_kept_preorder : PreOrder models_kept.
Proof.
  split.
  - intros st h i Hget. exists i. split; [done|apply model_kept_refl].
  - intros st1 st2 st3 H12 H23 h i Hget.
    destruct (H12 _ _ Hget) as (i2 & Hget2 & K2).
    destruct (H23 _ _ Hget2) as (i3 & Hget3 & K3).
    exists i3. split; [done|]. split; try (etrans; [apply K3|apply K2]).
    + etrans; [apply K2|apply K3].
    + etrans; [apply K2|apply K3].
Qed.

Lemma models_kept_keeps {A} (m : M A) : keeps model_registry m -> evolves models_kept m.
Proof. intros Hkeeps st h i Hget. exists i. rewrite Hkeeps. split; [done|apply model_kept_refl]. Qed.

Lemma models_kept_set st st' h i' :
  Model.known_models (model_registry st') =
    Dict.set h i' (Model.known_models (model_registry st)) ->
  (forall i, Dict.get h (Model.known_models (model_registry st)) = Some i -> model_kept i i') ->
  models_kept st st'.
Proof.
  intros Hreg Hkept h0 i0 Hget. rewrite Hreg. destruct (decide (h0 = h)) as [->|Hne].
  - rewrite dict_get_set_eq. exists i'. split; [done|by apply Hkept].
  - rewrite dict_get_set_ne by done. exists i0. split; [done|apply model_kept_refl].
Qed.

(** What [register_model] does to the entry of the model. *)
Lemma register_model_known model_path friendly_name st :
  let h := hash_of model_path st in
  let known := Model.known_models (model_registry st) in
  exists r st',
    register_model model_path friendly_name st = Ok r st' /\
    match Dict.get h known with
    | Some info =>
        Model.known_models (model_registry st') =
          Dict.set h
            (Model.set_times_used (Model.times_used info + 1)
               (Model.set_last_seen (isoformat_at (S (clock st))) info)) known /\
        rr_is_new r = false /\
        rr_friendly_name r = Model.k_friendly_name info
    | None =>
        exists info,
          Model.known_models (model_registry st') = Dict.set h info known /\
          Model.first_seen info = isoformat_at (S (clock st)) /\
          Model.last_seen info = isoformat_at (S (S (clock st))) /\
          Model.k_friendly_name info =
            or_name friendly_name
              (Model.name (identify_model model_path (isoformat_at (clock st)))) /\
          Model.times_used info = 1 /\
          Model.lora_ids info = [] /\
          rr_is_new r = true /\
          rr_friendly_name r = Model.k_friendly_name info
    end.
Proof.
  unfold register_model, mbind, M_bind, get_state, hash_of, Dict.mem. cbn.
  destruct (Dict.get _ (Model.known_models (model_registry st))) as [info|] eqn:Hget; cbn;
    (eexists _, _; split; [reflexivity|]); cbn.
  - rewrite dict_get_set_eq. by split_and!.
  - eexists. rewrite dict_get_set_eq. cbn. split; [reflexivity|]. cbn.
    destruct (Py.truthy (Py.of_opt friendly_name)); by split_and!.
Qed.

Lemma keeps_model_log details : keeps model_registry (_log_operation details).
Proof. unfold _log_operation. repeat keeps_step. Qed.

Lemma keeps_model_update_chunk_status chunk_id status details :
  keeps model_registry (_update_chunk_status chunk_id status details).
Proof. unfold _update_chunk_status. keeps_unfold. repeat keeps_step. Qed.

Lemma keeps_model_mark m chunk_id : keeps model_registry (mark_chunk m chunk_id).
Proof.
  destruct m; simpl;
    unfold mark_chunk_training, mark_chunk_trained, mark_chunk_failed,
      mark_chunk_restored;
    repeat keeps_step; apply keeps_model_update_chunk_status.
Qed.

Lemma models_kept_primitives : primitives models_kept.
Proof.
  split.
  - intros details. apply models_kept_keeps, keeps_model_log.
  - intros model_path friendly_name st.
    destruct (register_model_known model_path friendly_name st) as (r & st' & -> & H).
    simpl. destruct (Dict.get _ _) as [info|] eqn:Hget.
    + destruct H as (Hreg & _). eapply models_kept_set; [done|].
      intros i Hi. rewrite Hget in Hi. injection Hi as <-. split; simpl; try done. lia.
    + destruct H as (info & Hreg & _). eapply models_kept_set; [done|].
      intros i Hi. by rewrite Hget in Hi.
  - intros model_path. apply models_kept_keeps.
    unfold detect_model_change. repeat keeps_step.
  - intros docs character metadata. apply models_kept_keeps.
    unfold create_chunk. keeps_unfold. repeat keeps_step.
  - intros m chunk_id. apply models_kept_keeps, keeps_model_mark.
  - intros status model_hash. apply models_kept_keeps.
    unfold get_chunks_by_status. repeat keeps_step.
  - apply models_kept_keeps. unfold get_untrained_chunks. repeat keeps_step.
  - intros model_identity_hash. apply models_kept_keeps.
    unfold get_restorable_chunks. repeat keeps_step.
  - intros chunk_ids lora_path training_config metrics.
    refine (evolves_register_lora _ _ _ _ _ _ _ _).
    + intros m chunk_id. apply models_kept_keeps, keeps_model_mark.
    + intros details. apply models_kept_keeps, keeps_model_log.
    + intros st st1 record Hreg.
      destruct (lr_model_registry _ _ _ Hreg)
        as [(Heq & _)|(_ & _ & current & info & _ & Hinfo & Hknown)].
      * intros h i Hget. exists i. rewrite Heq. split; [done|apply model_kept_refl].
      * eapply models_kept_set; [done|]. intros i Hi. rewrite Hinfo in Hi.
        injection Hi as <-. split; simpl; try done.
        case_bool_decide; [done|by apply prefix_app_r].
  - intros include_deleted. apply models_kept_keeps.
    unfold get_all_loras. repeat keeps_step.
  - intros lora_id reason. apply models_kept_keeps.
    unfold mark_lora_unusable. keeps_unfold. repeat keeps_step.
  - intros lora_id delete_files. apply models_kept_keeps.
    unfold delete_lora. keeps_unfold. repeat keeps_step.
Qed.

(** X10: a model that the model registry knows stays known whatever
    operations follow, in any state; the identity recorded when it was first
    registered, its [first_seen] and its friendly name never change, its
    [times_used] never decreases, and its list of adapters only grows. *)
Theorem known_model_kept (ops : list op) (st : State) (identity_hash : string)
    (info : Model.known) :
  Dict.get identity_hash (Model.known_models (model_registry st)) = Some info ->
  exists info',
    Dict.get identity_hash (Model.known_models (model_registry (run ops st))) = Some info' /\
    Model.k_identity info' = Model.k_identity info /\
    Model.first_seen info' = Model.first_seen info /\
    Model.k_friendly_name info' = Model.k_friendly_name info /\
    Model.times_used info <= Model.times_used info' /\
    exists lora_ids, Model.lora_ids info' = Model.lora_ids info ++ lora_ids.
Proof.
  intros Hget.
  destruct (evolves_run models_kept models_kept_primitives ops st _ _ Hget)
    as (info' & Hget' & []).
  exists info'. by split_and!.
Qed.

(** ** Listings *)

(** *** The order of [sorted(..., reverse=True)] *)

Lemma ltb_trans a b c :
  String.ltb a b = true -> String.ltb b c = true -> String.ltb a c = true.
Proof.
  unfold String.ltb. intros Hab Hbc.
  destruct (String.compare a b) eqn:H1; try done.
  destruct (String.compare b c) eqn:H2; try done.
  apply OrderedTypeEx.String_as_OT.cmp_lt in H1, H2.
  pose proof (OrderedTypeEx.String_as_OT.lt_trans _ _ _ H1 H2) as H3.
  apply OrderedTypeEx.String_as_OT.cmp_lt in H3.
  unfold OrderedTypeEx.String_as_OT.cmp in H3. by rewrite H3.
Qed.

Lemma ltb_asym a b : String.ltb a b = true -> String.ltb b a = false.
Proof.
  unfold String.ltb. rewrite (String.compare_antisym a b).
  by destruct (String.compare b a).
Qed.

Lemma ltb_total a b : String.ltb a b = false -> String.ltb b a = false -> a = b.
Proof.
  unfold String.ltb. rewrite (String.compare_antisym a b).
  destruct (String.compare b a) eqn:H; try done.
  intros _ _. symmetry. by apply String.compare_eq_iff.
Qed.

Lemma geb_trans a b c :
  String.ltb a b = false -> String.ltb b c = false -> String.ltb a c = false.
Proof.
  intros Hab Hbc. destruct (String.ltb a c) eqn:Hac; [|done].
  destruct (String.ltb b a) eqn:Hba.
  - by rewrite (ltb_trans _ _ _ Hba Hac) in Hbc.
  - rewrite (ltb_total _ _ Hab Hba) in Hac. congruence.
Qed.

Section Sorted.
Context {A : Type} (key : A -> string).

Lemma insert_desc_perm x l : Py.insert_desc key x l ≡ₚ x :: l.
Proof.
  induction l as [|y l IH]; [done|]. simpl.
  destruct (String.ltb (key y) (key x)); [done|].
  rewrite IH. apply Permutation_swap.
Qed.

Lemma sorted_reverse_acc l acc :
  fold_left (fun acc x => Py.insert_desc key x acc) l acc ≡ₚ acc ++ l.
Proof.
  revert acc. induction l as [|x l IH]; intros acc; simpl.
  - by rewrite app_nil_r.
  - rewrite IH, insert_desc_perm. simpl. apply Permutation_middle.
Qed.

Lemma sorted_reverse_perm l : Py.sorted_reverse key l ≡ₚ l.
Proof. apply sorted_reverse_acc. Qed.

Lemma elem_of_sorted_reverse x l : x ∈ Py.sorted_reverse key l <-> x ∈ l.
Proof. by rewrite sorted_reverse_perm. Qed.

Lemma length_sorted_reverse l : length (Py.sorted_reverse key l) = length l.
Proof. by rewrite sorted_reverse_perm. Qed.

Lemma insert_desc_sorted x l :
  latest_first key l -> latest_first key (Py.insert_desc key x l).
Proof.
  unfold latest_first. induction 1 as [|y l Hl IH Hy]; simpl.
  - repeat constructor.
  - destruct (String.ltb (key y) (key x)) eqn:Hyx.
    + constructor; [by constructor|]. constructor; [by apply ltb_asym|].
      eapply Forall_impl; [done|]. intros z Hz. simpl in Hz.
      destruct (String.ltb (key x) (key z)) eqn:Hxz; [|done].
      by rewrite (ltb_trans _ _ _ Hyx Hxz) in Hz.
    + constructor; [done|]. rewrite insert_desc_perm. by constructor.
Qed.

Lemma sorted_reverse_sorted l : latest_first key (Py.sorted_reverse key l).
Proof.
  unfold Py.sorted_reverse.
  assert (forall acc, latest_first key acc ->
            latest_first key (fold_left (fun acc x => Py.insert_desc key x acc) l acc)) as H.
  { induction l as [|x l IH]; intros acc Hacc; simpl; [done|].
    by apply IH, insert_desc_sorted. }
  apply H. constructor.
Qed.

End Sorted.

(** *** What the listings list *)

Ltac scan_facts :=
  repeat match goal with
  | H : _ = true |- _ =>
      progress rewrite ?orb_true_iff, ?orb_false_iff, ?andb_true_iff, ?andb_false_iff,
        ?negb_true_iff, ?negb_false_iff, ?bool_decide_eq_true, ?bool_decide_eq_false in H
  | H : _ = false |- _ =>
      progress rewrite ?orb_true_iff, ?orb_false_iff, ?andb_true_iff, ?andb_false_iff,
        ?negb_true_iff, ?negb_false_iff, ?bool_decide_eq_true, ?bool_decide_eq_false in H
  end.

Lemma exists_cons {R} (P : string -> R -> Prop) k0 (e : entry R) items :
  (exists r, e = Mapping r /\ P k0 r) \/ (exists k r, (k, Mapping r) ∈ items /\ P k r) <->
  exists k r, (k, Mapping r) ∈ (k0, e) :: items /\ P k r.
Proof.
  split.
  - intros [(r & -> & HP)|(k & r & Hin & HP)].
    + exists k0, r. split; [apply list_elem_of_here|done].
    + exists k, r. split; [by apply list_elem_of_further|done].
  - intros (k & r & [[= -> <-]|Hin]%elem_of_cons & HP).
    + left. by exists r.
    + right. by exists k, r.
Qed.

(** Whether one entry is listed. *)
Ltac scan_entry :=
  simpl; repeat case_match; simpl; scan_facts;
  (split;
   [ first [ by intros ?%elem_of_nil
           | intros ->%list_elem_of_singleton; eexists; split; [done|];
             repeat split; try done; intuition congruence ]
   | intros (? & He & H');
     first [ by injection He as <-; destruct_and!; subst; apply list_elem_of_singleton
           | exfalso; clear - He H' ; intuition congruence
           | exfalso; injection He as <-; intuition congruence ] ]).

Lemma untrained_scan_cons x items :
  (untrained_scan (x :: items)).2 = (untrained_scan [x]).2 ++ (untrained_scan items).2.
Proof. destruct x as [k e]. simpl. destruct (untrained_scan items). by repeat case_match. Qed.

Lemma untrained_scan_elem items c' :
  c' ∈ (untrained_scan items).2 <->
  exists k c, (k, Mapping c) ∈ items /\ Py.startswith_underscore k = false /\
    untrained c /\ c' = Chunk.set_chunk_id k c.
Proof.
  induction items as [|[k0 e] items IH].
  { simpl. split; [by intros ?%elem_of_nil|by intros (? & ? & ?%elem_of_nil & _)]. }
  rewrite untrained_scan_cons, elem_of_app, IH, <- exists_cons.
  apply or_iff_compat_r. unfold untrained. scan_entry.
Qed.

Lemma by_status_scan_cons status model_hash x items :
  (by_status_scan status model_hash (x :: items)).2 =
  (by_status_scan status model_hash [x]).2 ++ (by_status_scan status model_hash items).2.
Proof.
  destruct x as [k e]. simpl. destruct (by_status_scan status model_hash items).
  by repeat case_match.
Qed.

Lemma by_status_scan_elem status model_hash items c' :
  c' ∈ (by_status_scan status model_hash items).2 <->
  exists k c, (k, Mapping c) ∈ items /\ Py.startswith_underscore k = false /\
    status_selected status model_hash c /\ c' = Chunk.set_chunk_id k c.
Proof.
  induction items as [|[k0 e] items IH].
  { simpl. split; [by intros ?%elem_of_nil|by intros (? & ? & ?%elem_of_nil & _)]. }
  rewrite by_status_scan_cons, elem_of_app, IH, <- exists_cons.
  apply or_iff_compat_r. unfold status_selected. scan_entry.
Qed.

Lemma compatible_scan_cons target x items :
  compatible_scan target (x :: items) =
  compatible_scan target [x] ++ compatible_scan target items.
Proof. destruct x as [k e]. simpl. by repeat case_match. Qed.

Lemma compatible_scan_elem target items r :
  r ∈ compatible_scan target items <->
  exists k r', (k, Mapping r') ∈ items /\ Py.startswith_underscore k = false /\
    LoRA.model_identity_hash r' = Some target /\ LoRA.status r' <> "deleted" /\ r = r'.
Proof.
  induction items as [|[k0 e] items IH].
  { simpl. split; [by intros ?%elem_of_nil|by intros (? & ? & ?%elem_of_nil & _)]. }
  rewrite compatible_scan_cons, elem_of_app, IH, <- exists_cons.
  apply or_iff_compat_r. scan_entry.
Qed.

Lemma all_loras_scan_cons include_deleted x items :
  (all_loras_scan include_deleted (x :: items)).2 =
  (all_loras_scan include_deleted [x]).2 ++ (all_loras_scan include_deleted items).2.
Proof.
  destruct x as [k e]. simpl. destruct (all_loras_scan include_deleted items).
  by repeat case_match.
Qed.

Lemma all_loras_scan_elem include_deleted items r' :
  r' ∈ (all_loras_scan include_deleted items).2 <->
  exists k r, (k, Mapping r) ∈ items /\ Py.startswith_underscore k = false /\
    (include_deleted = false -> LoRA.status r <> "deleted") /\
    r' = LoRA.set_lora_id k r.
Proof.
  induction items as [|[k0 e] items IH].
  { simpl. split; [by intros ?%elem_of_nil|by intros (? & ? & ?%elem_of_nil & _)]. }
  rewrite all_loras_scan_cons, elem_of_app, IH, <- exists_cons.
  apply or_iff_compat_r. scan_entry.
Qed.

(** A record of a well-formed registry, as an element of the registry. *)
Lemma well_formed_chunk_elem st k c :
  well_formed st ->
  (k, Mapping c) ∈ chunk_registry st /\ Py.startswith_underscore k = false <->
  get_chunk k st = Some (Mapping c).
Proof.
  intros Hwf. unfold get_chunk. split.
  - intros [Hin _]. apply dict_elem_of_get; [apply Hwf|done].
  - intros Hget. split; [by apply dict_get_elem_of|by eapply well_formed_chunk].
Qed.

(** X11: in every state that a manager started on an empty data directory
    can be in, [get_untrained_chunks] returns, without changing anything,
    exactly the chunk records whose status is [pending], [failed] or
    [restored]: a chunk in training, trained or archived is never listed. *)
Theorem get_untrained_chunks_lists (ops : list op) (clock0 : nat) :
  let st := run ops (__init__ empty_disk clock0) in
  exists chunks,
    get_untrained_chunks st = Ok chunks st /\
    forall c, c ∈ chunks <->
      exists chunk_id, get_chunk chunk_id st = Some (Mapping c) /\ untrained c.
Proof.
  intros st. pose proof (run_well_formed ops clock0) as Hwf. fold st in Hwf.
  rewrite get_untrained_chunks_run by done. eexists. split; [done|].
  intros c. rewrite untrained_scan_elem. split.
  - intros (k & c0 & Hin & Hu & Hc & ->).
    assert (get_chunk k st = Some (Mapping c0)) as Hget
      by (apply well_formed_chunk_elem; [done|by split]).
    destruct (well_formed_chunk _ _ _ Hwf Hget) as (Hid & _).
    rewrite set_chunk_id_id by done. by exists k.
  - intros (k & Hget & Hc). destruct (well_formed_chunk _ _ _ Hwf Hget) as (Hid & _ & Hu).
    exists k, c. rewrite set_chunk_id_id by done. split_and!; try done.
    by apply dict_get_elem_of.
Qed.

(** X12: in every state that a manager started on an empty data directory
    can be in, [get_chunks_by_status] returns, without changing anything,
    exactly the chunk records that pass both filters, the latest created
    first; a filter that is [None] or the empty string excludes nothing. *)
Theorem get_chunks_by_status_lists (ops : list op) (clock0 : nat)
    (status model_hash : option string) :
  let st := run ops (__init__ empty_disk clock0) in
  exists chunks,
    get_chunks_by_status status model_hash st = Ok chunks st /\
    (forall c, c ∈ chunks <->
       exists chunk_id, get_chunk chunk_id st = Some (Mapping c) /\
         (status = None \/ status = Some "" \/ status = Some (Chunk.status c)) /\
         (model_hash = None \/ model_hash = Some "" \/
          model_hash = Chunk.model_identity_hash c)) /\
    latest_first Chunk.created_at chunks.
Proof.
  intros st. pose proof (run_well_formed ops clock0) as Hwf. fold st in Hwf.
  rewrite get_chunks_by_status_run by done. eexists. split; [done|].
  split; [|apply sorted_reverse_sorted].
  assert (forall c,
    status_selected status model_hash c <->
    (status = None \/ status = Some "" \/ status = Some (Chunk.status c)) /\
    (model_hash = None \/ model_hash = Some "" \/
     model_hash = Chunk.model_identity_hash c)) as Hsel.
  { intros c. unfold status_selected.
    destruct status as [s|], model_hash as [m|]; simpl;
      try destruct (String.eqb_spec s ""); try destruct (String.eqb_spec m "");
      simpl; subst; intuition (try congruence); auto. }
  intros c. rewrite elem_of_sorted_reverse, by_status_scan_elem. split.
  - intros (k & c0 & Hin & Hu & Hc & ->).
    assert (get_chunk k st = Some (Mapping c0)) as Hget
      by (apply well_formed_chunk_elem; [done|by split]).
    destruct (well_formed_chunk _ _ _ Hwf Hget) as (Hid & _).
    rewrite set_chunk_id_id by done. exists k. split; [done|]. by apply Hsel.
  - intros (k & Hget & Hc). destruct (well_formed_chunk _ _ _ Hwf Hget) as (Hid & _ & Hu).
    exists k, c. rewrite set_chunk_id_id by done. split_and!; try done.
    + by apply dict_get_elem_of.
    + by apply Hsel.
Qed.

(** Membership in the list of [get_compatible_loras]. *)
Lemma get_compatible_loras_elem model_identity_hash st r :
  r ∈ get_compatible_loras model_identity_hash st <->
  exists h lora_id,
    Py.or_ model_identity_hash (current_model st) = Some h /\ h <> "" /\
    adapter_record st lora_id r /\
    LoRA.model_identity_hash r = Some h /\ LoRA.status r <> "deleted".
Proof.
  unfold get_compatible_loras.
  destruct (Py.or_ model_identity_hash (current_model st)) as [h|];
    [destruct (String.eqb_spec h "") as [->|Hne]; simpl|].
  - split; [by intros ?%elem_of_nil|]. by intros (h & k & [= <-] & ? & _).
  - replace (negb (h =? "")%string) with true
      by (by destruct (String.eqb_spec h "")).
    rewrite elem_of_sorted_reverse, compatible_scan_elem. split.
    + intros (k & r' & Hin & Hu & Hm & Hs & ->). by exists h, k.
    + intros (h' & k & [= <-] & _ & [Hin Hu] & Hm & Hs). by exists k, r.
  - split; [by intros ?%elem_of_nil|]. by intros (h & k & [=] & _).
Qed.

(** X13: [get_compatible_loras] lists, the latest created first, exactly the
    adapter records bound to the target model whose status is not
    [deleted], the unusable ones included; the target is the hash passed
    or, when none or the empty string is passed, the current model; without
    a target the list is empty. *)
Theorem get_compatible_loras_lists (model_identity_hash : option string) (st : State) :
  let target := Py.or_ model_identity_hash (current_model st) in
  let loras := get_compatible_loras model_identity_hash st in
  (forall r, r ∈ loras <->
     exists h lora_id,
       target = Some h /\ h <> "" /\ adapter_record st lora_id r /\
       LoRA.model_identity_hash r = Some h /\ LoRA.status r <> "deleted") /\
  latest_first LoRA.created_at loras /\
  (target = None \/ target = Some "" -> loras = []).
Proof.
  intros target loras. split; [intros r; apply get_compatible_loras_elem|].
  unfold loras, get_compatible_loras. fold target.
  destruct target as [h|]; [destruct (String.eqb_spec h "") as [->|Hne]; simpl|].
  - split; [constructor|done].
  - replace (negb (h =? "")%string) with true
      by (by destruct (String.eqb_spec h "")).
    split; [apply sorted_reverse_sorted|by intros [|[= ->]]].
  - split; [constructor|done].
Qed.

(** X14: for an adapter bound to a model, [select_lora] answers
    [compatible] exactly when [get_compatible_loras()] lists the adapter for
    the current model; an adapter registered while no model was current is
    answered [compatible] whatever the current model is, although
    [get_compatible_loras] lists it for no model. *)
Theorem select_lora_agrees_with_compatible (lora_id : string) (r : LoRA.t) (st : State) :
  get_lora lora_id st = Some r ->
  (forall h, LoRA.model_identity_hash r = Some h -> h <> "" ->
     (exists path, select_lora lora_id st = Some (Compatible r path)) <->
     r ∈ get_compatible_loras None st) /\
  (LoRA.model_identity_hash r = None -> LoRA.status r <> "deleted" ->
     select_lora lora_id st = Some (Compatible r (LoRA.path r)) /\
     forall model_identity_hash, r ∉ get_compatible_loras model_identity_hash st).
Proof.
  intros Hget. pose proof Hget as Hrec. unfold get_lora in Hrec.
  destruct (Dict.get lora_id (lora_registry st)) as [[r'|]|] eqn:Hreg; try done.
  destruct (Py.startswith_underscore lora_id) eqn:Hu; [done|]. injection Hrec as ->.
  split.
  - intros h Hm Hne.
    rewrite get_compatible_loras_elem. unfold select_lora. rewrite Hget, Hm. simpl.
    replace (negb (h =? "")%string) with true by (by destruct (String.eqb_spec h "")).
    unfold Py.or_. simpl. split.
    + intros [path Hsel]. case_bool_decide as Hdel; [done|].
      case_bool_decide as Hcur; simpl in Hsel; [|done].
      exists h, lora_id. split_and!; try done. split; [by apply dict_get_elem_of|done].
    + intros (h' & k & Hcur & _ & _ & [= <-] & Hs).
      rewrite bool_decide_eq_false_2 by done.
      rewrite bool_decide_eq_true_2 by done. simpl. by eexists.
  - intros Hm Hs. split.
    + unfold select_lora. rewrite Hget, Hm. simpl. by rewrite bool_decide_eq_false_2.
    + intros mh Hin.
      apply get_compatible_loras_elem in Hin as (h & k & _ & _ & _ & ? & _). congruence.
Qed.

(** ** Registering an adapter *)





(** ** Deleting an adapter *)

Lemma get_lora_Some lora_id st r :
  get_lora lora_id st = Some r <->
  Dict.get lora_id (lora_registry st) = Some (Mapping r) /\
  Py.startswith_underscore lora_id = false.
Proof.
  unfold get_lora. destruct (Dict.get lora_id (lora_registry st)) as [[r'|]|];
    destruct (Py.startswith_underscore lora_id); split; try done;
    try (by intros [[=] ?]); try (by intros [= ->]).
  by intros [[= ->] _].
Qed.

(** X16: in every state that a manager started on an empty data directory
    can reach, [delete_lora] of an adapter that [get_lora] finds returns
    [True] and keeps the record: [get_lora] still returns it, with status
    [deleted] and the time of the deletion and nothing else changed.  From
    then on [select_lora] answers [None] and [get_compatible_loras] lists it
    for no model; the other adapters, the chunks (also those trained into
    the adapter) and the model registry are as before, and without
    [delete_files] so are the adapter directories. *)
Theorem delete_lora_soft_delete (ops : list op) (clock0 : nat)
    (lora_id : string) (delete_files : bool) (r : LoRA.t) :
  let st := run ops (__init__ empty_disk clock0) in
  get_lora lora_id st = Some r ->
  exists st',
    delete_lora lora_id delete_files st = Ok true st' /\
    get_lora lora_id st' =
      Some (LoRA.set_deleted_at (Some (isoformat_at (clock st)))
              (LoRA.set_status "deleted" r)) /\
    select_lora lora_id st' = None /\
    (forall model_identity_hash r',
       r' ∈ get_compatible_loras model_identity_hash st' -> LoRA.lora_id r' <> lora_id) /\
    (forall k, k <> lora_id -> get_lora k st' = get_lora k st) /\
    chunk_registry st' = chunk_registry st /\
    model_registry st' = model_registry st /\
    current_model st' = current_model st /\
    (delete_files = false -> adapter_dirs (disk st') = adapter_dirs (disk st)).
Proof.
  intros st Hget. pose proof (run_well_formed ops clock0) as Hwf. fold st in Hwf.
  apply get_lora_Some in Hget as [Hreg Hu].
  destruct (well_formed_lora _ _ _ Hwf Hreg) as (Hid & Hne & _).
  pose proof (prim_delete_lora _ well_formed_primitives lora_id delete_files st Hwf) as Hwf'.
  destruct (delete_lora_mapping lora_id delete_files st r Hreg)
    as (st' & Hrun & Hreg' & _ & Hdirs & _ & _ & Hframe).
  rewrite Hrun in Hwf'. simpl in Hwf'.
  assert (Dict.get lora_id (lora_registry st') =
          Some (Mapping (LoRA.set_deleted_at (Some (isoformat_at (clock st)))
                           (LoRA.set_status "deleted" r)))) as Hnew.
  { rewrite Hreg', dict_get_set_ne by done. apply dict_get_set_eq. }
  assert (get_lora lora_id st' =
          Some (LoRA.set_deleted_at (Some (isoformat_at (clock st)))
                  (LoRA.set_status "deleted" r))) as Hget'.
  { by apply get_lora_Some. }
  exists st'. split_and!; try done; try apply Hframe.
  - unfold select_lora. by rewrite Hget'.
  - intros mh r' Hin Hk.
    apply get_compatible_loras_elem in Hin as (h & k & _ & _ & [Hin Hu'] & _ & Hs).
    apply dict_elem_of_get in Hin; [|apply Hwf'].
    destruct (well_formed_lora _ _ _ Hwf' Hin) as (Hid' & _).
    rewrite Hid' in Hk. subst k. rewrite Hnew in Hin. by injection Hin as <-.
  - intros k Hk. unfold get_lora. rewrite Hreg'.
    destruct (decide (k = "_counter")) as [->|Hc].
    + rewrite dict_get_set_eq.
      destruct (ri_lora_saved _ (proj1 Hwf)) as [Hnil|Hc]; [by rewrite Hnil in Hreg|].
      by rewrite Hc.
    + by rewrite !dict_get_set_ne.
  - intros ->. rewrite Hdirs. by destruct (LoRA.path r).
Qed.

(** X17: in every state that a manager started on an empty data directory
    can reach, [get_all_loras] returns, without changing anything, exactly
    the records that [get_lora] finds, the latest created first; without
    [include_deleted] the records with status [deleted] are left out and no
    others, so that whatever [get_compatible_loras] lists for a model is
    listed here too. *)
Theorem get_all_loras_lists (ops : list op) (clock0 : nat) (include_deleted : bool) :
  let st := run ops (__init__ empty_disk clock0) in
  exists loras,
    get_all_loras include_deleted st = Ok loras st /\
    (forall r, r ∈ loras <->
       exists lora_id, get_lora lora_id st = Some r /\
         (include_deleted = false -> LoRA.status r <> "deleted")) /\
    latest_first LoRA.created_at loras /\
    (forall model_identity_hash r,
       r ∈ get_compatible_loras model_identity_hash st -> r ∈ loras).
Proof.
  intros st. pose proof (run_well_formed ops clock0) as Hwf. fold st in Hwf.
  rewrite get_all_loras_run by done. eexists. split; [done|].
  assert (forall r,
    r ∈ Py.sorted_reverse LoRA.created_at
          (all_loras_scan include_deleted (lora_registry st)).2 <->
    exists lora_id, get_lora lora_id st = Some r /\
      (include_deleted = false -> LoRA.status r <> "deleted")) as Hlist.
  { intros r. rewrite elem_of_sorted_reverse, all_loras_scan_elem. split.
    - intros (k & r0 & Hin & Hu & Hs & ->).
      apply dict_elem_of_get in Hin; [|apply Hwf].
      destruct (well_formed_lora _ _ _ Hwf Hin) as (Hid & _).
      rewrite set_lora_id_id by done. exists k. split; [|done].
      by apply get_lora_Some.
    - intros (k & [Hget Hu]%get_lora_Some & Hs).
      destruct (well_formed_lora _ _ _ Hwf Hget) as (Hid & _).
      exists k, r. rewrite set_lora_id_id by done. split_and!; try done.
      by apply dict_get_elem_of. }
  split; [done|]. split; [apply sorted_reverse_sorted|].
  intros mh r (h & k & _ & _ & [Hin Hu] & _ & Hs)%get_compatible_loras_elem.
  apply Hlist. exists k. split; [|done].
  apply get_lora_Some. split; [|done]. apply dict_elem_of_get; [apply Hwf|done].
Qed.

(** ** Models and their adapters *)

Lemma models_inv_view st st' :
  model_registry st' = model_registry st ->
  current_model st' = current_model st ->
  (forall k h, bound_to st' k h <-> bound_to st k h) ->
  models_inv st -> models_inv st'.
Proof.
  intros Hm Hc Hb [H1 H2 H3 H4 H5 H6 H7].
  split; rewrite ?Hm, ?Hc; try done.
  - intros h info k Hget. rewrite Hb. by apply H5.
  - intros k h Hk%Hb. by eapply H7.
Qed.

Lemma models_inv_keeps {A} (m : M A) st :
  keeps models_view m -> models_inv st -> models_inv (final (m st)).
Proof.
  intros Hkeeps. specialize (Hkeeps st). unfold models_view in Hkeeps.
  injection Hkeeps as Hm Hc Hl. apply models_inv_view; try done.
  intros k h. unfold bound_to. by rewrite Hl.
Qed.

Lemma keeps_models_log details : keeps models_view (_log_operation details).
Proof. unfold _log_operation. repeat keeps_step. Qed.

Lemma keeps_models_update_chunk_status chunk_id status details :
  keeps models_view (_update_chunk_status chunk_id status details).
Proof. unfold _update_chunk_status. keeps_unfold. repeat keeps_step. Qed.

Lemma keeps_models_mark m chunk_id : keeps models_view (mark_chunk m chunk_id).
Proof.
  destruct m; simpl;
    unfold mark_chunk_training, mark_chunk_trained, mark_chunk_failed,
      mark_chunk_restored;
    repeat keeps_step; apply keeps_models_update_chunk_status.
Qed.

Lemma keeps_models_detect_model_change model_path :
  keeps models_view (detect_model_change model_path).
Proof. unfold detect_model_change. repeat keeps_step. Qed.

Lemma keeps_models_create_chunk documents character metadata :
  keeps models_view (create_chunk documents character metadata).
Proof. unfold create_chunk. keeps_unfold. repeat keeps_step. Qed.

Lemma keeps_models_get_restorable_chunks model_identity_hash :
  keeps models_view (get_restorable_chunks model_identity_hash).
Proof. unfold get_restorable_chunks. repeat keeps_step. Qed.

(** Replacing a record by one bound to the same model. *)
Lemma bound_to_update st st' k r r' n :
  well_formed st ->
  Dict.get k (lora_registry st) = Some (Mapping r) ->
  lora_registry st' =
    Dict.set "_counter" (Scalar n) (Dict.set k (Mapping r') (lora_registry st)) ->
  LoRA.model_identity_hash r' = LoRA.model_identity_hash r ->
  forall k0 h, bound_to st' k0 h <-> bound_to st k0 h.
Proof.
  intros Hwf Hget Hreg Hh k0 h. unfold bound_to. rewrite Hreg.
  destruct (well_formed_lora _ _ _ Hwf Hget) as (_ & Hne & _).
  destruct (decide (k0 = "_counter")) as [->|Hc].
  - rewrite dict_get_set_eq. split; [by intros (? & [=] & _)|].
    intros (r0 & Hr0 & _). by destruct (well_formed_lora _ _ _ Hwf Hr0) as (_ & ? & _).
  - rewrite dict_get_set_ne by done. destruct (decide (k0 = k)) as [->|Hk].
    + rewrite dict_get_set_eq, Hget. split.
      * intros (? & [= <-] & ?). exists r. split; [done|congruence].
      * intros (? & [= <-] & ?). exists r'. split; [done|congruence].
    + by rewrite dict_get_set_ne.
Qed.

(** The adapters bound to a model once the head of [register_lora] has
    stored the new record. *)
Lemma bound_to_registered st st1 record :
  well_formed st -> lora_registered st st1 record ->
  forall k h,
    bound_to st1 k h <->
    (k = lora_id_of (_lora_counter st + 1) /\ current_model st = Some h) \/
    bound_to st k h.
Proof.
  intros Hwf Hreg k h. unfold bound_to. rewrite (lr_lora_registry _ _ _ Hreg).
  pose proof (fresh_lora_id st Hwf) as Hfresh.
  destruct (decide (k = "_counter")) as [->|Hc].
  - rewrite dict_get_set_eq. split; [by intros (? & [=] & _)|].
    intros [[[=] _]|(r0 & Hr0 & _)].
    by destruct (well_formed_lora _ _ _ Hwf Hr0) as (_ & ? & _).
  - rewrite dict_get_set_ne by done.
    destruct (decide (k = lora_id_of (_lora_counter st + 1))) as [->|Hk].
    + rewrite dict_get_set_eq, Hfresh. split.
      * intros (? & [= <-] & Hh). left. split; [done|].
        by rewrite <- (lr_model_identity_hash _ _ _ Hreg).
      * intros [[_ Hcur]|(? & [=] & _)]. exists record. split; [done|].
        by rewrite (lr_model_identity_hash _ _ _ Hreg).
    + rewrite dict_get_set_ne by done. split; [by right|]. by intros [[? _]|?].
Qed.

Lemma models_inv_registered st st1 record :
  well_formed st -> models_inv st -> lora_registered st st1 record -> models_inv st1.
Proof.
  intros Hwf Hinv Hreg.
  pose proof (bound_to_registered st st1 record Hwf Hreg) as Hbound.
  pose proof (fresh_lora_id st Hwf) as Hfresh.
  set (new_id := lora_id_of (_lora_counter st + 1)) in *.
  assert (forall h, ~ bound_to st new_id h) as Hnew.
  { intros h (r & Hr & _). by rewrite Hfresh in Hr. }
  destruct (lr_model_registry _ _ _ Hreg)
    as [(Hm & _ & Hnone)|(_ & Hmc & current & info & Hcur & Hinfo & Hknown)].
  - assert (current_model st = None) as Hcur.
    { destruct (current_model st) as [c|] eqn:Hc; [|done].
      pose proof (mi_known _ Hinv c Hc) as Hmem. unfold Dict.mem in Hmem.
      by rewrite (Hnone c eq_refl) in Hmem. }
    eapply models_inv_view; [done|apply Hreg| |done].
    intros k h. rewrite Hbound, Hcur. split; [by intros [[_ [=]]|?]|by right].
  - assert (new_id ∉ Model.lora_ids info) as Hnotin.
    { intros Hin%(mi_listed _ Hinv _ _ _ Hinfo). by apply (Hnew current). }
    rewrite bool_decide_eq_false_2 in Hknown by done.
    destruct Hinv as [H1 H2 H3 H4 H5 H6 H7].
    pose proof (lr_current_model _ _ _ Hreg) as Hc1.
    split; rewrite ?Hknown, ?Hmc, ?Hc1; try done.
    + intros h Hh. by apply dict_mem_set, H3.
    + by apply dict_wf_set.
    + intros h info0 k. rewrite Hbound. destruct (decide (h = current)) as [->|Hne].
      * rewrite dict_get_set_eq. intros [= <-]. simpl.
        rewrite elem_of_app, list_elem_of_singleton, (H5 _ _ k Hinfo), Hcur.
        split; [intros [?| ->]; auto|intros [[-> _]|?]; auto].
      * rewrite dict_get_set_ne by done. intros Hget. rewrite (H5 _ _ k Hget), Hcur.
        split; [by right|]. intros [[_ [= ->]]|?]; done.
    + intros h info0. destruct (decide (h = current)) as [->|Hne].
      * rewrite dict_get_set_eq. intros [= <-]. simpl.
        apply NoDup_app. split_and!; [by eapply H6| |apply NoDup_singleton].
        intros x Hx ->%list_elem_of_singleton. done.
      * rewrite dict_get_set_ne by done. apply H6.
    + intros k h [[-> Hh]|Hb]%Hbound.
      * rewrite Hcur in Hh. injection Hh as <-. apply dict_mem_set_eq.
      * by apply dict_mem_set, (H7 k).
Qed.

Lemma models_inv_register_model model_path friendly_name st :
  models_inv st -> models_inv (final (register_model model_path friendly_name st)).
Proof.
  intros [H1 H2 H3 H4 H5 H6 H7].
  destruct (register_model_run model_path friendly_name st)
    as (r & st' & Hrun & _ & _ & _ & _ & Hcur & Hmcur & _ & Hf).
  destruct (register_model_known model_path friendly_name st) as (r' & st'' & Hrun' & Hk).
  rewrite Hrun in Hrun'. injection Hrun' as <- <-. rewrite Hrun. simpl in *.
  assert (forall k h, bound_to st' k h <-> bound_to st k h) as Hb.
  { intros k h. unfold bound_to. by rewrite (mf_lora_registry _ _ Hf). }
  set (h0 := hash_of model_path st) in *.
  assert (exists info',
    Model.known_models (model_registry st') =
      Dict.set h0 info' (Model.known_models (model_registry st)) /\
    match Dict.get h0 (Model.known_models (model_registry st)) with
    | Some info => Model.lora_ids info' = Model.lora_ids info
    | None => Model.lora_ids info' = []
    end) as (info' & Hknown & Hids).
  { destruct (Dict.get h0 _) as [info|].
    - destruct Hk as (Hk & _). by eexists.
    - destruct Hk as (info & Hk & _ & _ & _ & _ & Hl & _). by exists info. }
  split; rewrite ?Hknown, ?Hcur; try done.
  - intros [= Hh]. by apply (identity_hash_nonempty model_path (isoformat_at (clock st))).
  - intros h [= <-]. apply dict_mem_set_eq.
  - by apply dict_wf_set.
  - intros h info k. rewrite Hb. destruct (decide (h = h0)) as [->|Hne].
    + rewrite dict_get_set_eq. intros [= <-].
      destruct (Dict.get h0 _) as [info|] eqn:Hget; rewrite Hids; [by apply H5|].
      split; [by intros ?%elem_of_nil|]. intros Hbd%H7. unfold Dict.mem in Hbd.
      by rewrite Hget in Hbd.
    + rewrite dict_get_set_ne by done. apply H5.
  - intros h info. destruct (decide (h = h0)) as [->|Hne].
    + rewrite dict_get_set_eq. intros [= <-].
      destruct (Dict.get h0 _) as [info|] eqn:Hget; rewrite Hids;
        [by eapply H6|apply NoDup_nil_2].
    + rewrite dict_get_set_ne by done. apply H6.
  - intros k h Hbd%Hb. by apply dict_mem_set, (H7 k).
Qed.

Lemma models_primitives : primitives (preserved (fun st => well_formed st /\ models_inv st)).
Proof.
  split.
  - intros details. apply preserved_and; [apply well_formed_primitives|].
    intros st _. apply models_inv_keeps, keeps_models_log.
  - intros model_path friendly_name. apply preserved_and; [apply well_formed_primitives|].
    intros st _. apply models_inv_register_model.
  - intros model_path. apply preserved_and; [apply well_formed_primitives|].
    intros st _. apply models_inv_keeps, keeps_models_detect_model_change.
  - intros docs character metadata. apply preserved_and; [apply well_formed_primitives|].
    intros st _. apply models_inv_keeps, keeps_models_create_chunk.
  - intros m chunk_id. apply preserved_and; [apply well_formed_primitives|].
    intros st _. apply models_inv_keeps, keeps_models_mark.
  - intros status model_hash. apply preserved_and; [apply well_formed_primitives|].
    intros st Hwf Hinv. by rewrite get_chunks_by_status_run.
  - apply preserved_and; [apply well_formed_primitives|].
    intros st Hwf Hinv. by rewrite get_untrained_chunks_run.
  - intros model_identity_hash. apply preserved_and; [apply well_formed_primitives|].
    intros st _. apply models_inv_keeps, keeps_models_get_restorable_chunks.
  - intros chunk_ids lora_path training_config metrics.
    refine (evolves_register_lora _ _ _ _ _ _ _ _).
    + intros m chunk_id. apply preserved_and; [apply well_formed_primitives|].
      intros st _. apply models_inv_keeps, keeps_models_mark.
    + intros details. apply preserved_and; [apply well_formed_primitives|].
      intros st _. apply models_inv_keeps, keeps_models_log.
    + intros st st1 record Hreg [[Hr Hi] Hinv]. split; [split|].
      * by eapply registries_inv_lora_registered.
      * by eapply ids_inv_lora_registered.
      * by eapply models_inv_registered.
  - intros include_deleted. apply preserved_and; [apply well_formed_primitives|].
    intros st Hwf Hinv. by rewrite get_all_loras_run.
  - intros lora_id reason. apply preserved_and; [apply well_formed_primitives|].
    intros st Hwf Hinv.
    destruct (Dict.get lora_id (lora_registry st)) as [[r|n]|] eqn:Hget.
    + destruct (mark_lora_unusable_mapping lora_id reason st r Hget)
        as (st' & -> & Hreg & _ & _ & _ & _ & Hf).
      simpl. eapply models_inv_view; [apply Hf..| |done].
      by eapply bound_to_update.
    + by destruct (mark_lora_unusable_scalar lora_id reason st n Hget) as [e ->].
    + by rewrite mark_lora_unusable_absent.
  - intros lora_id delete_files. apply preserved_and; [apply well_formed_primitives|].
    intros st Hwf Hinv.
    destruct (Dict.get lora_id (lora_registry st)) as [[r|n]|] eqn:Hget.
    + destruct (delete_lora_mapping lora_id delete_files st r Hget)
        as (st' & -> & Hreg & _ & _ & _ & _ & Hf).
      simpl. eapply models_inv_view; [apply Hf..| |done].
      by eapply bound_to_update.
    + by destruct (delete_lora_scalar lora_id delete_files st n Hget) as [e ->].
    + by rewrite delete_lora_absent.
Qed.

Lemma models_inv_init clock0 : models_inv (__init__ empty_disk clock0).
Proof.
  split; try done.
  - apply NoDup_nil_2.
  - by intros k h (? & [=] & _).
Qed.

Lemma run_models_inv ops clock0 : models_inv (run ops (__init__ empty_disk clock0)).
Proof.
  apply (preserved_run (fun st => well_formed st /\ models_inv st));
    [apply models_primitives|]. split; [apply well_formed_init|apply models_inv_init].
Qed.
(** X18: in every state that a manager started on an empty data directory
    can reach, the model registry and the adapter registry agree: the
    current model, if any, has a non-empty hash, is a known model and is
    the [current_model] of the registry; the [lora_ids] of a known model
    list, each once, exactly the adapters whose record is bound to the
    model, whatever their status; and an adapter bound to a model is bound
    to a known one. *)
Theorem models_list_their_adapters (ops : list op) (clock0 : nat) :
  let st := run ops (__init__ empty_disk clock0) in
  let known := Model.known_models (model_registry st) in
  (forall h, current_model st = Some h -> h <> "" /\ is_Some (Dict.get h known)) /\
  Model.current_model (model_registry st) = current_model st /\
  (forall h info, Dict.get h known = Some info ->
     NoDup (Model.lora_ids info) /\
     forall lora_id,
       lora_id ∈ Model.lora_ids info <->
       exists r, get_lora lora_id st = Some r /\ LoRA.model_identity_hash r = Some h) /\
  (forall lora_id r h,
     get_lora lora_id st = Some r -> LoRA.model_identity_hash r = Some h ->
     exists info, Dict.get h known = Some info /\ lora_id ∈ Model.lora_ids info).
Proof.
  intros st known. pose proof (run_well_formed ops clock0) as Hwf.
  pose proof (run_models_inv ops clock0) as Hinv. fold st in Hwf, Hinv.
  assert (forall k h,
    bound_to st k h <->
    exists r, get_lora k st = Some r /\ LoRA.model_identity_hash r = Some h) as Hb.
  { intros k h. unfold bound_to. split.
    - intros (r & Hr & Hh). exists r. split; [|done]. apply get_lora_Some.
      split; [done|]. by eapply well_formed_lora.
    - intros (r & [Hr _]%get_lora_Some & Hh). by exists r. }
  split_and!.
  - intros h Hh. split.
    + intros ->. by apply (mi_current _ Hinv).
    + apply dict_mem_get. by apply Hinv.
  - apply Hinv.
  - intros h info Hget. split; [by eapply mi_nodup|].
    intros k. rewrite <- Hb. by apply Hinv.
  - intros k r h Hr Hh.
    assert (bound_to st k h) as Hbd by (apply Hb; by exists r).
    pose proof (mi_bound _ Hinv _ _ Hbd) as Hmem.
    apply dict_mem_get in Hmem as [info Hinfo]. exists info. split; [done|].
    by apply (mi_listed _ Hinv _ _ _ Hinfo).
Qed.

(** ** Detecting a change of model *)

Lemma detect_model_change_run model_path st :
  detect_model_change model_path st =
    Ok {| dr_changed :=
            match current_model st with
            | None => false
            | Some h => negb (bool_decide (h = hash_of model_path st))
            end;
          dr_known :=
            Dict.mem (hash_of model_path st) (Model.known_models (model_registry st));
          dr_current_hash := current_model st;
          dr_new_hash := hash_of model_path st;
          dr_new_name := Model.name (identify_model model_path (isoformat_at (clock st))) |}
       (set_clock (S (clock st)) st).
Proof. unfold detect_model_change, mbind, M_bind, get_state, now, hash_of. by destruct st. Qed.

(** X19: in every state that a manager started on an empty data directory
    can reach, [detect_model_change] only reads the clock, and what it
    answers is what [register_model] and [handle_model_switch] do when they
    are called in its place: the same hash, [known] when the model is not
    new, the current model as [previous_model], [changed] exactly when
    [model_changed] is true.  When [changed] is false, [handle_model_switch]
    does what [register_model] does and answers "Same model detected, no
    changes needed"; when it is true, it answers the summary of a switch to
    the detected hash. *)
Theorem detect_model_change_predicts (ops : list op) (clock0 : nat)
    (model_path : string) (friendly_name : option string) :
  let st := run ops (__init__ empty_disk clock0) in
  exists d r st1 res st2,
    detect_model_change model_path st = Ok d (set_clock (S (clock st)) st) /\
    register_model model_path friendly_name st = Ok r st1 /\
    handle_model_switch model_path friendly_name st = Ok res st2 /\
    dr_new_hash d = rr_identity_hash r /\
    dr_known d = negb (rr_is_new r) /\
    dr_current_hash d = rr_previous_model r /\
    dr_changed d = Py.truthy (rr_model_changed r) /\
    current_model st1 = Some (dr_new_hash d) /\
    current_model st2 = Some (dr_new_hash d) /\
    (dr_changed d = false ->
       res = Same "Same model detected, no changes needed" r /\ st2 = st1) /\
    (dr_changed d = true ->
       exists summary, res = Switched summary /\
         previous_model summary = current_model st /\
         new_model summary = dr_new_hash d).
Proof.
  intros st. pose proof (run_well_formed ops clock0) as Hwf.
  pose proof (run_models_inv ops clock0) as Hinv. fold st in Hwf, Hinv.
  destruct (register_model_run model_path friendly_name st)
    as (r & st1 & Hreg & Hhash & Hprev & Hchanged & Hnew & Hcur1 & _).
  assert (Py.truthy (model_changed_value (current_model st) (hash_of model_path st)) =
          match current_model st with
          | None => false
          | Some h => negb (bool_decide (h = hash_of model_path st))
          end) as Htruthy.
  { pose proof (mi_current _ Hinv) as Hne. unfold model_changed_value, Py.and_.
    destruct (current_model st) as [p|]; simpl; [|done].
    destruct (String.eqb_spec p "") as [->|_]; [done|]. simpl.
    by rewrite (bool_decide_ext (Some p = Some (hash_of model_path st))
                  (p = hash_of model_path st)) by (split; congruence). }
  destruct (Py.truthy (model_changed_value (current_model st) (hash_of model_path st)))
    eqn:Hch.
  - destruct (proj1 (model_changed_truthy _ _) Hch) as (p & Hcur & Hpne & Hne).
    destruct (handle_model_switch_switched model_path friendly_name p st)
      as (summary & st2 & Hrun & Hp & Hn & _ & _ & Hcur2 & _); try done.
    { apply Hwf. }
    { eapply saved_persisted, Hwf. }
    eexists _, r, st1, _, st2. split; [apply detect_model_change_run|]. simpl.
    rewrite Hhash, Hprev, Hnew, Hchanged, <- Htruthy.
    split_and!; try done; [by rewrite negb_involutive|].
    intros _. exists summary. by rewrite Hcur.
  - destruct (handle_model_switch_same model_path friendly_name st Hch)
      as (message & reg & st2 & Hrun & _ & Hcur2).
    eexists _, r, st1, _, st2. split; [apply detect_model_change_run|]. simpl.
    rewrite Hhash, Hprev, Hnew, Hchanged, <- Htruthy.
    split_and!; try done; [by rewrite negb_involutive|].
    intros _. revert Hrun. unfold handle_model_switch. unfold mbind at 1. unfold M_bind, get_state.
    unfold mbind at 1. unfold M_bind. rewrite Hreg, Hchanged, Hch. simpl.
    by intros [= <- <- <-].
Qed.

(** ** Known models *)

(** X20: in every state that a manager started on an empty data directory
    can reach, [get_known_models] returns one entry for each known model,
    the one seen last first.  The entry of a model carries the friendly
    name, the dates and the use count of the registry; its [lora_count] is
    the number of adapters bound to the model, deleted ones included; and
    [is_current] marks the current model, which is always among the
    entries. *)
Theorem get_known_models_lists (ops : list op) (clock0 : nat) :
  let st := run ops (__init__ empty_disk clock0) in
  let known := Model.known_models (model_registry st) in
  let models := get_known_models st in
  km_identity_hash <$> models ≡ₚ Dict.keys known /\
  NoDup (km_identity_hash <$> models) /\
  latest_first km_last_seen models /\
  (forall m, m ∈ models ->
     exists info adapters,
       Dict.get (km_identity_hash m) known = Some info /\
       km_name m = Model.k_friendly_name info /\
       km_first_seen m = Model.first_seen info /\
       km_last_seen m = Model.last_seen info /\
       km_times_used m = Model.times_used info /\
       NoDup adapters /\
       (forall lora_id,
          lora_id ∈ adapters <->
          exists r, get_lora lora_id st = Some r /\
            LoRA.model_identity_hash r = Some (km_identity_hash m)) /\
       km_lora_count m = length adapters /\
       (km_is_current m = true <-> current_model st = Some (km_identity_hash m))) /\
  (forall h, current_model st = Some h ->
     exists m, m ∈ models /\ km_identity_hash m = h /\ km_is_current m = true).
Proof.
  intros st known models. pose proof (run_well_formed ops clock0) as Hwf.
  pose proof (run_models_inv ops clock0) as Hinv. fold st in Hwf, Hinv.
  pose proof (mi_wf _ Hinv) as Hkwf. fold known in Hkwf.
  set (entry_of := fun '(hash_id, info) =>
    {| km_identity_hash := hash_id;
       km_name := Model.k_friendly_name info;
       km_model_type := Model.model_type (Model.k_identity info);
       km_first_seen := Model.first_seen info;
       km_last_seen := Model.last_seen info;
       km_times_used := Model.times_used info;
       km_lora_count := length (Model.lora_ids info);
       km_is_current := bool_decide (Some hash_id = current_model st) |}).
  assert (models = Py.sorted_reverse km_last_seen (map entry_of known)) as Hmodels by done.
  assert (km_identity_hash <$> models ≡ₚ Dict.keys known) as Hperm.
  { rewrite Hmodels, sorted_reverse_perm. unfold Dict.keys.
    rewrite <- list_fmap_compose.
    assert (km_identity_hash ∘ entry_of <$> known = known.*1) as ->; [|done].
    apply list_fmap_ext. by intros i [h info] _. }
  assert (forall m, m ∈ models <->
            exists h info, Dict.get h known = Some info /\ m = entry_of (h, info)) as Helem.
  { intros m. rewrite Hmodels, elem_of_sorted_reverse, list_elem_of_fmap. split.
    - intros ([h info] & -> & Hin). exists h, info. split; [|done].
      by apply dict_elem_of_get.
    - intros (h & info & Hget & ->). exists (h, info). split; [done|].
      by apply dict_get_elem_of. }
  split_and!; [done|by rewrite Hperm|rewrite Hmodels; apply sorted_reverse_sorted| |].
  - intros m (h & info & Hget & ->)%Helem. exists info, (Model.lora_ids info). simpl.
    split_and!; try done.
    + by eapply mi_nodup.
    + intros k. rewrite (mi_listed _ Hinv _ _ k Hget). unfold bound_to. split.
      * intros (r & Hr & Hh). exists r. split; [|done]. apply get_lora_Some.
        split; [done|]. by eapply well_formed_lora.
      * intros (r & [Hr _]%get_lora_Some & Hh). by exists r.
    + rewrite bool_decide_eq_true. split; congruence.
  - intros h Hcur. pose proof (mi_known _ Hinv h Hcur) as Hmem.
    apply dict_mem_get in Hmem as [info Hget]. exists (entry_of (h, info)).
    split; [apply Helem; by exists h, info|]. simpl. split; [done|].
    by apply bool_decide_eq_true.
Qed.

(** ** The overview *)

Section Overview.
Context {R : Type} (status : R -> string).

Lemma sum_values_set s (d : dict Z) :
  sum_values (Dict.set s (default 0 (Dict.get s d) + 1) d) = sum_values d + 1.
Proof.
  unfold sum_values. induction d as [|[k v] d IH]; [done|].
  cbn [Dict.get Dict.set]. destruct (decide (s = k)); rewrite !fmap_cons; cbn [foldr snd].
  - simpl. ring.
  - rewrite IH. ring.
Qed.

Lemma overview_scan_total items : forall by_status total,
  (overview_scan status items by_status total).2 =
  total + Z.of_nat (length (records items)).
Proof.
  induction items as [|[k e] items IH]; intros by_status total; simpl; [lia|].
  destruct (Py.startswith_underscore k); [apply IH|].
  destruct e as [r|n]; [|apply IH]. rewrite IH. simpl. lia.
Qed.

Lemma overview_scan_sum items : forall by_status total,
  sum_values (overview_scan status items by_status total).1 =
  sum_values by_status + Z.of_nat (length (records items)).
Proof.
  induction items as [|[k e] items IH]; intros by_status total; simpl; [lia|].
  destruct (Py.startswith_underscore k); [apply IH|].
  destruct e as [r|n]; [|apply IH]. rewrite IH, sum_values_set. simpl. lia.
Qed.

Lemma overview_scan_count items s : forall by_status total,
  get_count s (overview_scan status items by_status total).1 =
  get_count s by_status +
  Z.of_nat (length (filter (fun r => status r = s) (records items))).
Proof.
  unfold get_count.
  induction items as [|[k e] items IH]; intros by_status total; simpl; [lia|].
  destruct (Py.startswith_underscore k); [apply IH|].
  destruct e as [r|n]; [|apply IH]. rewrite IH.
  destruct (decide (status r = s)) as [<-|Hne].
  - rewrite dict_get_set_eq, filter_cons_True by done. simpl. lia.
  - rewrite dict_get_set_ne, filter_cons_False by done. lia.
Qed.

Lemma overview_scan_keys items s : forall by_status total,
  s ∈ Dict.keys (overview_scan status items by_status total).1 <->
  s ∈ Dict.keys by_status \/ exists r, r ∈ records items /\ status r = s.
Proof.
  induction items as [|[k e] items IH]; intros by_status total; simpl.
  { split; [by left|]. by intros [?|(? & ?%elem_of_nil & _)]. }
  destruct (Py.startswith_underscore k); [apply IH|].
  destruct e as [r|n]; [|apply IH]. rewrite IH, <- !dict_mem_keys.
  destruct (decide (status r = s)) as [<-|Hne].
  - rewrite dict_mem_set_eq. split; [|by left]. intros _. right. exists r.
    split; [left|done].
  - unfold Dict.mem. rewrite dict_get_set_ne by done. split.
    + intros [?|(r0 & Hin & Hs)]; [by left|]. right. exists r0. split; [by right|done].
    + intros [?|(r0 & Hin & Hs)]; [by left|]. right. exists r0. split; [|done].
      apply elem_of_cons in Hin as [->|Hin]; done.
Qed.

(** A listing that rewrites records without touching their status lists
    records of the same statuses. *)
Lemma records_relabelled upd items items' :
  relabelled upd items items' ->
  (forall k r r', upd k r r' -> status r' = status r) ->
  status <$> records items' = status <$> records items.
Proof.
  induction 1 as [|[k1 e1] [k2 e2] rest rest' [Hk He] _ IH]; intros Hupd; [done|].
  specialize (IH Hupd). simpl in *. subst k2.
  destruct (Py.startswith_underscore k1); [done|].
  destruct He as [->|(r & r' & -> & -> & Hr)].
  - destruct e1; simpl; [by f_equal|done].
  - simpl. rewrite (Hupd _ _ _ Hr). by f_equal.
Qed.

Lemma length_filter_status (P : string -> Prop) `{!forall s, Decision (P s)} (l : list R) :
  length (filter (fun r => P (status r)) l) = length (filter P (status <$> l)).
Proof.
  induction l as [|r l IH]; [done|]. rewrite fmap_cons.
  destruct (decide (P (status r))).
  - rewrite !filter_cons_True by done. simpl. by rewrite IH.
  - by rewrite !filter_cons_False.
Qed.

End Overview.

Lemma by_status_scan_all items :
  (forall k c, (k, Mapping c) ∈ items -> Chunk.chunk_id c = k) ->
  (by_status_scan None None items).2 = records items.
Proof.
  induction items as [|[k e] items IH]; intros Hid; [done|]. simpl.
  specialize (IH (fun k c H => Hid k c (list_elem_of_further _ _ _ H))).
  destruct (by_status_scan None None items) as [rest' chunks]. simpl in *. subst chunks.
  destruct (Py.startswith_underscore k); [done|]. destruct e as [c|n]; [|done].
  simpl. f_equal. apply set_chunk_id_id, Hid. left.
Qed.

Lemma by_status_scan_status s items :
  s <> "" ->
  (forall k c, (k, Mapping c) ∈ items -> Chunk.chunk_id c = k) ->
  (by_status_scan (Some s) None items).2 =
  filter (fun c => Chunk.status c = s) (records items).
Proof.
  intros Hs. induction items as [|[k e] items IH]; intros Hid; [done|]. simpl.
  specialize (IH (fun k c H => Hid k c (list_elem_of_further _ _ _ H))).
  destruct (by_status_scan (Some s) None items) as [rest' chunks]. simpl in *. subst chunks.
  destruct (Py.startswith_underscore k); [done|]. destruct e as [c|n]; [|done].
  replace (negb (s =? "")%string) with true by (by destruct (String.eqb_spec s "")).
  simpl. destruct (decide (Chunk.status c = s)) as [<-|Hne].
  - rewrite bool_decide_eq_true_2 by done. rewrite filter_cons_True by done. simpl.
    f_equal. apply set_chunk_id_id, Hid. left.
  - rewrite bool_decide_eq_false_2 by congruence. by rewrite filter_cons_False.
Qed.

Lemma all_loras_scan_all items :
  (forall k r, (k, Mapping r) ∈ items -> LoRA.lora_id r = k) ->
  (all_loras_scan true items).2 = records items.
Proof.
  induction items as [|[k e] items IH]; intros Hid; [done|]. simpl.
  specialize (IH (fun k c H => Hid k c (list_elem_of_further _ _ _ H))).
  destruct (all_loras_scan true items) as [rest' loras]. simpl in *. subst loras.
  destruct (Py.startswith_underscore k); [done|]. destruct e as [c|n]; [|done].
  simpl. f_equal. apply set_lora_id_id, Hid. left.
Qed.

#[local] Instance untrained_status_dec s : Decision (untrained_status s).
Proof. unfold untrained_status. apply _. Defined.

Lemma untrained_scan_length items :
  length (untrained_scan items).2 =
  length (filter untrained_status (Chunk.status <$> records items)).
Proof.
  induction items as [|[k e] items IH]; [done|]. simpl.
  destruct (untrained_scan items) as [rest' chunks]. simpl in *.
  destruct (Py.startswith_underscore k); [done|]. destruct e as [c|n]; [|done].
  rewrite fmap_cons.
  destruct (decide (untrained_status (Chunk.status c))) as [Hu|Hu].
  - rewrite filter_cons_True by done.
    replace (_ || _ || _) with true; [simpl; by rewrite IH|]. symmetry.
    unfold untrained_status in Hu. rewrite !orb_true_iff, !bool_decide_eq_true. tauto.
  - rewrite filter_cons_False by done.
    replace (_ || _ || _) with false; [done|]. symmetry.
    apply not_true_is_false. rewrite !orb_true_iff, !bool_decide_eq_true.
    unfold untrained_status in Hu. tauto.
Qed.

Lemma length_filter_untrained (l : list string) :
  length (filter untrained_status l) =
  (length (filter (fun s => s = ChunkStatus.PENDING) l) +
   length (filter (fun s => s = ChunkStatus.FAILED) l) +
   length (filter (fun s => s = ChunkStatus.RESTORED) l))%nat.
Proof.
  induction l as [|c l IH]; [done|]. rewrite !filter_cons.
  destruct (decide (untrained_status c)) as [Hu|Hu]; unfold untrained_status in Hu;
    repeat case_decide; simpl; rewrite IH; try lia;
    exfalso; unfold ChunkStatus.PENDING, ChunkStatus.FAILED, ChunkStatus.RESTORED in *;
    intuition congruence.
Qed.

Lemma get_overview_run st :
  well_formed st ->
  let scan :=
    restorable_scan (current_model st) (documents_json (disk st)) (chunk_registry st) in
  get_overview st =
    Ok {| ov_current_model := current_model st;
          ov_current_model_name := _get_model_name (current_model st) st;
          ov_known_models := length (Model.known_models (model_registry st));
          ov_total_chunks := (overview_scan Chunk.status (chunk_registry st) [] 0).2;
          ov_chunks_by_status := (overview_scan Chunk.status (chunk_registry st) [] 0).1;
          ov_total_loras := (overview_scan LoRA.status (lora_registry st) [] 0).2;
          ov_loras_by_status := (overview_scan LoRA.status (lora_registry st) [] 0).1;
          ov_compatible_loras := length (get_compatible_loras None st);
          ov_restorable_chunks := length scan.2;
          ov_untrained_chunks := length (untrained_scan scan.1).2 |}
       (set_chunk_registry scan.1 st).
Proof.
  intros Hwf scan.
  pose proof (prim_get_restorable_chunks _ well_formed_primitives None st Hwf) as Hwf'.
  rewrite get_restorable_chunks_run in Hwf'. simpl in Hwf'. fold scan in Hwf'.
  unfold get_overview, mbind, M_bind, get_state.
  destruct (overview_scan Chunk.status _ _ _) as [cbs tc].
  destruct (overview_scan LoRA.status _ _ _) as [lbs tl].
  rewrite get_restorable_chunks_run. simpl. fold scan.
  by rewrite (get_untrained_chunks_run _ Hwf').
Qed.
Lemma length_filter_perm {A} (P : A -> Prop) `{!forall x, Decision (P x)} (l k : list A) :
  l ≡ₚ k -> length (filter P l) = length (filter P k).
Proof. by intros ->. Qed.

(** The counts of [overview_scan], read on a list that holds the records
    of the registry in some order. *)
Lemma overview_scan_listing {R} (status : R -> string) items (listing : list R) :
  listing ≡ₚ records items ->
  let scan := overview_scan status items [] 0 in
  scan.2 = Z.of_nat (length listing) /\
  sum_values scan.1 = scan.2 /\
  (forall s, get_count s scan.1 =
     Z.of_nat (length (filter (fun r => status r = s) listing))) /\
  (forall s, s ∈ Dict.keys scan.1 <-> exists r, r ∈ listing /\ status r = s).
Proof.
  intros Hperm scan. unfold scan. split_and!.
  - by rewrite overview_scan_total, Hperm.
  - by rewrite overview_scan_sum, overview_scan_total.
  - intros s. rewrite overview_scan_count. unfold get_count. simpl.
    by rewrite (length_filter_perm _ _ _ Hperm).
  - intros s. rewrite overview_scan_keys. split.
    + intros [?%elem_of_nil|(r & Hr & Hs)]; [done|]. exists r. by rewrite Hperm.
    + intros (r & Hr & Hs). right. exists r. by rewrite <- Hperm.
Qed.

(** X21: in every state that a manager started on an empty data directory
    can reach, the numbers of [get_overview] are those of the listings:
    [total_chunks] and [total_loras] count what [get_chunks_by_status()] and
    [get_all_loras(True)] list, and are the sums of the counts by status;
    the count under a status is the number of listed records with that
    status, and a status that no record has is no key; [restorable_chunks]
    and [untrained_chunks] are the lengths of the two listings, the latter
    the sum of the counts under [pending], [failed] and [restored]; and the
    call leaves the state in which [get_restorable_chunks()] leaves it. *)
Theorem get_overview_counts (ops : list op) (clock0 : nat) :
  let st := run ops (__init__ empty_disk clock0) in
  exists ov all_chunks all_loras untrained_chunks restorable st',
    get_chunks_by_status None None st = Ok all_chunks st /\
    get_all_loras true st = Ok all_loras st /\
    get_untrained_chunks st = Ok untrained_chunks st /\
    get_restorable_chunks None st = Ok restorable st' /\
    get_overview st = Ok ov st' /\
    ov_total_chunks ov = Z.of_nat (length all_chunks) /\
    sum_values (ov_chunks_by_status ov) = ov_total_chunks ov /\
    (forall s, get_count s (ov_chunks_by_status ov) =
       Z.of_nat (length (filter (fun c => Chunk.status c = s) all_chunks))) /\
    (forall s, s ∈ Dict.keys (ov_chunks_by_status ov) <->
       exists c, c ∈ all_chunks /\ Chunk.status c = s) /\
    ov_total_loras ov = Z.of_nat (length all_loras) /\
    sum_values (ov_loras_by_status ov) = ov_total_loras ov /\
    (forall s, get_count s (ov_loras_by_status ov) =
       Z.of_nat (length (filter (fun r => LoRA.status r = s) all_loras))) /\
    (forall s, s ∈ Dict.keys (ov_loras_by_status ov) <->
       exists r, r ∈ all_loras /\ LoRA.status r = s) /\
    ov_compatible_loras ov = length (get_compatible_loras None st) /\
    ov_restorable_chunks ov = length restorable /\
    ov_untrained_chunks ov = length untrained_chunks /\
    Z.of_nat (ov_untrained_chunks ov) =
      get_count ChunkStatus.PENDING (ov_chunks_by_status ov) +
      get_count ChunkStatus.FAILED (ov_chunks_by_status ov) +
      get_count ChunkStatus.RESTORED (ov_chunks_by_status ov).
Proof.
  intros st. pose proof (run_well_formed ops clock0) as Hwf. fold st in Hwf.
  assert (forall k c, (k, Mapping c) ∈ chunk_registry st -> Chunk.chunk_id c = k) as Hcid.
  { intros k c Hin. apply dict_elem_of_get in Hin; [|apply Hwf].
    by eapply well_formed_chunk. }
  assert (forall k r, (k, Mapping r) ∈ lora_registry st -> LoRA.lora_id r = k) as Hlid.
  { intros k r Hin. apply dict_elem_of_get in Hin; [|apply Hwf].
    by eapply well_formed_lora. }
  set (scan := restorable_scan (current_model st) (documents_json (disk st))
                 (chunk_registry st)).
  assert (Chunk.status <$> records scan.1 = Chunk.status <$> records (chunk_registry st))
    as Hstatus.
  { eapply records_relabelled; [apply restorable_scan_relabelled|].
    by intros k r r' [reason ->]. }
  assert (length (untrained_scan scan.1).2 =
          length (untrained_scan (chunk_registry st)).2) as Huntrained.
  { by rewrite !untrained_scan_length, Hstatus. }
  eexists _, _, _, _, _, _.
  split; [by apply get_chunks_by_status_run|].
  split; [by apply get_all_loras_run|].
  split; [by apply get_untrained_chunks_run|].
  split; [apply get_restorable_chunks_run|].
  split; [by apply get_overview_run|]. cbn [ov_total_chunks ov_chunks_by_status
    ov_total_loras ov_loras_by_status ov_compatible_loras ov_restorable_chunks
    ov_untrained_chunks].
  destruct (overview_scan_listing Chunk.status (chunk_registry st)
              (Py.sorted_reverse Chunk.created_at
                 (by_status_scan None None (chunk_registry st)).2))
    as (Hc1 & Hc2 & Hc3 & Hc4).
  { by rewrite sorted_reverse_perm, by_status_scan_all. }
  destruct (overview_scan_listing LoRA.status (lora_registry st)
              (Py.sorted_reverse LoRA.created_at
                 (all_loras_scan true (lora_registry st)).2))
    as (Hl1 & Hl2 & Hl3 & Hl4).
  { by rewrite sorted_reverse_perm, all_loras_scan_all. }
  split_and!; try done.
  fold scan. rewrite Huntrained, untrained_scan_length, length_filter_untrained.
  rewrite <- !(length_filter_status Chunk.status (fun s => s = _)).
  rewrite !overview_scan_count, !Nat2Z.inj_add. unfold get_count. simpl. reflexivity.
Qed.
(** X22: in every state that a manager started on an empty data directory
    can reach, [get_overview] reports the current model, as many known
    models as [get_known_models] lists, and as [current_model_name] the
    string "None" while no model is registered and afterwards the friendly
    name that the registry holds for the current model, never the first
    characters of its hash. *)
Theorem get_overview_current_model (ops : list op) (clock0 : nat) :
  let st := run ops (__init__ empty_disk clock0) in
  exists ov st',
    get_overview st = Ok ov st' /\
    ov_current_model ov = current_model st /\
    ov_known_models ov = length (get_known_models st) /\
    match current_model st with
    | None => ov_current_model_name ov = "None"
    | Some h =>
        exists info,
          Dict.get h (Model.known_models (model_registry st)) = Some info /\
          ov_current_model_name ov = Model.k_friendly_name info
    end.
Proof.
  intros st. pose proof (run_well_formed ops clock0) as Hwf.
  pose proof (run_models_inv ops clock0) as Hinv. fold st in Hwf, Hinv.
  eexists _, _. split; [by apply get_overview_run|]. simpl.
  split; [done|]. split.
  { unfold get_known_models. by rewrite length_sorted_reverse, length_map. }
  unfold _get_model_name. destruct (current_model st) as [h|] eqn:Hcur; [|done].
  pose proof (mi_known _ Hinv h Hcur) as Hmem. apply dict_mem_get in Hmem as [info Hget].
  exists info. split; [done|]. simpl. rewrite Hget.
  destruct (String.eqb_spec h "") as [->|_]; [|done].
  by destruct (mi_current _ Hinv).
Qed.

(** ** The block size of the file checksum *)

Lemma streamed_zero file algorithm : streamed file algorithm 0 = new algorithm.
Proof. unfold streamed. by rewrite read_loop_unfold. Qed.

Lemma streamed_all file algorithm :
  concat (updates (streamed file algorithm (-1))) = file.
Proof.
  unfold streamed. rewrite read_loop_unfold. unfold read, open. simpl.
  rewrite drop_0. destruct file as [|b file]; [done|].
  rewrite read_loop_unfold. unfold read. simpl.
  rewrite drop_all. simpl. by rewrite app_nil_r.
Qed.

Lemma streamed_name file algorithm chunk_size :
  chunk_size <= 0 -> name (streamed file algorithm chunk_size) = algorithm.
Proof.
  intros Hle. unfold streamed. rewrite read_loop_unfold. unfold read, open. simpl.
  destruct (Z.ltb_spec chunk_size 0).
  - rewrite drop_0. destruct file as [|b file]; [done|].
    rewrite read_loop_unfold. unfold read. simpl.
    rewrite drop_all, take_nil. by destruct (chunk_size <? 0).
  - by replace chunk_size with 0 by lia.
Qed.

(** X23: for a file of at most 10 GiB, the SHA-256 checksum computed by
    [compute_file_checksum] does not depend on the block size as long as it
    is positive, and a block size of -1 reads the file in one block to the
    same effect; with a block size of 0 the first read returns nothing, and
    the checksum is that of the empty input, whatever the file holds. *)
Theorem compute_file_checksum_chunk_size (digest : string -> bytes -> string)
    (file : bytes) (chunk_size : Z) :
  getsize file <= 10 * 1024 * 1024 * 1024 ->
  (0 < chunk_size \/ chunk_size = -1 ->
   compute_file_checksum digest file default_algorithm chunk_size =
   digest "sha256" file) /\
  (chunk_size = 0 ->
   compute_file_checksum digest file default_algorithm chunk_size =
   digest "sha256" []).
Proof.
  intros Hsize. unfold compute_file_checksum.
  rewrite Z.gtb_ltb. destruct (Z.ltb_spec (10 * 1024 * 1024 * 1024) (getsize file)); [lia|].
  unfold hexdigest. split.
  - intros [Hpos| ->].
    + destruct (streamed_blocks file default_algorithm chunk_size Hpos) as (-> & -> & _).
      done.
    + by rewrite streamed_all, streamed_name.
  - intros ->. by rewrite streamed_zero.
Qed.

(** ** Marking an adapter unusable *)

(** X24: in every state that a manager started on an empty data directory
    can reach, [mark_lora_unusable] of an adapter that [get_lora] finds
    sets its status to [unusable] with the reason and the time of the call,
    whatever the status was, and changes no other adapter, chunk or model.
    The mark does not hide the adapter: [get_all_loras()] lists it, also if
    it had been deleted, [get_compatible_loras] lists it for the model it is
    bound to, and [select_lora] still answers [compatible] when it is bound
    to the current model or to none. *)
Theorem mark_lora_unusable_keeps_selectable (ops : list op) (clock0 : nat)
    (lora_id reason : string) (r : LoRA.t) :
  let st := run ops (__init__ empty_disk clock0) in
  get_lora lora_id st = Some r ->
  let r' := marked_unusable reason (isoformat_at (clock st)) r in
  exists st',
    mark_lora_unusable lora_id reason st = Ok tt st' /\
    get_lora lora_id st' = Some r' /\
    LoRA.status r' = "unusable" /\
    LoRA.unusable_reason r' = Some reason /\
    (forall k, k <> lora_id -> get_lora k st' = get_lora k st) /\
    chunk_registry st' = chunk_registry st /\
    model_registry st' = model_registry st /\
    current_model st' = current_model st /\
    (exists loras, get_all_loras false st' = Ok loras st' /\ r' ∈ loras) /\
    (forall h, LoRA.model_identity_hash r = Some h -> h <> "" ->
       r' ∈ get_compatible_loras (Some h) st') /\
    (LoRA.model_identity_hash r = None \/
     LoRA.model_identity_hash r = current_model st ->
     select_lora lora_id st' = Some (Compatible r' (LoRA.path r))).
Proof.
  intros st Hget r'. pose proof (run_well_formed ops clock0) as Hwf. fold st in Hwf.
  apply get_lora_Some in Hget as [Hreg Hu].
  destruct (well_formed_lora _ _ _ Hwf Hreg) as (Hid & Hne & _).
  pose proof (prim_mark_lora_unusable _ well_formed_primitives lora_id reason st Hwf)
    as Hwf'.
  destruct (mark_lora_unusable_mapping lora_id reason st r Hreg)
    as (st' & Hrun & Hreg' & _ & _ & _ & _ & Hframe).
  rewrite Hrun in Hwf'. simpl in Hwf'. fold r' in Hreg'.
  assert (Dict.get lora_id (lora_registry st') = Some (Mapping r')) as Hnew.
  { rewrite Hreg', dict_get_set_ne by done. apply dict_get_set_eq. }
  assert (get_lora lora_id st' = Some r') as Hget' by (by apply get_lora_Some).
  exists st'. split_and!; try done; try apply Hframe.
  - intros k Hk. unfold get_lora. rewrite Hreg'.
    destruct (decide (k = "_counter")) as [->|Hc].
    + rewrite dict_get_set_eq.
      destruct (ri_lora_saved _ (proj1 Hwf)) as [Hnil|Hc]; [by rewrite Hnil in Hreg|].
      by rewrite Hc.
    + by rewrite !dict_get_set_ne.
  - eexists. split; [by apply get_all_loras_run|].
    rewrite elem_of_sorted_reverse, all_loras_scan_elem. exists lora_id, r'.
    split_and!; try done; [by apply dict_get_elem_of|].
    symmetry. by apply set_lora_id_id.
  - intros h Hh Hhne. apply get_compatible_loras_elem. exists h, lora_id.
    split_and!; try done.
    + unfold Py.or_. simpl. by destruct (String.eqb_spec h "").
    + split; [by apply dict_get_elem_of|done].
  - intros Hbound. unfold select_lora. rewrite Hget'. simpl.
    rewrite (lf_current_model _ _ Hframe).
    destruct Hbound as [->| ->]; [done|].
    rewrite bool_decide_eq_true_2 by done. simpl. by rewrite andb_false_r.
Qed.

(** ** The routes *)

Lemma well_formed_counter_chunk st k c :
  well_formed st -> Dict.get k (chunk_registry st) = Some (Mapping c) ->
  Dict.get "_counter" (chunk_registry st) = Some (Scalar (_chunk_counter st)) /\
  1 <= _chunk_counter st.
Proof.
  intros Hwf Hget. split.
  - destruct (ri_chunk_saved _ (proj1 Hwf)) as [Hnil|Hc]; [by rewrite Hnil in Hget|done].
  - destruct (numbered_get _ _ _ _ _ _ (ii_chunks _ (proj2 Hwf)) Hget) as (n & Hn & _).
    lia.
Qed.

Lemma well_formed_counter_lora st k r :
  well_formed st -> Dict.get k (lora_registry st) = Some (Mapping r) ->
  Dict.get "_counter" (lora_registry st) = Some (Scalar (_lora_counter st)) /\
  1 <= _lora_counter st.
Proof.
  intros Hwf Hget. split.
  - destruct (ri_lora_saved _ (proj1 Hwf)) as [Hnil|Hc]; [by rewrite Hnil in Hget|done].
  - destruct (numbered_get _ _ _ _ _ _ (ii_loras _ (proj2 Hwf)) Hget) as (n & Hn & _).
    lia.
Qed.

(** X25: in every state that a manager started on an empty data directory
    can reach, [GET /chunks/{chunk_id}] answers 200 with the record for a
    chunk of the registry, for which [GET /chunks/{chunk_id}/documents]
    answers 200 with the documents and their number, and 404 for an id that
    the registry does not have.  For the id [_counter] it answers, once a
    chunk exists, 200 with the chunk counter in place of a record. *)
Theorem route_get_chunk_answers (ops : list op) (clock0 : nat) (chunk_id : string) :
  let st := run ops (__init__ empty_disk clock0) in
  (forall c, get_chunk chunk_id st = Some (Mapping c) ->
     route_get_chunk chunk_id st =
       Ok {| status_code := 200; response_content := chunk_content (Mapping c) |} st /\
     exists documents,
       get_chunk_documents chunk_id st = Some documents /\
       route_get_chunk_documents chunk_id st =
         Ok {| status_code := 200;
               response_content :=
                 documents_content chunk_id documents (length documents) |} st) /\
  (get_chunk chunk_id st = None ->
     route_get_chunk chunk_id st =
       Ok {| status_code := 404; response_content := error_content "Chunk not found" |} st) /\
  ((exists k c, get_chunk k st = Some (Mapping c)) ->
     1 <= _chunk_counter st /\
     route_get_chunk "_counter" st =
       Ok {| status_code := 200;
             response_content := chunk_content (Scalar (_chunk_counter st)) |} st).
Proof.
  intros st. pose proof (run_well_formed ops clock0) as Hwf.
  pose proof (run_synced ops clock0) as Hsync. fold st in Hwf, Hsync.
  split_and!.
  - intros c Hget. split.
    + unfold route_get_chunk, or_500, mbind, M_bind, get_state. by rewrite Hget.
    + destruct (sy_documents _ Hsync _ _ Hget) as [documents Hdocs].
      exists documents. split; [done|].
      unfold route_get_chunk_documents, or_500, mbind, M_bind, get_state,
        get_chunk_documents. by rewrite Hdocs.
  - intros Hget. unfold route_get_chunk, or_500, mbind, M_bind, get_state. by rewrite Hget.
  - intros (k & c & Hget).
    destruct (well_formed_counter_chunk _ _ _ Hwf Hget) as [Hc Hpos]. split; [done|].
    unfold route_get_chunk, or_500, mbind, M_bind, get_state, get_chunk. rewrite Hc.
    destruct (_chunk_counter st); [lia|done..].
Qed.

(** X26: in every state that a manager started on an empty data directory
    can reach, the adapter routes answer as follows.  For an id that is no
    adapter, the delete route answers 404, the select route 404, and the
    route that marks an adapter unusable 200 with its message of success,
    none of them changing anything.  For an adapter the delete route
    answers 200, after which the select route answers 404 and the delete
    route 200 again.  For the id [_counter], once an adapter exists, the
    delete route and the marking route answer 500 with the message of the
    type error. *)
Theorem route_adapter_answers (ops : list op) (clock0 : nat) (lora_id : string) :
  let st := run ops (__init__ empty_disk clock0) in
  let not_found :=
    {| status_code := 404; response_content := error_content "LoRA not found" |} in
  let deleted id delete_files :=
    {| status_code := 200;
       response_content := deleted_content ("LoRA " +:+ id +:+ " deleted") delete_files |} in
  (get_lora lora_id st = None -> lora_id <> "_counter" ->
     (forall delete_files, route_delete_lora lora_id delete_files st = Ok not_found st) /\
     (lora_id <> "" -> route_select_lora lora_id st = Ok not_found st) /\
     (forall reason,
        route_mark_unusable lora_id reason st =
          Ok {| status_code := 200;
                response_content :=
                  message_content ("LoRA " +:+ lora_id +:+ " marked as unusable") |} st)) /\
  (forall r, get_lora lora_id st = Some r ->
     forall delete_files,
       exists st',
         route_delete_lora lora_id delete_files st = Ok (deleted lora_id delete_files) st' /\
         route_select_lora lora_id st' = Ok not_found st' /\
         forall again,
           exists st'',
             route_delete_lora lora_id again st' = Ok (deleted lora_id again) st'') /\
  ((exists k r, get_lora k st = Some r) ->
     route_delete_lora "_counter" false st =
       Ok {| status_code := 500;
             response_content :=
               error_content "'int' object does not support item assignment" |} st /\
     route_delete_lora "_counter" true st =
       Ok {| status_code := 500;
             response_content := error_content "'int' object has no attribute 'get'" |} st /\
     forall reason,
       route_mark_unusable "_counter" reason st =
         Ok {| status_code := 500;
               response_content :=
                 error_content "'int' object does not support item assignment" |} st).
Proof.
  intros st not_found deleted. pose proof (run_well_formed ops clock0) as Hwf.
  fold st in Hwf. split_and!.
  - intros Hnone Hne.
    assert (Dict.get lora_id (lora_registry st) = None) as Hget.
    { destruct (Dict.get lora_id (lora_registry st)) as [[r|n]|] eqn:Hget; [| |done].
      - destruct (well_formed_lora _ _ _ Hwf Hget) as (_ & _ & Hu).
        unfold get_lora in Hnone. by rewrite Hget, Hu in Hnone.
      - destruct (ii_loras _ (proj2 Hwf)) as [_ Hnum].
        by destruct (Hnum _ _ Hget) as [[-> _]|(? & ? & _ & _ & [=] & _)]. }
    split_and!.
    + intros delete_files. unfold route_delete_lora, or_500. unfold mbind, M_bind.
      by rewrite delete_lora_absent.
    + intros Hid. unfold route_select_lora.
      replace (Py.truthy (Py.Str lora_id)) with true
        by (simpl; by destruct (String.eqb_spec lora_id "")).
      cbn [negb]. unfold or_500, mbind, M_bind, get_state, select_lora. by rewrite Hnone.
    + intros reason. unfold route_mark_unusable, or_500. unfold mbind, M_bind.
      by rewrite mark_lora_unusable_absent.
  - intros r [Hreg Hu]%get_lora_Some delete_files.
    destruct (well_formed_lora _ _ _ Hwf Hreg) as (_ & Hne & _).
    assert (lora_id <> "") as Hid.
    { intros ->.
      by destruct (numbered_get _ _ _ _ _ _ (ii_loras _ (proj2 Hwf)) Hreg) as (n & _ & ? & _). }
    destruct (delete_lora_mapping lora_id delete_files st r Hreg)
      as (st' & Hrun & Hreg' & _).
    assert (Dict.get lora_id (lora_registry st') =
            Some (Mapping (LoRA.set_deleted_at (Some (isoformat_at (clock st)))
                             (LoRA.set_status "deleted" r)))) as Hnew.
    { rewrite Hreg', dict_get_set_ne by done. apply dict_get_set_eq. }
    exists st'. split_and!.
    + unfold route_delete_lora, or_500. unfold mbind, M_bind. by rewrite Hrun.
    + unfold route_select_lora.
      replace (Py.truthy (Py.Str lora_id)) with true
        by (simpl; by destruct (String.eqb_spec lora_id "")).
      cbn [negb]. unfold or_500, mbind, M_bind, get_state, select_lora, get_lora.
      by rewrite Hnew, Hu.
    + intros again.
      destruct (delete_lora_mapping lora_id again st' _ Hnew) as (st'' & Hrun' & _).
      exists st''. unfold route_delete_lora, or_500. unfold mbind, M_bind.
      by rewrite Hrun'.
  - intros (k & r & [Hreg _]%get_lora_Some).
    destruct (well_formed_counter_lora _ _ _ Hwf Hreg) as [Hc _].
    split_and!.
    + unfold route_delete_lora, or_500. unfold mbind, M_bind.
      unfold delete_lora, mbind, M_bind, get_state. by rewrite Hc.
    + unfold route_delete_lora, or_500. unfold mbind, M_bind.
      unfold delete_lora, mbind, M_bind, get_state. by rewrite Hc.
    + intros reason. unfold route_mark_unusable, or_500. unfold mbind, M_bind.
      unfold mark_lora_unusable, mbind, M_bind, get_state. by rewrite Hc.
Qed.

(** ** An adapter registered halfway *)




End ChunkManager.

(** * The sample environment at work *)

Lemma sample_identity_hash_nonempty model_path detected :
  Model.identity_hash (Sample.identify_model model_path detected) <> "".
Proof. done. Qed.

(** Registering model [/m/a], creating a chunk, training it into an adapter:
    the adapter is active and bound to the model. *)
Lemma sample_trained_state :
  let st :=
    run Sample.isoformat_at Sample.identify_model
      [RegisterModel "/m/a" None;
       CreateChunk Sample.documents None None;
       MarkChunkTraining "chunk_0001";
       RegisterLora ["chunk_0001"] "/tmp/ad" None None]
      (__init__ empty_disk 0) in
  current_model st = Some "hash:/m/a" /\
  Dict.keys (lora_registry st) = ["lora_0001"; "_counter"] /\
  Dict.keys (chunk_registry st) = ["chunk_0001"; "_counter"] /\
  exists r c,
    Dict.get "lora_0001" (lora_registry st) = Some (Mapping r) /\
    LoRA.status r = "active" /\
    LoRA.model_identity_hash r = Some "hash:/m/a" /\
    LoRA.lora_id r = "lora_0001" /\
    Dict.get "chunk_0001" (chunk_registry st) = Some (Mapping c) /\
    Chunk.status c = "trained" /\
    Chunk.lora_id c = Some "lora_0001" /\
    get_chunk_documents "chunk_0001" st = Some Sample.documents.
Proof.
  intros st. split_and!; [by vm_compute..|].
  eexists _, _. split_and!; by vm_compute.
Qed.

(** Switching from [/m/a] to [/m/b] in that state. *)
Lemma handle_model_switch_invalidates_witness :
  let st :=
    run Sample.isoformat_at Sample.identify_model
      [RegisterModel "/m/a" None;
       CreateChunk Sample.documents None None;
       MarkChunkTraining "chunk_0001";
       RegisterLora ["chunk_0001"] "/tmp/ad" None None]
      (__init__ empty_disk 0) in
  exists summary st',
    handle_model_switch Sample.isoformat_at Sample.identify_model "/m/b" None st =
      Ok (Switched summary) st' /\
    previous_model summary = Some "hash:/m/a" /\
    new_model summary = "hash:/m/b" /\
    unusable_loras summary = ["lora_0001"].
Proof.
  intros st.
  destruct (handle_model_switch_invalidates Sample.isoformat_at Sample.identify_model
              "/m/b" None "hash:/m/a" st)
    as (summary & st' & Hrun & Hp & Hn & Hun & _).
  - apply (bool_decide_unpack _). by vm_compute.
  - right. by vm_compute.
  - by vm_compute.
  - done.
  - by vm_compute.
  - exists summary, st'. split_and!; [done | done | by rewrite Hn | by rewrite Hun].
Defined.

(** After the switch to [/m/b] the chunk trained for [/m/a] is restorable. *)
Lemma get_restorable_chunks_iff_witness :
  let st :=
    run Sample.isoformat_at Sample.identify_model
      [RegisterModel "/m/a" None;
       CreateChunk Sample.documents None None;
       MarkChunkTraining "chunk_0001";
       RegisterLora ["chunk_0001"] "/tmp/ad" None None;
       HandleModelSwitch "/m/b" None]
      (__init__ empty_disk 0) in
  exists result st',
    get_restorable_chunks None st = Ok result st' /\
    "chunk_0001" ∈ map Chunk.chunk_id result.
Proof.
  intros st.
  destruct (get_restorable_chunks_iff None (current_model st) st)
    as (result & st' & Hrun & Hiff).
  - apply (bool_decide_unpack _). by vm_compute.
  - done.
  - exists result, st'. split; [done|].
    assert (Hrec : exists c, chunk_record st "chunk_0001" c /\
              Chunk.status c = ChunkStatus.TRAINED /\
              Chunk.model_identity_hash c = Some "hash:/m/a").
    { eexists. split_and!; [split; [apply dict_get_elem_of|] | |]; by vm_compute. }
    destruct Hrec as (c & Hc & Hs & Hm). apply (Hiff _ c Hc).
    assert (Hdocs : documents_json (disk st) !! "chunk_0001" = Some Sample.documents)
      by (by vm_compute).
    assert (Hcur : current_model st = Some "hash:/m/b") by (by vm_compute).
    split.
    + rewrite Hdocs. by eexists.
    + right. right. split; [done|]. rewrite Hm, Hcur. by intros [=].
Defined.


(** Marking the first of two chunks as trained. *)
Lemma mark_chunk_frame_witness :
  let st :=
    run Sample.isoformat_at Sample.identify_model
      [CreateChunk Sample.documents None None;
       CreateChunk Sample.documents None None]
      (__init__ empty_disk 0) in
  let st' :=
    final (mark_chunk Sample.isoformat_at (Trained "lora_0001") "chunk_0001" st) in
  _chunk_counter st' = 2 /\
  Dict.get "chunk_0002" (chunk_registry st') = Dict.get "chunk_0002" (chunk_registry st) /\
  Dict.get "_counter" (chunk_registry st') = Dict.get "_counter" (chunk_registry st) /\
  (exists r', Dict.get "chunk_0001" (chunk_registry st') = Some (Mapping r') /\
     Chunk.status r' = "trained" /\ Chunk.lora_id r' = Some "lora_0001") /\
  mark_chunk Sample.isoformat_at (Trained "lora_0001") "chunk_0003" st = Ok tt st.
Proof.
  intros st st'.
  destruct (mark_chunk_frame Sample.isoformat_at (Trained "lora_0001") "chunk_0001" st)
    as (Hctr & Hother & Hsaved & Hrec & _).
  destruct (mark_chunk_frame Sample.isoformat_at (Trained "lora_0001") "chunk_0003" st)
    as (_ & _ & _ & _ & Habsent).
  fold st' in Hctr, Hother, Hsaved, Hrec.
  split_and!.
  - rewrite Hctr. by vm_compute.
  - by apply Hother.
  - apply Hsaved; [by vm_compute | done].
  - edestruct Hrec as (r' & Hget & _ & Hs & _ & Hl); [by vm_compute | done |].
    exists r'. by split_and!.
  - apply Habsent. by vm_compute.
Defined.

(** A status change on a pending chunk. *)
Lemma update_chunk_status_unconditional_witness :
  let st :=
    run Sample.isoformat_at Sample.identify_model
      [CreateChunk Sample.documents None None] (__init__ empty_disk 0) in
  (exists st' r',
     _update_chunk_status Sample.isoformat_at "chunk_0001" "archived" "" st = Ok tt st' /\
     Dict.get "chunk_0001" (chunk_registry st') = Some (Mapping r') /\
     Chunk.status r' = "archived" /\
     manifest_json (disk st') !! "chunk_0001" = Some (Mapping r')) /\
  _update_chunk_status Sample.isoformat_at "chunk_0002" "archived" "" st = Ok tt st.
Proof.
  intros st.
  destruct (update_chunk_status_unconditional Sample.isoformat_at
              "chunk_0001" "archived" "" st) as [Hpresent _].
  destruct (update_chunk_status_unconditional Sample.isoformat_at
              "chunk_0002" "archived" "" st) as [_ Habsent].
  split.
  - edestruct Hpresent as (st' & r' & Hrun & Hget & Hs & _ & _ & Hman & _);
      [by vm_compute | done |].
    exists st', r'. split_and!; try done. apply Hman.
    assert (Hm : exists e, manifest_json (disk st) !! "chunk_0001" = Some e)
      by (eexists; by vm_compute).
    exact Hm.
  - apply Habsent. by vm_compute.
Defined.

(** ** Illegal transitions are carried out *)

(** C5, as it was claimed, fails twice over.  A pending chunk made by
    [create_chunk] goes to RESTORED through [mark_chunk_restored], and a
    chunk that a registry file records as ARCHIVED goes to TRAINING through
    [mark_chunk_training]; neither transition is in the life-cycle diagram,
    neither call is rejected, and the status changes. *)
Lemma transition_not_validated :
  (let st :=
     run Sample.isoformat_at Sample.identify_model
       [CreateChunk Sample.documents None None] (__init__ empty_disk 0) in
   exists c st' c',
     Dict.get "chunk_0001" (chunk_registry st) = Some (Mapping c) /\
     Chunk.status c = ChunkStatus.PENDING /\
     permitted (Chunk.status c) ChunkStatus.RESTORED = false /\
     mark_chunk_restored Sample.isoformat_at "chunk_0001" st = Ok tt st' /\
     Dict.get "chunk_0001" (chunk_registry st') = Some (Mapping c') /\
     Chunk.status c' = ChunkStatus.RESTORED /\
     length (Chunk.history c') = S (length (Chunk.history c))) /\
  (let archived := Chunk.set_status ChunkStatus.ARCHIVED (Chunk.DataChunk "chunk_0001" "t0") in
   let d :=
     {| chunk_registry_json :=
          Parsed [("chunk_0001", Mapping archived); ("_counter", Scalar 1)];
        lora_registry_json := Absent;
        model_registry_json := Absent;
        manifest_json := {["chunk_0001" := Mapping archived]};
        documents_json := {["chunk_0001" := Sample.documents]};
        adapter_dirs := ∅;
        operations_jsonl := [] |} in
   let st := __init__ d 0 in
   exists st' c',
     Dict.get "chunk_0001" (chunk_registry st) = Some (Mapping archived) /\
     permitted (Chunk.status archived) ChunkStatus.TRAINING = false /\
     mark_chunk_training Sample.isoformat_at "chunk_0001" st = Ok tt st' /\
     Dict.get "chunk_0001" (chunk_registry st') = Some (Mapping c') /\
     Chunk.status c' = ChunkStatus.TRAINING /\
     manifest_json (disk st') !! "chunk_0001" = Some (Mapping c')).
Proof.
  split.
  - intros st. eexists _, _, _. split_and!; by vm_compute.
  - intros archived d st. eexists _, _. split_and!; by vm_compute.
Qed.

(** ** An unparseable registry is overwritten *)

(** C7, as it was claimed, fails: on a data directory whose
    [chunk_registry.json] holds the text ["{"], the manager starts with an
    empty registry and the first [create_chunk] replaces the corrupt file. *)
Lemma corrupt_registry_overwritten :
  let d :=
    {| chunk_registry_json := Unparseable "{";
       lora_registry_json := Absent;
       model_registry_json := Absent;
       manifest_json := ∅;
       documents_json := ∅;
       adapter_dirs := ∅;
       operations_jsonl := [] |} in
  let st := __init__ d 0 in
  exists chunk st',
    chunk_registry_json (disk st) = Unparseable "{" /\
    create_chunk Sample.isoformat_at Sample.documents None None st = Ok chunk st' /\
    chunk_registry_json (disk st') =
      Parsed [("chunk_0001", Mapping chunk); ("_counter", Scalar 1)] /\
    chunk_registry_json (disk st') <> Unparseable "{".
Proof.
  intros d st. eexists _, _. split_and!; [by vm_compute..|].
  by vm_compute.
Qed.

Lemma unparseable_registry_startup_witness :
  let d :=
    {| chunk_registry_json := Unparseable "{";
       lora_registry_json := Absent;
       model_registry_json := Absent;
       manifest_json := ∅;
       documents_json := ∅;
       adapter_dirs := ∅;
       operations_jsonl := [] |} in
  let st := __init__ d 0 in
  chunk_registry st = [] /\
  disk st = d /\
  get_chunks_by_status None None st = Ok [] st /\
  exists chunk st',
    create_chunk Sample.isoformat_at Sample.documents None None st = Ok chunk st' /\
    chunk_registry_json (disk st') =
      Parsed [("chunk_0001", Mapping chunk); ("_counter", Scalar 1)].
Proof.
  intros d st.
  destruct (unparseable_registry_startup Sample.isoformat_at d "{" 0)
    as (Hreg & Hdisk & Hlist & Hcreate); [done|].
  split_and!; [done | done | apply Hlist |].
  destruct (Hcreate Sample.documents None None) as (chunk & st' & Hrun & _ & Hfile).
  by exists chunk, st'.
Defined.

(** ** Adapter-model coupling *)

(** C4, as it was claimed, fails twice over.  After [register_model] on
    [/m/a], [register_lora] and [register_model] on [/m/b], the adapter is
    active and bound to [/m/a], which is not the current model any more.
    And an adapter registered before any model is bound to no model and stays
    active when [handle_model_switch] registers the first model. *)
Lemma coupling_broken_by_register_model :
  (let st :=
     run Sample.isoformat_at Sample.identify_model
       [RegisterModel "/m/a" None;
        RegisterLora [] "/tmp/ad" None None;
        RegisterModel "/m/b" None]
       (__init__ empty_disk 0) in
   reachable Sample.isoformat_at Sample.identify_model any_op st /\
   ~ adapter_model_coupling st) /\
  (let st :=
     run Sample.isoformat_at Sample.identify_model
       [RegisterLora [] "/tmp/ad" None None;
        HandleModelSwitch "/m/a" None]
       (__init__ empty_disk 0) in
   reachable Sample.isoformat_at Sample.identify_model through_switch st /\
   ~ adapter_model_coupling st).
Proof.
  split; intros st.
  - split.
    + apply run_reachable; [apply reachable_init | by vm_compute..].
    + intros Hcoupling.
      assert (Hrec : exists r, adapter_record st "lora_0001" r /\
                LoRA.status r = "active" /\
                LoRA.model_identity_hash r = Some "hash:/m/a").
      { eexists. split_and!; [split; [apply dict_get_elem_of|] | |]; by vm_compute. }
      destruct Hrec as (r & Hr & Hs & Hm).
      assert (Hcur : current_model st = Some "hash:/m/b") by (by vm_compute).
      destruct (Hcoupling "lora_0001" r Hr) as [Hbound|Hun].
      * by rewrite Hs.
      * rewrite Hm, Hcur in Hbound. by injection Hbound.
      * by rewrite Hs in Hun.
  - split.
    + apply run_reachable; [apply reachable_init | by vm_compute..].
    + intros Hcoupling.
      assert (Hrec : exists r, adapter_record st "lora_0001" r /\
                LoRA.status r = "active" /\
                LoRA.model_identity_hash r = None).
      { eexists. split_and!; [split; [apply dict_get_elem_of|] | |]; by vm_compute. }
      destruct Hrec as (r & Hr & Hs & Hm).
      assert (Hcur : current_model st = Some "hash:/m/a") by (by vm_compute).
      destruct (Hcoupling "lora_0001" r Hr) as [Hbound|Hun].
      * by rewrite Hs.
      * by rewrite Hm, Hcur in Hbound.
      * by rewrite Hs in Hun.
Qed.

Lemma coupling_of_bound_adapters_witness :
  let st :=
    run Sample.isoformat_at Sample.identify_model
      [HandleModelSwitch "/m/a" None;
       CreateChunk Sample.documents None None;
       RegisterLora ["chunk_0001"] "/tmp/ad" None None;
       HandleModelSwitch "/m/b" None;
       RestoreChunksToRag None]
      (__init__ empty_disk 0) in
  reachable Sample.isoformat_at Sample.identify_model through_switch st /\
  bound_adapter_coupling st.
Proof.
  intros st.
  assert (Hreach : reachable Sample.isoformat_at Sample.identify_model through_switch st).
  { apply run_reachable; [apply reachable_init | by vm_compute..]. }
  split; [done|].
  apply (coupling_of_bound_adapters Sample.isoformat_at Sample.identify_model
           sample_identity_hash_nonempty st Hreach).
Defined.

(** ** File checksums *)

(** A file of five bytes read in blocks of two. *)
Lemma streamed_sample :
  ModelFingerprint.updates
    (ModelFingerprint.streamed [Byte.x01; Byte.x02; Byte.x03; Byte.x04; Byte.x05] "sha256" 2) =
  [[Byte.x01; Byte.x02]; [Byte.x03; Byte.x04]; [Byte.x05]].
Proof. reflexivity. Qed.

(** A file of three bytes, and a file of 10 GiB and one byte. *)
Lemma compute_file_checksum_spec_witness :
  let small := [Byte.x01; Byte.x02; Byte.x03] in
  let large := replicate (Z.to_nat (10 * 1024 * 1024 * 1024 + 1)) Byte.x00 in
  let window p := take (Z.to_nat (64 * 1024 * 1024)) (drop (Z.to_nat p) large) in
  ModelFingerprint.compute_file_checksum Sample.digest small
    ModelFingerprint.default_algorithm ModelFingerprint.default_chunk_size =
    Sample.digest "sha256" small /\
  ModelFingerprint.compute_file_checksum Sample.digest large
    ModelFingerprint.default_algorithm ModelFingerprint.default_chunk_size =
    "partial_" +:+
    Sample.digest "sha256"
      (window 0 ++ window ((10 * 1024 * 1024 * 1024 + 1) / 2) ++
       window (10 * 1024 * 1024 * 1024 + 1 - 64 * 1024 * 1024) ++
       list_byte_of_string "10737418241").
Proof.
  intros small large window.
  assert (Hsize : ModelFingerprint.getsize large = 10 * 1024 * 1024 * 1024 + 1).
  { unfold ModelFingerprint.getsize, large. rewrite length_replicate. lia. }
  split.
  - destruct (compute_file_checksum_spec Sample.digest small) as (_ & _ & Hsmall & _).
    apply Hsmall. unfold ModelFingerprint.getsize, small. simpl length. lia.
  - destruct (compute_file_checksum_spec Sample.digest large) as (_ & _ & _ & Hlarge).
    rewrite Hlarge by (rewrite Hsize; lia). rewrite Hsize. reflexivity.
Defined.

Lemma get_operation_history_limit_witness :
  let st :=
    run Sample.isoformat_at Sample.identify_model
      [CreateChunk Sample.documents None None; MarkChunkTraining "chunk_0001"]
      (__init__ empty_disk 0) in
  map (fun e => Log.operation (Log.entry_details e)) (get_operation_history 1 st) =
    ["chunk_status_changed"] /\
  map (fun e => Log.operation (Log.entry_details e)) (get_operation_history 0 st) =
    ["chunk_created"; "chunk_status_changed"] /\
  map (fun e => Log.operation (Log.entry_details e)) (get_operation_history (-1) st) =
    ["chunk_status_changed"].
Proof.
  intros st.
  destruct (get_operation_history_limit 1 st) as [H1 _].
  destruct (get_operation_history_limit 0 st) as (_ & H0 & _).
  destruct (get_operation_history_limit (-1) st) as (_ & _ & Hneg).
  destruct H1 as [H1 _]; [lia|]. rewrite H1, H0, Hneg by lia.
  split_and!; by vm_compute.
Defined.

Lemma chunk_files_present_witness :
  let st :=
    run Sample.isoformat_at Sample.identify_model
      [CreateChunk Sample.documents None None; MarkChunkFailed "chunk_0001" "oom";
       GetRestorableChunks None]
      (__init__ empty_disk 0) in
  exists c,
    get_chunk "chunk_0001" st = Some (Mapping c) /\
    Chunk.chunk_id c = "chunk_0001" /\
    is_Some (get_chunk_documents "chunk_0001" st).
Proof.
  intros st.
  assert (exists c, get_chunk "chunk_0001" st = Some (Mapping c)) as [c Hc].
  { eexists. vm_compute. reflexivity. }
  exists c. split; [done|].
  destruct (chunk_files_present Sample.isoformat_at Sample.identify_model
              [CreateChunk Sample.documents None None; MarkChunkFailed "chunk_0001" "oom";
               GetRestorableChunks None] 0 "chunk_0001" c Hc) as (Hid & Hdocs & _).
  by split.
Defined.

Lemma adapter_record_kept_witness :
  let ops0 :=
    [RegisterModel "/m/a" None; RegisterLora [] "/tmp/ad" None None;
     HandleModelSwitch "/m/b" None] in
  let ops := [HandleModelSwitch "/m/a" None; GetAllLoras true] in
  let st := run Sample.isoformat_at Sample.identify_model ops0 (__init__ empty_disk 0) in
  exists r r',
    Dict.get "lora_0001" (lora_registry st) = Some (Mapping r) /\
    LoRA.status r = "unusable" /\
    Dict.get "lora_0001"
      (lora_registry (run Sample.isoformat_at Sample.identify_model ops st)) =
      Some (Mapping r') /\
    LoRA.model_identity_hash r' = Some "hash:/m/a" /\
    LoRA.status r' <> "active".
Proof.
  intros ops0 ops st.
  assert (exists r, Dict.get "lora_0001" (lora_registry st) = Some (Mapping r) /\
            LoRA.status r = "unusable" /\
            LoRA.model_identity_hash r = Some "hash:/m/a") as (r & Hr & Hs & Hm).
  { eexists. split_and!; vm_compute; reflexivity. }
  destruct (adapter_record_kept Sample.isoformat_at Sample.identify_model ops0 ops 0
              "lora_0001" r Hr) as (r' & Hr' & Hkept & Hact).
  exists r, r'. split_and!; try done.
  - by rewrite (ak_model_identity_hash _ _ Hkept).
  - apply Hact. by rewrite Hs.
Defined.

Lemma chunk_record_kept_witness :
  let ops0 := [CreateChunk Sample.documents (Some "Ann") None] in
  let ops := [MarkChunkTraining "chunk_0001"; MarkChunkFailed "chunk_0001" "oom"] in
  let st := run Sample.isoformat_at Sample.identify_model ops0 (__init__ empty_disk 0) in
  exists c c',
    get_chunk "chunk_0001" st = Some (Mapping c) /\
    get_chunk "chunk_0001" (run Sample.isoformat_at Sample.identify_model ops st) =
      Some (Mapping c') /\
    Chunk.character c' = Some "Ann" /\
    exists entries, Chunk.history c' = Chunk.history c ++ entries.
Proof.
  intros ops0 ops st.
  assert (exists c, get_chunk "chunk_0001" st = Some (Mapping c) /\
            Chunk.character c = Some "Ann") as (c & Hc & Hch).
  { eexists. split; vm_compute; reflexivity. }
  destruct (chunk_record_kept Sample.isoformat_at Sample.identify_model ops0 ops 0
              "chunk_0001" c Hc) as (c' & Hc' & Hkept & Hhist).
  exists c, c'. split_and!; try done. by rewrite (ck_character _ _ Hkept).
Defined.

Lemma known_model_kept_witness :
  let st :=
    run Sample.isoformat_at Sample.identify_model
      [RegisterModel "/m/a" (Some "A")] (__init__ empty_disk 0) in
  let ops := [RegisterModel "/m/b" None; RegisterModel "/m/a" (Some "B")] in
  exists info',
    Dict.get "hash:/m/a"
      (Model.known_models
         (model_registry (run Sample.isoformat_at Sample.identify_model ops st))) =
      Some info' /\
    Model.k_friendly_name info' = "A" /\
    1 <= Model.times_used info'.
Proof.
  intros st ops.
  assert (exists info,
            Dict.get "hash:/m/a" (Model.known_models (model_registry st)) = Some info /\
            Model.k_friendly_name info = "A" /\ Model.times_used info = 1)
    as (info & Hget & Hname & Hused).
  { eexists. split_and!; vm_compute; reflexivity. }
  destruct (known_model_kept Sample.isoformat_at Sample.identify_model ops st
              "hash:/m/a" info Hget) as (info' & Hget' & _ & _ & Hn & Ht & _).
  exists info'. split_and!; [done|congruence|lia].
Defined.

Lemma select_lora_agrees_with_compatible_witness :
  let st :=
    run Sample.isoformat_at Sample.identify_model
      [RegisterModel "/m/a" None; RegisterLora [] "/tmp/ad" None None]
      (__init__ empty_disk 0) in
  exists r,
    get_lora "lora_0001" st = Some r /\
    r ∈ get_compatible_loras None st.
Proof.
  intros st.
  assert (exists r, get_lora "lora_0001" st = Some r /\
            LoRA.model_identity_hash r = Some "hash:/m/a" /\
            select_lora "lora_0001" st =
              Some (Compatible r (Some "loras/model_hash:/m/a/lora_0001")))
    as (r & Hr & Hm & Hsel).
  { eexists. split_and!; vm_compute; reflexivity. }
  exists r. split; [done|].
  destruct (select_lora_agrees_with_compatible "lora_0001" r st Hr) as [Hiff _].
  apply (Hiff "hash:/m/a" Hm); [done|]. by eexists.
Defined.


Lemma delete_lora_soft_delete_witness :
  let st := run Sample.isoformat_at Sample.identify_model
      [RegisterModel "/m/a" None; RegisterLora [] "/tmp/ad" None None]
      (__init__ empty_disk 0) in
  exists r st',
    get_lora "lora_0001" st = Some r /\
    delete_lora Sample.isoformat_at "lora_0001" false st = Ok true st' /\
    select_lora "lora_0001" st' = None /\
    (LoRA.status <$> get_lora "lora_0001" st') = Some "deleted".
Proof.
  intros st.
  assert (exists r, get_lora "lora_0001" st = Some r) as [r Hr].
  { eexists. vm_compute. reflexivity. }
  destruct (delete_lora_soft_delete Sample.isoformat_at Sample.identify_model
              [RegisterModel "/m/a" None; RegisterLora [] "/tmp/ad" None None] 0
              "lora_0001" false r Hr) as (st' & Hrun & Hget & Hsel & _).
  exists r, st'. split; [exact Hr|]. split; [exact Hrun|]. split; [exact Hsel|].
  by rewrite Hget.
Defined.

Lemma models_list_their_adapters_witness :
  let st := run Sample.isoformat_at Sample.identify_model
      [RegisterModel "/m/a" None; RegisterLora [] "/tmp/ad" None None;
       HandleModelSwitch "/m/b" None; RegisterLora [] "/tmp/ae" None None]
      (__init__ empty_disk 0) in
  exists h info,
    (LoRA.model_identity_hash <$> get_lora "lora_0001" st) = Some (Some h) /\
    Dict.get h (Model.known_models (model_registry st)) = Some info /\
    "lora_0001" ∈ Model.lora_ids info.
Proof.
  intros st.
  assert (exists r h, get_lora "lora_0001" st = Some r /\
            LoRA.model_identity_hash r = Some h) as (r & h & Hr & Hh).
  { eexists _, _. split; vm_compute; reflexivity. }
  destruct (models_list_their_adapters Sample.isoformat_at Sample.identify_model
              sample_identity_hash_nonempty
              [RegisterModel "/m/a" None; RegisterLora [] "/tmp/ad" None None;
               HandleModelSwitch "/m/b" None; RegisterLora [] "/tmp/ae" None None] 0)
    as (_ & _ & _ & Hbound).
  destruct (Hbound "lora_0001" r h Hr Hh) as (info & Hinfo & Hin).
  exists h, info. split; [|by split]. fold st. by rewrite Hr, <- Hh.
Defined.

Lemma detect_model_change_predicts_witness :
  let st := run Sample.isoformat_at Sample.identify_model
      [RegisterModel "/m/a" None] (__init__ empty_disk 0) in
  exists d res st2,
    detect_model_change Sample.isoformat_at Sample.identify_model "/m/b" st =
      Ok d (set_clock (S (clock st)) st) /\
    handle_model_switch Sample.isoformat_at Sample.identify_model "/m/b" None st =
      Ok res st2 /\
    current_model st2 = Some (dr_new_hash d).
Proof.
  intros st.
  destruct (detect_model_change_predicts Sample.isoformat_at Sample.identify_model
              sample_identity_hash_nonempty [RegisterModel "/m/a" None] 0 "/m/b" None)
    as (d & r & st1 & res & st2 & Hd & _ & Hs & _ & _ & _ & _ & _ & Hcur & _).
  by exists d, res, st2.
Defined.

Lemma get_known_models_lists_witness :
  let st := run Sample.isoformat_at Sample.identify_model
      [RegisterModel "/m/a" None; RegisterModel "/m/b" (Some "B")]
      (__init__ empty_disk 0) in
  exists h m,
    current_model st = Some h /\
    m ∈ get_known_models st /\ km_identity_hash m = h /\ km_is_current m = true.
Proof.
  intros st.
  assert (exists h, current_model st = Some h) as [h Hh].
  { eexists. vm_compute. reflexivity. }
  destruct (get_known_models_lists Sample.isoformat_at Sample.identify_model
              sample_identity_hash_nonempty
              [RegisterModel "/m/a" None; RegisterModel "/m/b" (Some "B")] 0)
    as (_ & _ & _ & _ & Hcur).
  destruct (Hcur h Hh) as (m & Hm). by exists h, m.
Defined.

Lemma get_overview_current_model_witness :
  let st := run Sample.isoformat_at Sample.identify_model
      [RegisterModel "/m/a" (Some "A"); CreateChunk Sample.documents None None]
      (__init__ empty_disk 0) in
  exists ov st',
    get_overview st = Ok ov st' /\ ov_current_model_name ov = "A" /\
    ov_known_models ov = 1%nat.
Proof.
  intros st.
  destruct (get_overview_current_model Sample.isoformat_at Sample.identify_model
              sample_identity_hash_nonempty
              [RegisterModel "/m/a" (Some "A"); CreateChunk Sample.documents None None] 0)
    as (ov & st' & Hrun & _ & Hknown & Hname).
  fold st in Hrun, Hknown, Hname.
  assert (exists h, current_model st = Some h /\
            Model.k_friendly_name <$> Dict.get h (Model.known_models (model_registry st)) =
            Some "A") as (h & Hh & Hfriendly).
  { eexists. split; vm_compute; reflexivity. }
  assert (length (get_known_models st) = 1%nat) as Hlen by (by vm_compute).
  rewrite Hh in Hname. destruct Hname as (info & Hinfo & Hname).
  rewrite Hinfo in Hfriendly. injection Hfriendly as Hfriendly.
  exists ov, st'. split; [done|]. split; congruence.
Defined.

Lemma compute_file_checksum_chunk_size_witness :
  let file := [Byte.x01; Byte.x02; Byte.x03] in
  ModelFingerprint.compute_file_checksum Sample.digest file "sha256" 2 =
    Sample.digest "sha256" file /\
  ModelFingerprint.compute_file_checksum Sample.digest file "sha256" 0 =
    Sample.digest "sha256" [].
Proof.
  intros file.
  assert (ModelFingerprint.getsize file <= 10 * 1024 * 1024 * 1024) as Hsize.
  { unfold ModelFingerprint.getsize, file. simpl length. lia. }
  split.
  - apply (compute_file_checksum_chunk_size Sample.digest file 2 Hsize). left. lia.
  - by apply (compute_file_checksum_chunk_size Sample.digest file 0 Hsize).
Defined.

Lemma mark_lora_unusable_keeps_selectable_witness :
  let st := run Sample.isoformat_at Sample.identify_model
      [RegisterModel "/m/a" None; RegisterLora [] "/tmp/ad" None None;
       DeleteLora "lora_0001" false] (__init__ empty_disk 0) in
  exists r st',
    get_lora "lora_0001" st = Some r /\
    LoRA.status r = "deleted" /\
    mark_lora_unusable Sample.isoformat_at "lora_0001" "broken" st = Ok tt st' /\
    (LoRA.status <$> get_lora "lora_0001" st') = Some "unusable" /\
    exists r', select_lora "lora_0001" st' = Some (Compatible r' (LoRA.path r)).
Proof.
  intros st.
  assert (exists r, get_lora "lora_0001" st = Some r /\ LoRA.status r = "deleted" /\
            LoRA.model_identity_hash r = current_model st) as (r & Hr & Hs & Hm).
  { eexists. split_and!; vm_compute; reflexivity. }
  destruct (mark_lora_unusable_keeps_selectable Sample.isoformat_at Sample.identify_model
              [RegisterModel "/m/a" None; RegisterLora [] "/tmp/ad" None None;
               DeleteLora "lora_0001" false] 0 "lora_0001" "broken" r Hr)
    as (st' & Hrun & Hget & Hst & _ & _ & _ & _ & _ & _ & _ & Hsel).
  exists r, st'. split_and!; try done.
  - by rewrite Hget.
  - eexists. apply Hsel. by right.
Defined.

Lemma route_get_chunk_answers_witness :
  let st := run Sample.isoformat_at Sample.identify_model
      [CreateChunk Sample.documents None None] (__init__ empty_disk 0) in
  route_get_chunk "_counter" st =
    Ok {| status_code := 200; response_content := chunk_content (Scalar 1) |} st /\
  route_get_chunk "chunk_0002" st =
    Ok {| status_code := 404; response_content := error_content "Chunk not found" |} st.
Proof.
  intros st.
  destruct (route_get_chunk_answers Sample.isoformat_at Sample.identify_model
              [CreateChunk Sample.documents None None] 0 "chunk_0002")
    as (_ & Hnone & Hcounter).
  assert (exists c, get_chunk "chunk_0001" st = Some (Mapping c)) as [c Hc].
  { eexists. vm_compute. reflexivity. }
  assert (_chunk_counter st = 1) as Hone by (by vm_compute).
  split.
  - rewrite <- Hone. apply Hcounter. by exists "chunk_0001", c.
  - apply Hnone. by vm_compute.
Defined.

Lemma route_adapter_answers_witness :
  let st := run Sample.isoformat_at Sample.identify_model
      [RegisterLora [] "/tmp/ad" None None] (__init__ empty_disk 0) in
  route_mark_unusable Sample.isoformat_at "lora_0007" None st =
    Ok {| status_code := 200;
          response_content := message_content "LoRA lora_0007 marked as unusable" |} st /\
  route_delete_lora Sample.isoformat_at "_counter" false st =
    Ok {| status_code := 500;
          response_content :=
            error_content "'int' object does not support item assignment" |} st.
Proof.
  intros st.
  destruct (route_adapter_answers Sample.isoformat_at Sample.identify_model
              [RegisterLora [] "/tmp/ad" None None] 0 "lora_0007")
    as (Hunknown & _ & Hcounter).
  assert (exists r, get_lora "lora_0001" st = Some r) as [r Hr].
  { eexists. vm_compute. reflexivity. }
  split.
  - apply Hunknown; [by vm_compute|done].
  - apply Hcounter. by exists "lora_0001", r.
Defined.

